(** * ProctorForge monitoring core: a shallow embedding and its properties

    The development follows the layout of the server package:

    - [Py]          the Python built-ins the services rely on
                    ([min], [max], [round], [str.strip], [in]);
    - [F64]         binary64 arithmetic, for the scores the services compute
                    with Python floats;
    - [Json]        [json.dumps(obj, sort_keys=True, default=str)];
    - [Sha256]      [hashlib.sha256] and [hmac.new(..., hashlib.sha256)];
    - [TrustScore]  [services/trust_score.py];
    - [Hmac]        [utils/hmac.py];
    - [Sandbox]     [services/sandbox.py];
    - [Websocket]   [routers/websocket.py] ([ConnectionManager]);
    - [Monitoring]  [routers/monitoring.py].

    A number is the rational it denotes.  Where a result depends on how
    Python rounds ([compute_trust_score], [apply_violation_penalty], the
    score of [run_test_cases]) the operations are those of [F64]; the
    monitoring routes, whose penalties are whole numbers and tenths that are
    only compared and bounded, are written with exact arithmetic. *)

From Stdlib Require Import ZArith QArith Qround Qminmax Qpower Qabs Lia Lqa.
From Stdlib Require Import String Ascii List Bool DecimalString DecimalZ Sorted.
From stdpp Require Import base option list strings gmap sets.

#[local] Open Scope Z_scope.

(* ===================================================================== *)
(** ** Python built-ins                                                   *)
(* ===================================================================== *)

Module Py.

#[local] Open Scope Q_scope.

(** [a < b] on numbers, as a boolean. *)
Definition ltb (a b : Q) : bool := negb (Qle_bool b a).

(** [min(a, b)]: the first argument unless the second is strictly smaller. *)
Definition min (a b : Q) : Q := if ltb b a then b else a.

(** [max(a, b)]: the first argument unless the second is strictly larger. *)
Definition max (a b : Q) : Q := if ltb a b then b else a.

(** Round to the nearest integer, ties to the even neighbour. *)
Definition round_half_even (y : Q) : Z :=
  let f := Qfloor y in
  match Qcompare (y - inject_Z f) (1 # 2) with
  | Lt => f
  | Gt => (f + 1)%Z
  | Eq => if Z.even f then f else (f + 1)%Z
  end.

(** [round(x, ndigits)] for a non-negative number of digits, on the number
    [x] denotes: ties go to the even digit.  What Python returns on the
    float nearest to a decimal is [F64.round]. *)
Definition round (x : Q) (ndigits : nat) : Q :=
  let scale := inject_Z (10 ^ Z.of_nat ndigits) in
  inject_Z (round_half_even (x * scale)) / scale.

(** [ge a b] is the test [a >= b]. *)
Definition geb (a b : Q) : bool := Qle_bool b a.

(** Strings are sequences of code points below 256.  [str.isspace] holds of
    TAB..CR, FS..US, SPACE, NEL (0x85) and NBSP (0xA0) in that range. *)
Definition is_space (c : ascii) : bool :=
  let n := nat_of_ascii c in
  ((9 <=? n) && (n <=? 13) || (28 <=? n) && (n <=? 32)
   || (n =? 133) || (n =? 160))%nat.

Fixpoint lstrip (s : string) : string :=
  match s with
  | String c s' => if is_space c then lstrip s' else s
  | EmptyString => EmptyString
  end.

Definition rstrip (s : string) : string := String.rev (lstrip (String.rev s)).

(** [s.strip()] *)
Definition strip (s : string) : string := rstrip (lstrip s).

(** [pat in s] for two strings. *)
Fixpoint contains (pat s : string) : bool :=
  if String.prefix pat s then true
  else match s with
       | String _ s' => contains pat s'
       | EmptyString => false
       end.

(** [s[:n]] *)
Definition take (n : nat) (s : string) : string := String.substring 0 n s.

(** The line feed ["\n"]. *)
Definition nl : string := String (ascii_of_nat 10) EmptyString.

(** Truth value of a string: empty strings are falsy. *)
Definition nonempty (s : string) : bool :=
  match s with EmptyString => false | _ => true end.

(** [f"{x:.0f}"] for a number that does not round to a negative zero. *)
Definition format_0f (x : Q) : string :=
  NilZero.string_of_int (Z.to_int (round_half_even x)).

#[local] Set Warnings "-register-all".

(** Values whose type is only known when the program runs. *)
Inductive value : Set :=
  | NoneV
  | Bool (b : bool)
  | Num (x : Q)
  | Str (s : string)
  | List (l : list value)
  | Dict (items : list (string * value)).

Inductive Exn : Set :=
  TypeError | AttributeError | KeyError | OverflowError.

(** The outcome of a call: a value, or an exception that propagates. *)
Inductive Result (A : Type) : Type :=
  | Ok (a : A)
  | Raise (e : Exn).
Arguments Ok {A} a.
Arguments Raise {A} e.

(** [d.get(key)] on the items of a dictionary. *)
Definition dict_get (items : list (string * value)) (key : string)
    : option value :=
  option_map snd (find (fun kv => String.eqb (fst kv) key) items).

(** [d[key] = v]: replace in place, or append a new key. *)
Fixpoint dict_set (items : list (string * value)) (key : string) (v : value)
    : list (string * value) :=
  match items with
  | nil => (key, v) :: nil
  | kv :: rest =>
      if String.eqb (fst kv) key then (key, v) :: rest
      else kv :: dict_set rest key v
  end.

(** [v[key]] *)
Definition getitem (v : value) (key : string) : Result value :=
  match v with
  | Dict items =>
      match dict_get items key with
      | Some x => Ok x
      | None => Raise KeyError
      end
  | _ => Raise TypeError
  end.

(** The number a value stands for in arithmetic: numbers, and booleans as
    0 and 1. *)
Definition as_number (v : value) : option Q :=
  match v with
  | Num x => Some x
  | Bool b => Some (if b then 1 else 0)
  | _ => None
  end.

(** [a - b]: a [TypeError] unless both operands are numbers (strings,
    lists, dictionaries and [None] are not). *)
Definition sub (a b : value) : Result value :=
  match as_number a, as_number b with
  | Some x, Some y => Ok (Num (x - y))
  | _, _ => Raise TypeError
  end.

(** [max(0, v)]: ordering 0 against a non-number is a [TypeError]. *)
Definition max0 (v : value) : Result value :=
  match as_number v with
  | Some x => if ltb 0 x then Ok v else Ok (Num 0)
  | None => Raise TypeError
  end.

(** *** Facts about the built-ins *)

Lemma ltb_spec (a b : Q) : ltb a b = true <-> a < b.
Proof.
  unfold ltb. rewrite negb_true_iff, <- not_true_iff_false, Qle_bool_iff.
  split; [apply Qnot_le_lt | apply Qlt_not_le].
Qed.

Lemma geb_spec (a b : Q) : geb a b = true <-> b <= a.
Proof. unfold geb. apply Qle_bool_iff. Qed.

Lemma geb_false (a b : Q) : geb a b = false <-> a < b.
Proof.
  rewrite <- not_true_iff_false, geb_spec.
  split; [apply Qnot_le_lt | apply Qlt_not_le].
Qed.

#[export] Instance round_half_even_proper : Proper (Qeq ==> eq) round_half_even.
Proof.
  intros x y Hxy. unfold round_half_even.
  rewrite (Qfloor_comp x y Hxy).
  assert (Hc : Qcompare (x - inject_Z (Qfloor y)) (1 # 2)
               = Qcompare (y - inject_Z (Qfloor y)) (1 # 2))
    by (apply Qcompare_comp; [rewrite Hxy|]; reflexivity).
  now rewrite Hc.
Qed.

#[export] Instance round_proper : Proper (Qeq ==> eq ==> Qeq) round.
Proof.
  intros x y Hxy n ? <-. unfold round.
  assert (H : x * inject_Z (10 ^ Z.of_nat n) == y * inject_Z (10 ^ Z.of_nat n))
    by (rewrite Hxy; reflexivity).
  now rewrite (round_half_even_proper _ _ H).
Qed.

(** The nearest integer is at most one half away. *)
Lemma round_half_even_near (y : Q) :
  - (1 # 2) <= y - inject_Z (round_half_even y) <= 1 # 2.
Proof.
  unfold round_half_even.
  assert (Hlo := Qfloor_le y). assert (Hhi := Qlt_floor y).
  rewrite inject_Z_plus in Hhi. change (inject_Z 1) with 1 in Hhi.
  set (f := Qfloor y) in *.
  destruct (Qcompare (y - inject_Z f) (1 # 2)) eqn:Hc.
  - apply Qeq_alt in Hc.
    destruct (Z.even f);
      [|rewrite inject_Z_plus; change (inject_Z 1) with 1]; lra.
  - apply Qlt_alt in Hc. lra.
  - apply Qgt_alt in Hc. rewrite inject_Z_plus. change (inject_Z 1) with 1. lra.
Qed.

(** Rounding at a fixed number of digits, from rounding to an integer:
    [s] is the scale 10^digits and [u] its inverse. *)
Ltac round_near x s u :=
  unfold round; change (inject_Z (10 ^ Z.of_nat _)) with (inject_Z s);
  let H := fresh "H" in
  assert (H := round_half_even_near (x * inject_Z s));
  let r := fresh "r" in
  set (r := inject_Z (round_half_even (x * inject_Z s))) in *;
  let E := fresh "E" in
  assert (E : r / inject_Z s == r * u) by (unfold Qdiv; reflexivity);
  rewrite E; change (inject_Z s) with (Qmake s 1) in H; lra.

(** [round(x, 2)] moves [x] by at most half a hundredth. *)
Lemma round2_near (x : Q) : - (1 # 200) <= x - round x 2 <= 1 # 200.
Proof. round_near x 100%Z (1 # 100). Qed.

(** [round(x, 1)] moves [x] by at most half a tenth. *)
Lemma round1_near (x : Q) : - (1 # 20) <= x - round x 1 <= 1 # 20.
Proof. round_near x 10%Z (1 # 10). Qed.

End Py.

(* ===================================================================== *)
(** ** Further facts about the built-ins                                   *)
(* ===================================================================== *)

Module PyFacts.

#[local] Open Scope Q_scope.

(** Rounding to the nearest integer keeps the order. *)
Lemma round_half_even_mono (x y : Q) :
  x <= y -> (Py.round_half_even x <= Py.round_half_even y)%Z.
Proof.
  intros Hxy. unfold Py.round_half_even.
  assert (Hf := Qfloor_resp_le x y Hxy).
  assert (Hx1 := Qfloor_le x). assert (Hx2 := Qlt_floor x).
  assert (Hy1 := Qfloor_le y). assert (Hy2 := Qlt_floor y).
  rewrite inject_Z_plus in Hx2, Hy2. change (inject_Z 1) with 1 in Hx2, Hy2.
  destruct (Z.eq_dec (Qfloor x) (Qfloor y)) as [E|N].
  - rewrite E in *. clear Hx1 Hx2 Hy1 Hy2.
    destruct (Qcompare_spec (x - inject_Z (Qfloor y)) (1 # 2)) as [Cx|Cx|Cx];
      destruct (Qcompare_spec (y - inject_Z (Qfloor y)) (1 # 2)) as [Cy|Cy|Cy];
      try (destruct (Z.even (Qfloor y))); try lia; exfalso;
      generalize dependent (inject_Z (Qfloor y)); intros; lra.
  - assert (Hlt : (Qfloor x + 1 <= Qfloor y)%Z) by lia.
    destruct (Qcompare (x - inject_Z (Qfloor x)) (1 # 2));
      destruct (Qcompare (y - inject_Z (Qfloor y)) (1 # 2));
      try (destruct (Z.even (Qfloor x))); try (destruct (Z.even (Qfloor y)));
      lia.
Qed.

(** [round(x, n)] keeps the order. *)
Lemma round_mono (x y : Q) (n : nat) : x <= y -> Py.round x n <= Py.round y n.
Proof.
  intros H. unfold Py.round.
  assert (Hpos : 0 < inject_Z (10 ^ Z.of_nat n)).
  { change 0 with (inject_Z 0). rewrite <- Zlt_Qlt.
    apply Z.pow_pos_nonneg; lia. }
  set (scale := inject_Z (10 ^ Z.of_nat n)) in *.
  assert (Hs : x * scale <= y * scale)
    by (apply Qmult_le_compat_r; [exact H | now apply Qlt_le_weak]).
  apply round_half_even_mono in Hs.
  apply Qle_shift_div_l; [exact Hpos|].
  unfold Qdiv. rewrite <- Qmult_assoc, (Qmult_comm (/ scale)), Qmult_inv_r, Qmult_1_r.
  - now rewrite <- Zle_Qle.
  - intros E. rewrite E in Hpos. now apply Qlt_irrefl in Hpos.
Qed.

(** [s[:n]] has [min(n, len(s))] characters, is a prefix of [s], and is [s]
    itself when [s] is short enough. *)
Lemma take_length (n : nat) (s : string) :
  String.length (Py.take n s) = Nat.min n (String.length s).
Proof.
  unfold Py.take. revert n.
  induction s as [|c s IH]; intros [|n]; cbn; try reflexivity.
  now rewrite IH.
Qed.

Lemma take_prefix (n : nat) (s : string) : String.prefix (Py.take n s) s = true.
Proof.
  unfold Py.take. revert n.
  induction s as [|c s IH]; intros [|n]; cbn; try reflexivity.
  rewrite IH. now destruct (ascii_dec c c).
Qed.

Lemma take_all (n : nat) (s : string) :
  (String.length s <= n)%nat -> Py.take n s = s.
Proof.
  unfold Py.take. revert n.
  induction s as [|c s IH]; intros [|n] H; cbn in *; try reflexivity; try lia.
  f_equal. apply IH. lia.
Qed.

(** [round(x, 3)] moves [x] by at most half a thousandth. *)
Lemma round3_near (x : Q) : - (1 # 2000) <= x - Py.round x 3 <= 1 # 2000.
Proof. unfold Py.round. Py.round_near x 1000%Z (1 # 1000). Qed.

#[local] Open Scope string_scope.

(** *** [str.strip] *)

(** Every character of [s] is white space. *)
Fixpoint all_space (s : string) : bool :=
  match s with
  | String c s' => Py.is_space c && all_space s'
  | EmptyString => true
  end.

(** [s] begins, or ends, with a white-space character. *)
Definition starts_space (s : string) : bool :=
  match s with String c _ => Py.is_space c | EmptyString => false end.

Definition ends_space (s : string) : bool := starts_space (String.rev s).

(** [u] is [s] trimmed: [s] without the white space around it. *)
Definition trimmed (s u : string) : Prop :=
  exists l r, s = l ++ u ++ r /\ all_space l = true /\ all_space r = true /\
              starts_space u = false /\ ends_space u = false.

Lemma append_cons (c : ascii) (s t : string) :
  String c s ++ t = String c (s ++ t).
Proof. reflexivity. Qed.

Lemma append_nil_r (s : string) : s ++ "" = s.
Proof.
  induction s as [|c s IH]; [reflexivity | now rewrite append_cons, IH].
Qed.

Lemma append_assoc (a b c : string) : (a ++ b) ++ c = a ++ b ++ c.
Proof.
  induction a as [|x a IH]; [reflexivity | now rewrite !append_cons, IH].
Qed.

Lemma rev_app_append (a b c : string) :
  String.rev_app a b ++ c = String.rev_app a (b ++ c).
Proof.
  revert b. induction a as [|x a IH]; intros b; [reflexivity|].
  cbn [String.rev_app]. rewrite IH. now rewrite append_cons.
Qed.

Lemma rev_app_rev (a b : string) : String.rev_app a b = String.rev a ++ b.
Proof. unfold String.rev. now rewrite rev_app_append. Qed.

Lemma rev_append (a b : string) :
  String.rev (a ++ b) = String.rev b ++ String.rev a.
Proof.
  assert (H : forall c, String.rev_app (a ++ b) c
                        = String.rev_app b (String.rev_app a c)).
  { induction a as [|x a IH]; intros c; [reflexivity|].
    rewrite append_cons. cbn [String.rev_app]. apply IH. }
  unfold String.rev at 1. rewrite H. apply rev_app_rev.
Qed.

Lemma rev_involutive (a : string) : String.rev (String.rev a) = a.
Proof.
  induction a as [|x a IH]; [reflexivity|].
  change (String x a) with (String x "" ++ a).
  rewrite rev_append, rev_append, IH. reflexivity.
Qed.

Lemma all_space_append (a b : string) :
  all_space (a ++ b) = all_space a && all_space b.
Proof.
  induction a as [|x a IH]; [reflexivity|].
  rewrite append_cons. cbn [all_space]. now rewrite IH, andb_assoc.
Qed.

Lemma all_space_rev (a : string) : all_space (String.rev a) = all_space a.
Proof.
  induction a as [|x a IH]; [reflexivity|].
  change (String x a) with (String x "" ++ a).
  rewrite rev_append, !all_space_append, IH. apply andb_comm.
Qed.

Lemma lstrip_spec (s : string) :
  exists l, s = l ++ Py.lstrip s /\ all_space l = true /\
            starts_space (Py.lstrip s) = false.
Proof.
  induction s as [|c s (l & E & Hl & Hs)]; [now exists ""|].
  cbn [Py.lstrip]. destruct (Py.is_space c) eqn:Hc.
  - exists (String c l). rewrite append_cons, <- E. cbn [all_space].
    now rewrite Hc, Hl.
  - exists "". cbn [starts_space all_space]. now rewrite Hc.
Qed.

Lemma lstrip_spaces (l s : string) :
  all_space l = true -> Py.lstrip (l ++ s) = Py.lstrip s.
Proof.
  induction l as [|c l IH]; [reflexivity|].
  cbn [all_space]. intros [Hc Hl]%andb_true_iff.
  rewrite append_cons. cbn [Py.lstrip]. rewrite Hc. now apply IH.
Qed.

Lemma lstrip_id (s : string) : starts_space s = false -> Py.lstrip s = s.
Proof.
  destruct s as [|c s]; [reflexivity|].
  cbn [starts_space Py.lstrip]. now intros ->.
Qed.

Lemma lstrip_all_space (s : string) : all_space s = true -> Py.lstrip s = "".
Proof. intros H. rewrite <- (append_nil_r s). now rewrite lstrip_spaces. Qed.

(** [s.strip()] is [s] trimmed, and nothing else is. *)
Lemma strip_trimmed (s : string) : trimmed s (Py.strip s).
Proof.
  destruct (lstrip_spec s) as (l & E & Hl & Hs).
  destruct (lstrip_spec (String.rev (Py.lstrip s))) as (l' & E' & Hl' & Hs').
  assert (Et : Py.lstrip s = Py.strip s ++ String.rev l').
  { rewrite <- (rev_involutive (Py.lstrip s)). rewrite E' at 1.
    now rewrite rev_append. }
  exists l, (String.rev l'). split; [now rewrite <- Et|].
  split; [exact Hl|]. split; [now rewrite all_space_rev|]. split.
  - rewrite Et in Hs. destruct (Py.strip s); [reflexivity | exact Hs].
  - unfold ends_space, Py.strip, Py.rstrip. now rewrite rev_involutive.
Qed.

Lemma trimmed_unique (s u : string) : trimmed s u -> Py.strip s = u.
Proof.
  intros (l & r & -> & Hl & Hr & Hs & He).
  unfold Py.strip, Py.rstrip. rewrite (lstrip_spaces l _ Hl).
  destruct u as [|c u].
  - change ("" ++ r) with r. now rewrite (lstrip_all_space r Hr).
  - rewrite (lstrip_id (String c u ++ r)) by exact Hs.
    rewrite rev_append, lstrip_spaces by now rewrite all_space_rev.
    rewrite lstrip_id by exact He. apply rev_involutive.
Qed.

Lemma strip_iff (s u : string) : Py.strip s = u <-> trimmed s u.
Proof. split; [intros <-; apply strip_trimmed | apply trimmed_unique]. Qed.

Example strip_example :
  Py.strip ("  7 " ++ Py.nl) = "7" /\ Py.strip "a b " = "a b" /\
  Py.strip (Py.nl ++ Py.nl) = "".
Proof. repeat split. Qed.

End PyFacts.

(* ===================================================================== *)
(** ** Binary64 arithmetic                                                *)
(* ===================================================================== *)

(** A Python [float] is a binary64 value, here the rational it denotes.
    Every operation returns the exact result rounded to the nearest value,
    ties to the even significand.  Overflow to infinity is left out: the
    operands of the functions that use this module stay far below 2^1024
    ([overflows] tells which integers do not). *)

Module F64.

#[local] Open Scope Q_scope.

(** [floor(log2 |x|)] for a non-zero [x]: the estimate from the bit lengths
    of numerator and denominator is right or one too large. *)
Definition ilog2 (x : Q) : Z :=
  let e := (Z.log2 (Z.abs (Qnum x)) - Z.log2 (Zpos (Qden x)))%Z in
  if Qle_bool (2 ^ e) (Qabs x) then e else (e - 1)%Z.

(** The spacing of the binary64 values around [x]: 53 significant bits, and
    2^-1074 throughout the subnormal range. *)
Definition ulp (x : Q) : Q := 2 ^ Z.max (ilog2 x - 52) (-1074).

(** The multiple of the spacing nearest to a positive [x], ties to the even
    multiple. *)
Definition nearest (x : Q) : Q :=
  inject_Z (Py.round_half_even (x / ulp x)) * ulp x.

(** Rounding to nearest, ties to even, the rounding of every binary64
    operation; it is symmetric in the sign. *)
Definition rnd (x : Q) : Q :=
  match Qcompare x 0 with
  | Eq => 0
  | Gt => Qred (nearest x)
  | Lt => Qred (- nearest (- x))
  end.

(** A decimal literal, and an [int] where a [float] is needed. *)
Definition lit (x : Q) : Q := rnd x.

(** [a + b], [a - b], [a * b], [a / b] on floats: the exact result, rounded. *)
Definition add (a b : Q) : Q := rnd (a + b).
Definition sub (a b : Q) : Q := rnd (a - b).
Definition mul (a b : Q) : Q := rnd (a * b).
Definition div (a b : Q) : Q := rnd (a / b).

(** [round(x, ndigits)] on a float: the decimal nearest to the value of [x]
    (ties to the even digit), then the float nearest to that decimal. *)
Definition round (x : Q) (ndigits : nat) : Q := rnd (Py.round x ndigits).

(** The values a binary64 can hold. *)
Definition is_float (x : Q) : Prop := rnd x == x.

(** [float(n)] raises [OverflowError] on an integer that rounds to 2^1024
    or beyond. *)
Definition overflows (x : Q) : bool :=
  Qle_bool (inject_Z (2 ^ 1024 - 2 ^ 970)) (Qabs x).

(** *** Powers of two *)

Lemma pow2_pos (e : Z) : 0 < 2 ^ e.
Proof. apply Qpower_0_lt. reflexivity. Qed.

Lemma pow2_add (a b : Z) : 2 ^ (a + b) == 2 ^ a * 2 ^ b.
Proof. apply Qpower_plus. discriminate. Qed.

Lemma pow2_le (a b : Z) : (a <= b)%Z -> 2 ^ a <= 2 ^ b.
Proof. intros H. apply Qpower_le_compat_l; [exact H | discriminate]. Qed.

Lemma pow2_lt (a b : Z) : (a < b)%Z -> 2 ^ a < 2 ^ b.
Proof. intros H. apply Qpower_lt_compat_l; [exact H | reflexivity]. Qed.

Lemma pow2_lt_inv (a b : Z) : 2 ^ a < 2 ^ b -> (a < b)%Z.
Proof.
  intros H. destruct (Z_lt_le_dec a b) as [L|L]; [exact L|].
  apply pow2_le in L. exfalso. apply (Qlt_irrefl (2 ^ a)).
  eapply Qlt_le_trans; eassumption.
Qed.

Lemma pow2_succ (a : Z) : 2 ^ (a + 1) == 2 * 2 ^ a.
Proof. rewrite pow2_add. change (2 ^ 1) with 2. ring. Qed.

Lemma pow2_inject (n : Z) : (0 <= n)%Z -> inject_Z (2 ^ n) == 2 ^ n.
Proof. intros H. apply (Zpower_Qpower 2 n H). Qed.

(** *** The exponent *)

Lemma ilog2_spec (x : Q) :
  ~ x == 0 -> 2 ^ ilog2 x <= Qabs x /\ Qabs x < 2 ^ (ilog2 x + 1).
Proof.
  intros Hx. unfold ilog2.
  set (a := Z.abs (Qnum x)). set (d := Zpos (Qden x)).
  assert (Ha : (0 < a)%Z).
  { unfold a. destruct x as [n p]. simpl.
    assert (n <> 0%Z); [|lia].
    intros ->. apply Hx. reflexivity. }
  assert (Hd : (0 < d)%Z) by (unfold d; lia).
  assert (Habs : Qabs x == inject_Z a / inject_Z d).
  { unfold a, d. destruct x as [n p]. simpl.
    unfold Qeq, Qdiv, Qmult, Qinv, inject_Z. simpl. lia. }
  destruct (Z.log2_spec a Ha) as [La Ua].
  destruct (Z.log2_spec d Hd) as [Ld Ud].
  assert (Hla := Z.log2_nonneg a). assert (Hld := Z.log2_nonneg d).
  set (la := Z.log2 a) in *. set (ld := Z.log2 d) in *.
  rewrite Zle_Qle, pow2_inject in La, Ld by assumption.
  rewrite Zlt_Qlt, pow2_inject in Ua, Ud by lia.
  unfold Z.succ in Ua, Ud. rewrite pow2_succ in Ua, Ud.
  assert (HA := pow2_pos la). assert (HD := pow2_pos ld).
  assert (Hsplit : 2 ^ (la - ld) * 2 ^ ld == 2 ^ la).
  { rewrite <- pow2_add. now replace (la - ld + ld)%Z with la by lia. }
  assert (HE := pow2_pos (la - ld)).
  assert (Hq : inject_Z a == Qabs x * inject_Z d).
  { rewrite Habs. field. intros E. rewrite E in Ld. lra. }
  assert (Hdq : 0 < inject_Z d) by lra.
  destruct (Qle_bool (2 ^ (la - ld)) (Qabs x)) eqn:T.
  - apply Qle_bool_iff in T. split; [exact T|].
    rewrite pow2_succ.
    revert Hq La Ua Ld Ud HA HD Hsplit HE Hdq.
    generalize (inject_Z a) (inject_Z d) (Qabs x) (2 ^ la) (2 ^ ld)
      (2 ^ (la - ld)). intros qa qd ax A D E. intros. nra.
  - assert (T' : Qabs x < 2 ^ (la - ld)).
    { apply Qnot_le_lt. intros C. apply Qle_bool_iff in C. congruence. }
    replace (la - ld - 1 + 1)%Z with (la - ld)%Z by lia.
    split; [|exact T'].
    assert (Hp : 2 ^ (la - ld) == 2 * 2 ^ (la - ld - 1)).
    { rewrite <- pow2_succ. now replace (la - ld - 1 + 1)%Z with (la - ld)%Z by lia. }
    assert (HE' := pow2_pos (la - ld - 1)).
    revert Hq La Ua Ld Ud HA HD Hsplit HE Hdq Hp HE'.
    generalize (inject_Z a) (inject_Z d) (Qabs x) (2 ^ la) (2 ^ ld)
      (2 ^ (la - ld)) (2 ^ (la - ld - 1)). intros qa qd ax A D E E'. intros. nra.
Qed.

Lemma ilog2_unique (x : Q) (e : Z) :
  2 ^ e <= Qabs x -> Qabs x < 2 ^ (e + 1) -> ilog2 x = e.
Proof.
  intros L U.
  assert (Hx : ~ x == 0).
  { intros E. rewrite E in L. assert (H := pow2_pos e).
    change (Qabs 0) with 0 in L. lra. }
  destruct (ilog2_spec x Hx) as [L' U'].
  assert (H1 : (e < ilog2 x + 1)%Z)
    by (apply pow2_lt_inv; eapply Qle_lt_trans; eassumption).
  assert (H2 : (ilog2 x < e + 1)%Z)
    by (apply pow2_lt_inv; eapply Qle_lt_trans; eassumption).
  lia.
Qed.

Lemma ilog2_comp (x y : Q) : x == y -> ~ x == 0 -> ilog2 x = ilog2 y.
Proof.
  intros E Hx. symmetry.
  destruct (ilog2_spec x Hx) as [L U].
  apply ilog2_unique; rewrite <- E; assumption.
Qed.

Lemma ulp_pos (x : Q) : 0 < ulp x.
Proof. apply pow2_pos. Qed.

Lemma ulp_comp (x y : Q) : x == y -> ~ x == 0 -> ulp x = ulp y.
Proof. intros E Hx. unfold ulp. now rewrite (ilog2_comp x y E Hx). Qed.

Lemma nearest_comp (x y : Q) : x == y -> ~ x == 0 -> nearest x == nearest y.
Proof.
  intros E Hx. unfold nearest. rewrite (ulp_comp x y E Hx).
  assert (H : x / ulp y == y / ulp y) by (rewrite E; reflexivity).
  now rewrite (Py.round_half_even_proper _ _ H).
Qed.

(** Equal rationals round to the same binary64 value, in lowest terms. *)
#[export] Instance rnd_proper : Proper (Qeq ==> eq) rnd.
Proof.
  intros x y E. unfold rnd.
  assert (Hc : (x ?= 0) = (y ?= 0))
    by (apply Qcompare_comp; [exact E | reflexivity]).
  rewrite <- Hc.
  destruct (Qcompare_spec x 0) as [C|C|C]; [reflexivity| |].
  - apply Qred_complete. apply Qopp_comp. apply nearest_comp.
    + now rewrite E.
    + intros Z0. lra.
  - apply Qred_complete. apply nearest_comp; [exact E|]. intros Z0. lra.
Qed.

(** *** Rounding onto a grid *)

Lemma round_half_even_int (n : Z) : Py.round_half_even (inject_Z n) = n.
Proof.
  unfold Py.round_half_even. rewrite Qfloor_Z.
  assert (E : Qcompare (inject_Z n - inject_Z n) (1 # 2) = Lt).
  { rewrite <- Qlt_alt. unfold Qminus. rewrite Qplus_opp_r. reflexivity. }
  now rewrite E.
Qed.

Lemma grid_le (x u : Q) (m : Z) :
  0 < u -> x <= inject_Z m * u ->
  inject_Z (Py.round_half_even (x / u)) * u <= inject_Z m * u.
Proof.
  intros Hu H. apply Qmult_le_compat_r; [|lra].
  rewrite <- Zle_Qle. rewrite <- (round_half_even_int m).
  apply PyFacts.round_half_even_mono.
  apply Qle_shift_div_r; assumption.
Qed.

Lemma grid_ge (x u : Q) (m : Z) :
  0 < u -> inject_Z m * u <= x ->
  inject_Z m * u <= inject_Z (Py.round_half_even (x / u)) * u.
Proof.
  intros Hu H. apply Qmult_le_compat_r; [|lra].
  rewrite <- Zle_Qle. rewrite <- (round_half_even_int m) at 1.
  apply PyFacts.round_half_even_mono.
  apply Qle_shift_div_l; assumption.
Qed.

Lemma grid_near (x u : Q) :
  0 < u ->
  - (u / 2) <= x - inject_Z (Py.round_half_even (x / u)) * u <= u / 2.
Proof.
  intros Hu. assert (H := Py.round_half_even_near (x / u)).
  assert (E : x == x / u * u) by (field; lra).
  revert H E. generalize (inject_Z (Py.round_half_even (x / u))).
  generalize (x / u). intros q r H E.
  assert (H1 : (q - r) * u <= (1 # 2) * u)
    by (apply Qmult_le_compat_r; lra).
  assert (H2 : - (1 # 2) * u <= (q - r) * u)
    by (apply Qmult_le_compat_r; lra).
  assert (Hu2 : u / 2 == u * (1 # 2)) by (unfold Qdiv; reflexivity).
  rewrite Hu2, E. split; lra.
Qed.

(** A power of two that is at least the spacing is on the grid. *)
Lemma pow2_on_grid (e q : Z) :
  (q <= e)%Z -> 2 ^ e == inject_Z (2 ^ (e - q)) * 2 ^ q.
Proof.
  intros H. rewrite pow2_inject by lia. rewrite <- pow2_add.
  now replace (e - q + q)%Z with e by lia.
Qed.

(** *** Rounding keeps the order *)

Lemma Qabs_pos_eq (x : Q) : 0 < x -> Qabs x == x.
Proof. intros H. apply Qabs_pos. lra. Qed.

Lemma nearest_nonneg (x : Q) : 0 < x -> 0 <= nearest x.
Proof.
  intros Hx. unfold nearest.
  assert (H := grid_ge x (ulp x) 0 (ulp_pos x)).
  change (inject_Z 0) with 0 in H. rewrite Qmult_0_l in H. apply H. lra.
Qed.

Lemma nearest_mono (x y : Q) : 0 < x -> x <= y -> nearest x <= nearest y.
Proof.
  intros Hx Hxy.
  assert (Hy : 0 < y) by lra.
  assert (Nx : ~ x == 0) by (intros E; lra).
  assert (Ny : ~ y == 0) by (intros E; lra).
  destruct (ilog2_spec x Nx) as [Lx Ux]. destruct (ilog2_spec y Ny) as [Ly Uy].
  rewrite (Qabs_pos_eq x Hx) in Lx, Ux. rewrite (Qabs_pos_eq y Hy) in Ly, Uy.
  unfold nearest, ulp.
  set (ex := ilog2 x) in *. set (ey := ilog2 y) in *.
  assert (Hexy : (ex <= ey)%Z).
  { assert (ex < ey + 1)%Z; [|lia]. apply pow2_lt_inv. lra. }
  set (qx := Z.max (ex - 52) (-1074)). set (qy := Z.max (ey - 52) (-1074)).
  destruct (Z.eq_dec qx qy) as [Q|Q].
  - rewrite Q. apply Qmult_le_compat_r; [|apply Qlt_le_weak, pow2_pos].
    rewrite <- Zle_Qle. apply PyFacts.round_half_even_mono.
    apply Qmult_le_compat_r; [exact Hxy|].
    apply Qlt_le_weak, Qinv_lt_0_compat, pow2_pos.
  - assert (Hq : (qx < qy)%Z) by lia.
    assert (Hqy : qy = (ey - 52)%Z) by lia.
    assert (Hlt : (ex < ey)%Z) by lia.
    assert (Hb : 2 ^ (ex + 1) <= 2 ^ ey) by (apply pow2_le; lia).
    apply Qle_trans with (2 ^ ey).
    + rewrite (pow2_on_grid ey qx) by lia.
      apply grid_le; [apply pow2_pos|].
      rewrite <- pow2_on_grid by lia. lra.
    + rewrite (pow2_on_grid ey qy) at 1 by lia.
      apply grid_ge; [apply pow2_pos|].
      rewrite <- pow2_on_grid by lia. lra.
Qed.

Lemma rnd_0 : rnd 0 = 0.
Proof. reflexivity. Qed.

Lemma rnd_pos (x : Q) : 0 < x -> rnd x == nearest x.
Proof.
  intros H. unfold rnd.
  destruct (Qcompare_spec x 0) as [C|C|C]; [lra | lra | apply Qred_correct].
Qed.

Lemma rnd_neg (x : Q) : x < 0 -> rnd x == - nearest (- x).
Proof.
  intros H. unfold rnd.
  destruct (Qcompare_spec x 0) as [C|C|C]; [lra | apply Qred_correct | lra].
Qed.

Lemma rnd_opp (x : Q) : rnd (- x) == - rnd x.
Proof.
  destruct (Qcompare_spec x 0) as [C|C|C].
  - rewrite (rnd_proper x 0 C).
    assert (E : - x == 0) by (rewrite C; reflexivity).
    rewrite (rnd_proper (- x) 0 E). reflexivity.
  - rewrite (rnd_neg x C). rewrite rnd_pos by lra. ring.
  - rewrite (rnd_pos x C). rewrite rnd_neg by lra.
    assert (E : - - x == x) by ring.
    rewrite (nearest_comp (- - x) x E); [reflexivity|].
    intros Z0. lra.
Qed.

(** Rounding to nearest is monotone. *)
Lemma rnd_mono (x y : Q) : x <= y -> rnd x <= rnd y.
Proof.
  intros H.
  destruct (Qcompare_spec x 0) as [Cx|Cx|Cx];
    destruct (Qcompare_spec y 0) as [Cy|Cy|Cy]; try lra.
  - rewrite (rnd_proper x 0 Cx), (rnd_proper y 0 Cy). apply Qle_refl.
  - rewrite (rnd_proper x 0 Cx), (rnd_pos y Cy). apply nearest_nonneg, Cy.
  - rewrite (rnd_neg x Cx), (rnd_proper y 0 Cy).
    assert (N := nearest_nonneg (- x)). change (rnd 0) with 0. lra.
  - rewrite (rnd_neg x Cx), (rnd_neg y Cy).
    assert (N := nearest_mono (- y) (- x)). lra.
  - rewrite (rnd_neg x Cx), (rnd_pos y Cy).
    assert (N := nearest_nonneg (- x)). assert (N' := nearest_nonneg y). lra.
  - rewrite (rnd_pos x Cx), (rnd_pos y Cy). now apply nearest_mono.
Qed.

Lemma rnd_nonneg (x : Q) : 0 <= x -> 0 <= rnd x.
Proof. intros H. apply (rnd_mono 0 x H). Qed.

Lemma rnd_nonpos (x : Q) : x <= 0 -> rnd x <= 0.
Proof. intros H. apply (rnd_mono x 0 H). Qed.

(** *** Rounding error *)

(** Below 2^k a value moves by at most 2^(k-54), half the spacing of the
    binade under 2^k. *)
Lemma rnd_near (x : Q) (k : Z) :
  (-1021 <= k)%Z -> Qabs x < 2 ^ k -> Qabs (rnd x - x) <= 2 ^ (k - 54).
Proof.
  intros Hk Hx.
  assert (Hpos : forall z, 0 < z -> z < 2 ^ k ->
                 Qabs (nearest z - z) <= 2 ^ (k - 54)).
  { intros z Hz Hzk.
    assert (Nz : ~ z == 0) by (intros E; lra).
    destruct (ilog2_spec z Nz) as [Lz _]. rewrite (Qabs_pos_eq z Hz) in Lz.
    assert (He : (ilog2 z < k)%Z) by (apply pow2_lt_inv; lra).
    assert (Hu : ulp z <= 2 ^ (k - 53)) by (apply pow2_le; lia).
    assert (Hh : 2 ^ (k - 53) == 2 * 2 ^ (k - 54)).
    { rewrite <- pow2_succ. now replace (k - 54 + 1)%Z with (k - 53)%Z by lia. }
    assert (G := grid_near z (ulp z) (ulp_pos z)).
    unfold nearest. apply Qabs_Qle_condition.
    revert G Hu Hh.
    generalize (inject_Z (Py.round_half_even (z / ulp z)) * ulp z).
    generalize (ulp z) (2 ^ (k - 53)) (2 ^ (k - 54)).
    intros u a b n G Hu Hh.
    assert (Hu2 : u / 2 == u * (1 # 2)) by (unfold Qdiv; reflexivity).
    rewrite Hu2 in G. lra. }
  destruct (Qcompare_spec x 0) as [C|C|C].
  - rewrite (rnd_proper x 0 C), C. change (Qabs (rnd 0 - 0)) with 0.
    apply Qlt_le_weak, pow2_pos.
  - rewrite (rnd_neg x C).
    assert (Ha : Qabs x == - x) by (apply Qabs_neg; lra).
    specialize (Hpos (- x)). rewrite Ha in Hx.
    assert (E : - nearest (- x) - x == - (nearest (- x) - - x)) by ring.
    rewrite E, Qabs_opp. apply Hpos; lra.
  - rewrite (rnd_pos x C). rewrite (Qabs_pos_eq x C) in Hx. now apply Hpos.
Qed.

(** In the normal range the error is at most 2^-53 of the value. *)
Lemma rnd_rel (x : Q) :
  2 ^ (-1022) <= Qabs x -> Qabs (rnd x - x) <= 2 ^ (-53) * Qabs x.
Proof.
  intros Hx.
  assert (Nx : ~ x == 0).
  { intros E. rewrite E in Hx. assert (H := pow2_pos (-1022)).
    change (Qabs 0) with 0 in Hx. lra. }
  destruct (ilog2_spec x Nx) as [L U].
  assert (He : (-1022 <= ilog2 x)%Z).
  { assert (-1022 < ilog2 x + 1)%Z; [|lia]. apply pow2_lt_inv.
    eapply Qle_lt_trans; eassumption. }
  apply Qle_trans with (2 ^ (ilog2 x + 1 - 54)); [apply rnd_near; [lia | exact U]|].
  replace (ilog2 x + 1 - 54)%Z with (-53 + ilog2 x)%Z by lia.
  rewrite pow2_add. apply Qmult_le_l; [apply pow2_pos | exact L].
Qed.

(** Integers of fewer than 54 bits are binary64 values. *)
Lemma rnd_int (n : Z) :
  (Z.abs n < 2 ^ 53)%Z -> rnd (inject_Z n) == inject_Z n.
Proof.
  assert (Hpos : forall m, (0 < m < 2 ^ 53)%Z ->
                 nearest (inject_Z m) == inject_Z m).
  { intros m Hm.
    assert (Hz : 0 < inject_Z m) by (change 0 with (inject_Z 0); rewrite <- Zlt_Qlt; lia).
    assert (Nz : ~ inject_Z m == 0) by (intros E; lra).
    destruct (ilog2_spec _ Nz) as [L U]. rewrite (Qabs_pos_eq _ Hz) in L, U.
    assert (H53 : inject_Z m < 2 ^ 53).
    { rewrite <- (pow2_inject 53) by lia. rewrite <- Zlt_Qlt. lia. }
    assert (H1 : 2 ^ 0 <= inject_Z m).
    { change (2 ^ 0) with (inject_Z 1). rewrite <- Zle_Qle. lia. }
    assert (He : (0 <= ilog2 (inject_Z m) < 53)%Z).
    { split.
      - assert (0 < ilog2 (inject_Z m) + 1)%Z; [|lia]. apply pow2_lt_inv. lra.
      - apply pow2_lt_inv. lra. }
    unfold nearest, ulp. set (e := ilog2 (inject_Z m)) in *.
    replace (Z.max (e - 52) (-1074)) with (e - 52)%Z by lia.
    assert (Hq : inject_Z m / 2 ^ (e - 52) == inject_Z (m * 2 ^ (52 - e))).
    { rewrite inject_Z_mult, pow2_inject by lia.
      assert (P : 2 ^ (52 - e) * 2 ^ (e - 52) == 1).
      { rewrite <- pow2_add. now replace (52 - e + (e - 52))%Z with 0%Z by lia. }
      assert (P' := pow2_pos (e - 52)).
      revert P P'. generalize (2 ^ (52 - e)) (2 ^ (e - 52)). intros a b P P'.
      apply Qmult_inj_r with b; [lra|].
      unfold Qdiv. rewrite <- Qmult_assoc, (Qmult_comm (/ b)), Qmult_inv_r by lra.
      rewrite <- Qmult_assoc, P. ring. }
    rewrite (Py.round_half_even_proper _ _ Hq), round_half_even_int.
    rewrite inject_Z_mult, pow2_inject by lia.
    rewrite <- Qmult_assoc, <- pow2_add.
    replace (52 - e + (e - 52))%Z with 0%Z by lia. change (2 ^ 0) with 1. ring. }
  intros Hn. destruct (Z.compare_spec n 0) as [C|C|C].
  - subst n. reflexivity.
  - assert (Hz : inject_Z n < 0) by (change 0 with (inject_Z 0); rewrite <- Zlt_Qlt; lia).
    rewrite (rnd_neg _ Hz).
    assert (E : - inject_Z n == inject_Z (- n)) by (rewrite inject_Z_opp; reflexivity).
    rewrite (nearest_comp _ _ E) by (intros Z0; lra).
    rewrite Hpos by lia. rewrite inject_Z_opp. ring.
  - assert (Hz : 0 < inject_Z n) by (change 0 with (inject_Z 0); rewrite <- Zlt_Qlt; lia).
    rewrite (rnd_pos _ Hz). apply Hpos. lia.
Qed.

(** *** The operations *)

Lemma round_monotone (x y : Q) (n : nat) : x <= y -> round x n <= round y n.
Proof. intros H. apply rnd_mono, PyFacts.round_mono, H. Qed.

#[export] Instance round_comp : Proper (Qeq ==> eq ==> eq) round.
Proof.
  intros x y E n ? <-. unfold round. apply rnd_proper.
  now apply Py.round_proper.
Qed.

Lemma add_mono (a b c d : Q) : a <= c -> b <= d -> add a b <= add c d.
Proof. intros H1 H2. apply rnd_mono. lra. Qed.

Lemma mul_mono (a b c : Q) : 0 <= c -> a <= b -> mul a c <= mul b c.
Proof. intros H1 H2. apply rnd_mono. nra. Qed.

(** *** Some values

    The float written [0.1]; [0.1 + 0.2], which is not the float written
    [0.3]; 2^53 + 1, a tie that goes to the even neighbour 2^53; half the
    smallest subnormal, a tie that goes to 0; and [round(2.675, 2)], which
    is 2.67 because the float written [2.675] lies below that decimal. *)
Example rnd_examples :
  lit 0.1 = 3602879701896397 # 36028797018963968 /\
  add (lit 0.1) (lit 0.2) = 1351079888211149 # 4503599627370496 /\
  lit 0.3 = 5404319552844595 # 18014398509481984 /\
  rnd (inject_Z (2 ^ 53 + 1)) == inject_Z (2 ^ 53) /\
  rnd (inject_Z (2 ^ 53 + 3)) == inject_Z (2 ^ 53 + 4) /\
  rnd (2 ^ (-1075)) == 0 /\ rnd (3 * 2 ^ (-1075)) == 2 ^ (-1073) /\
  round (lit 2.675) 2 = lit 2.67 /\ Py.round 2.675 2 == 2.68.
Proof. vm_compute. repeat split. Qed.

End F64.

(* ===================================================================== *)
(** ** json.dumps(obj, sort_keys=True, default=str)                       *)
(* ===================================================================== *)

Module Json.

#[local] Open Scope string_scope.
#[local] Open Scope list_scope.
#[local] Set Warnings "-register-all".

(** The values an event payload is built from.  Dictionaries keep their
    insertion order and have string keys; [Float] carries the text
    [float.__repr__] prints; [Other] is any object the encoder does not know,
    carried by the text [str] gives for it (what [default=str] substitutes). *)
Inductive value : Set :=
  | Null
  | Boolean (b : bool)
  | Int (n : Z)
  | Float (repr : string)
  | Str (s : string)
  | Arr (l : list value)
  | Obj (items : list (string * value))
  | Other (str : string).

Definition dquote : string := String (ascii_of_nat 34) EmptyString.

Definition hex_digit (n : nat) : ascii :=
  ascii_of_nat (if (n <? 10)%nat then 48 + n else 87 + n).

(** Two lower-case hexadecimal digits of a code point below 256. *)
Definition hex2 (n : nat) : string :=
  String (hex_digit (n / 16)) (String (hex_digit (n mod 16)) EmptyString).

(** [ensure_ascii] escaping of one character. *)
Definition escape_char (c : ascii) : string :=
  let n := nat_of_ascii c in
  if (n =? 34)%nat then "\" ++ dquote
  else if (n =? 92)%nat then "\\"
  else if (n =? 10)%nat then "\n"
  else if (n =? 13)%nat then "\r"
  else if (n =? 9)%nat then "\t"
  else if (n =? 8)%nat then "\b"
  else if (n =? 12)%nat then "\f"
  else if ((n <? 32) || (126 <? n))%nat then "\u00" ++ hex2 n
  else String c EmptyString.

Fixpoint escape (s : string) : string :=
  match s with
  | EmptyString => EmptyString
  | String c s' => (escape_char c ++ escape s')%string
  end.

(** A JSON string literal. *)
Definition encode_str (s : string) : string := (dquote ++ escape s ++ dquote)%string.

(** [sep.join(l)] *)
Fixpoint join (sep : string) (l : list string) : string :=
  match l with
  | [] => EmptyString
  | [x] => x
  | x :: rest => (x ++ sep ++ join sep rest)%string
  end.

(** [sorted(dct.items())]: keys are distinct, so items are ordered by key. *)
Fixpoint insert_item {A : Type} (kv : string * A) (l : list (string * A))
    : list (string * A) :=
  match l with
  | [] => [kv]
  | x :: rest =>
      if String.leb (fst kv) (fst x) then kv :: l
      else x :: insert_item kv rest
  end.

Definition sort_items {A : Type} (l : list (string * A)) : list (string * A) :=
  foldr insert_item [] l.

(** The encoder.  Values are rendered before the items are put in key order;
    rendering is pure, so the text is the one Python produces. *)
Fixpoint dumps (v : value) : string :=
  match v with
  | Null => "null"
  | Boolean b => if b then "true" else "false"
  | Int n => NilZero.string_of_int (Z.to_int n)
  | Float r => r
  | Str s => encode_str s
  | Arr l => ("[" ++ join ", " (map dumps l) ++ "]")%string
  | Obj items =>
      let rendered := map (fun kv => let '(k, x) := kv in (k, dumps x)) items in
      ("{" ++ join ", "
                (map (fun kv => (encode_str (fst kv) ++ ": " ++ snd kv)%string)
                     (sort_items rendered))
           ++ "}")%string
  | Other s => encode_str s
  end.

(** *** Key order does not depend on insertion order *)

Lemma ascii_compare_trans (a b c : ascii) (o : comparison) :
  Ascii.compare a b = o -> Ascii.compare b c = o -> Ascii.compare a c = o.
Proof.
  unfold Ascii.compare.
  destruct o; rewrite ?N.compare_eq_iff, ?N.compare_lt_iff, ?N.compare_gt_iff;
    intros; lia.
Qed.

Lemma compare_lt_trans (a b c : string) :
  String.compare a b = Lt -> String.compare b c = Lt -> String.compare a c = Lt.
Proof.
  revert b c. induction a as [|x a IH]; intros [|y b] [|z c]; simpl;
    try discriminate; try reflexivity.
  destruct (Ascii.compare x y) eqn:Exy; try discriminate;
    destruct (Ascii.compare y z) eqn:Eyz; try discriminate; intros H1 H2.
  - rewrite (ascii_compare_trans x y z Eq Exy Eyz). eauto.
  - apply Ascii.compare_eq_iff in Exy. subst. now rewrite Eyz.
  - apply Ascii.compare_eq_iff in Eyz. subst. now rewrite Exy.
  - now rewrite (ascii_compare_trans x y z Lt Exy Eyz).
Qed.

Lemma leb_trans (a b c : string) :
  String.leb a b = true -> String.leb b c = true -> String.leb a c = true.
Proof.
  unfold String.leb.
  destruct (String.compare a b) eqn:Eab; try discriminate;
    destruct (String.compare b c) eqn:Ebc; try discriminate; intros _ _.
  - apply String.compare_eq_iff in Eab, Ebc. subst.
    pose proof (String.compare_antisym c c) as Ha.
    destruct (String.compare c c); try reflexivity; discriminate Ha.
  - apply String.compare_eq_iff in Eab. subst. now rewrite Ebc.
  - apply String.compare_eq_iff in Ebc. subst. now rewrite Eab.
  - now rewrite (compare_lt_trans a b c Eab Ebc).
Qed.

Definition key_le {A : Type} (x y : string * A) : Prop :=
  String.leb (fst x) (fst y) = true.

Lemma insert_item_perm {A : Type} (kv : string * A) (l : list (string * A)) :
  insert_item kv l ≡ₚ kv :: l.
Proof.
  induction l as [|x rest IH]; simpl; [reflexivity|].
  destruct (String.leb (fst kv) (fst x)); [reflexivity|].
  rewrite IH. apply Permutation_swap.
Qed.

Lemma sort_items_perm {A : Type} (l : list (string * A)) : sort_items l ≡ₚ l.
Proof.
  induction l as [|x rest IH]; simpl; [reflexivity|].
  now rewrite insert_item_perm, IH.
Qed.

Lemma insert_item_sorted {A : Type} (kv : string * A) (l : list (string * A)) :
  StronglySorted key_le l -> StronglySorted key_le (insert_item kv l).
Proof.
  induction 1 as [|x rest Hs IH Hall]; simpl.
  - repeat constructor.
  - destruct (String.leb (fst kv) (fst x)) eqn:E.
    + constructor; [now constructor|].
      constructor; [exact E|].
      eapply Forall_impl; [exact Hall|].
      intros y Hy. unfold key_le in *. eapply leb_trans; eauto.
    + constructor; [exact IH|].
      rewrite insert_item_perm. constructor; [|exact Hall].
      unfold key_le. destruct (String.leb_total (fst kv) (fst x)); congruence.
Qed.

Lemma sort_items_sorted {A : Type} (l : list (string * A)) :
  StronglySorted key_le (sort_items l).
Proof.
  induction l; simpl; [constructor | now apply insert_item_sorted].
Qed.

(** Two key-sorted lists with the same items and distinct keys coincide. *)
Lemma sorted_items_unique {A : Type} (l1 l2 : list (string * A)) :
  StronglySorted key_le l1 -> StronglySorted key_le l2 ->
  NoDup (map fst l1) -> l1 ≡ₚ l2 -> l1 = l2.
Proof.
  intros S1. revert l2. induction S1 as [|x1 r1 S1 IH H1]; intros l2 S2 Hnd Hp.
  - now apply Permutation_nil_l in Hp.
  - destruct S2 as [|x2 r2 S2 H2];
      [now apply Permutation_nil_r in Hp|].
    assert (Hx : x1 = x2).
    { assert (In2 : x1 ∈ x2 :: r2) by (rewrite <- Hp; apply list_elem_of_here).
      assert (In1 : x2 ∈ x1 :: r1) by (rewrite Hp; apply list_elem_of_here).
      apply elem_of_cons in In2 as [?|In2]; [assumption|].
      apply elem_of_cons in In1 as [?|In1]; [congruence|].
      rewrite Forall_forall in H1, H2.
      assert (K : fst x1 = fst x2)
        by (apply String.leb_antisym; [apply (H1 _ In1) | apply (H2 _ In2)]).
      simpl in Hnd. apply NoDup_cons in Hnd as [Hnotin _].
      exfalso. apply Hnotin. rewrite K.
      apply list_elem_of_fmap. now exists x2. }
    subst x2. f_equal. apply IH; [exact S2 | |].
    + simpl in Hnd. now apply NoDup_cons in Hnd as [_ ?].
    + now apply Permutation_cons_inv in Hp.
Qed.

Lemma sort_items_order_irrelevant {A : Type} (l1 l2 : list (string * A)) :
  NoDup (map fst l1) -> l1 ≡ₚ l2 -> sort_items l1 = sort_items l2.
Proof.
  intros Hnd Hp. apply sorted_items_unique; try apply sort_items_sorted.
  - now rewrite sort_items_perm.
  - now rewrite !sort_items_perm.
Qed.

(** A dictionary serialises to the same text whatever order its keys were
    inserted in. *)
Lemma dumps_order_irrelevant (items1 items2 : list (string * value)) :
  NoDup (map fst items1) -> items1 ≡ₚ items2 ->
  dumps (Obj items1) = dumps (Obj items2).
Proof.
  intros Hnd Hp. simpl. do 4 f_equal.
  apply sort_items_order_irrelevant.
  - rewrite map_map.
    erewrite map_ext; [exact Hnd|]. now intros [k x].
  - now apply Permutation_map.
Qed.

End Json.

(* ===================================================================== *)
(** ** hashlib.sha256 and hmac.new(key, msg, hashlib.sha256)              *)
(* ===================================================================== *)

Module Sha256.

#[local] Open Scope N_scope.
#[local] Open Scope list_scope.

(** 32-bit words are naturals below 2^32; bytes are naturals below 256. *)
Definition mask32 : N := 0xffffffff.

Definition add32 (a b : N) : N := N.land (a + b) mask32.

Definition rotr (n x : N) : N :=
  N.lor (N.shiftr x n) (N.land (N.shiftl x (32 - n)) mask32).

Definition not32 (x : N) : N := N.lxor x mask32.

Definition Ch (x y z : N) : N := N.lxor (N.land x y) (N.land (not32 x) z).

Definition Maj (x y z : N) : N :=
  N.lxor (N.lxor (N.land x y) (N.land x z)) (N.land y z).

Definition Sigma0 (x : N) : N :=
  N.lxor (N.lxor (rotr 2 x) (rotr 13 x)) (rotr 22 x).

Definition Sigma1 (x : N) : N :=
  N.lxor (N.lxor (rotr 6 x) (rotr 11 x)) (rotr 25 x).

Definition sigma0 (x : N) : N :=
  N.lxor (N.lxor (rotr 7 x) (rotr 18 x)) (N.shiftr x 3).

Definition sigma1 (x : N) : N :=
  N.lxor (N.lxor (rotr 17 x) (rotr 19 x)) (N.shiftr x 10).

(** The primes up to 311: the first 64. *)
Fixpoint sieve (fuel : nat) (k : N) (found : list N) : list N :=
  match fuel with
  | O => found
  | S fuel' =>
      if forallb (fun p => negb (k mod p =? 0)) found
      then sieve fuel' (k + 1) (found ++ [k])
      else sieve fuel' (k + 1) found
  end.

Definition primes : list N := sieve 310 2 [].

(** Integer cube root, one bit at a time from bit 39 down. *)
Definition cube_root (n : N) : N :=
  fold_left (fun r i => let r' := r + 2 ^ i in
                        if r' * r' * r' <=? n then r' else r)
            (rev (map N.of_nat (seq 0 40))) 0.

(** The round constants: the first 32 bits of the fractional parts of the
    cube roots of the first 64 primes. *)
Definition K : list N :=
  Eval vm_compute in
    map (fun p => N.land (cube_root (p * 2 ^ 96)) mask32) primes.

(** The initial hash value: the same of the square roots of the first 8. *)
Definition H0 : list N :=
  Eval vm_compute in
    map (fun p => N.land (N.sqrt (p * 2 ^ 64)) mask32) (take 8 primes).

(** Big-endian bytes of a number, [n] of them. *)
Fixpoint be_bytes (n : nat) (x : N) : list N :=
  match n with
  | O => []
  | S n' => N.land (N.shiftr x (8 * N.of_nat n')) 0xff :: be_bytes n' x
  end.

Definition be_word (bytes : list N) : N :=
  fold_left (fun acc b => N.lor (N.shiftl acc 8) b) bytes 0.

(** The message, a 1 bit, zero bits up to 56 modulo 64 bytes, and the bit
    length on 8 bytes. *)
Definition pad (msg : list N) : list N :=
  let len := length msg in
  let zeros := ((64 + 56 - (len + 1) mod 64) mod 64)%nat in
  msg ++ [0x80] ++ repeat 0 zeros ++ be_bytes 8 (8 * N.of_nat len).

Fixpoint chunks (n size : nat) (l : list N) : list (list N) :=
  match n with
  | O => []
  | S n' => take size l :: chunks n' size (drop size l)
  end.

(** Words 16..63 of the message schedule, from the sliding window of the 16
    words before. *)
Fixpoint schedule (n : nat) (window : list N) : list N :=
  match n with
  | O => []
  | S n' =>
      let w i := nth i window 0 in
      let new := add32 (add32 (add32 (sigma1 (w 14%nat)) (w 9%nat))
                              (sigma0 (w 1%nat))) (w 0%nat) in
      new :: schedule n' (drop 1 window ++ [new])
  end.

Definition round (st : list N) (kw : N * N) : list N :=
  match st with
  | [a; b; c; d; e; f; g; h] =>
      let T1 := add32 (add32 (add32 (add32 h (Sigma1 e)) (Ch e f g)) (fst kw))
                      (snd kw) in
      let T2 := add32 (Sigma0 a) (Maj a b c) in
      [add32 T1 T2; a; b; c; add32 d T1; e; f; g]
  | _ => st
  end.

Definition compress (h : list N) (block : list N) : list N :=
  let w16 := map be_word (chunks 16 4 block) in
  let w := w16 ++ schedule 48 w16 in
  let st := fold_left round (combine K w) h in
  map (fun p => add32 (fst p) (snd p)) (combine h st).

(** The digest, as 32 bytes. *)
Definition sha256 (msg : list N) : list N :=
  let padded := pad msg in
  let h := fold_left compress (chunks (length padded / 64) 64 padded) H0 in
  concat (map (be_bytes 4) h).

(** [hmac.new(key, msg, hashlib.sha256).digest()] *)
Definition hmac (key msg : list N) : list N :=
  let key1 := if (64 <? length key)%nat then sha256 key else key in
  let key2 := key1 ++ repeat 0 (64 - length key1)%nat in
  let ipad := map (N.lxor 0x36) key2 in
  let opad := map (N.lxor 0x5c) key2 in
  sha256 (opad ++ sha256 (ipad ++ msg)).

Definition hex_digit (d : N) : ascii :=
  ascii_of_N (if d <? 10 then 48 + d else 87 + d).

(** [bytes.hex()]: two lower-case digits per byte. *)
Fixpoint hex (bytes : list N) : string :=
  match bytes with
  | [] => EmptyString
  | b :: rest =>
      String (hex_digit (N.shiftr b 4))
        (String (hex_digit (N.land b 0xf)) (hex rest))
  end.

(** [str.encode()]: UTF-8 of a string of code points below 256. *)
Fixpoint utf8 (s : string) : list N :=
  match s with
  | EmptyString => []
  | String c s' =>
      let n := N_of_ascii c in
      if n <? 128 then n :: utf8 s'
      else N.lor 0xc0 (N.shiftr n 6) :: N.lor 0x80 (N.land n 0x3f) :: utf8 s'
  end.

Definition hmac_hexdigest (key msg : string) : string :=
  hex (hmac (utf8 key) (utf8 msg)).

(** The digests [hashlib] and [hmac] print for the same inputs. *)
Example sha256_abc :
  hex (sha256 (utf8 "abc"))
  = "ba7816bf8f01cfea414140de5dae2223b00361a396177a9cb410ff61f20015ad"%string.
Proof. vm_compute. reflexivity. Qed.

Example sha256_two_blocks :
  hex (sha256 (repeat 97 100))
  = "2816597888e4a0d3a36b82b83316ab32680eb8f00f8cd3b904d681246d285a0e"%string.
Proof. vm_compute. reflexivity. Qed.

Example hmac_short_key :
  hmac_hexdigest "change-me" "abc"
  = "ab888080db50ebd8fdd236ab1c93d1dd2a4322f340bc27cf274d811254230061"%string.
Proof. vm_compute. reflexivity. Qed.

Example hmac_long_key :
  hex (hmac (repeat 107 70) (utf8 "abc"))
  = "3aee79d2a06f8dc1dd8be8883f48f459ebfcda24aca8133cb0dd1c3a71d280d2"%string.
Proof. vm_compute. reflexivity. Qed.

End Sha256.

(* ===================================================================== *)
(** ** services/trust_score.py                                            *)
(* ===================================================================== *)

Module TrustScore.

#[local] Open Scope Q_scope.

Inductive RiskLevel : Set := low | medium | high | critical.

(** The six keys shared by the [weights] and [scores] dictionaries, in the
    insertion order of [weights]. *)
Inductive Dimension : Set :=
  | behavior_stability
  | typing_consistency
  | coding_authenticity
  | identity_stability
  | environment_integrity
  | intervention_performance.

Definition dimensions : list Dimension :=
  [behavior_stability; typing_consistency; coding_authenticity;
   identity_stability; environment_integrity; intervention_performance].

(** The weights are the floats nearest to the decimals of the source. *)
Definition weights (k : Dimension) : Q :=
  match k with
  | behavior_stability => F64.lit 0.20
  | typing_consistency => F64.lit 0.15
  | coding_authenticity => F64.lit 0.20
  | identity_stability => F64.lit 0.20
  | environment_integrity => F64.lit 0.10
  | intervention_performance => F64.lit 0.15
  end.

(** The dictionary returned by [compute_trust_score]: ["overall"], the six
    clamped scores ([**scores]) and ["risk_level"]. *)
Record TrustResult : Set := mkTrustResult {
  overall : Q;
  scores : Dimension -> Q;
  risk_level : RiskLevel
}.

(** [max(0, min(100, x))] *)
Definition clamp (x : Q) : Q := Py.max 0 (Py.min 100 x).

(** [sum(scores[k] * weights[k] for k in weights)]: six binary64 products;
    the built-in [sum] starts from 0 and adds them from left to right, each
    addition rounded (as CPython does up to 3.11; from 3.12 on [sum] carries
    a compensation term, and differs from this only where the last of the 17
    digits does). *)
Definition weighted (sc : Dimension -> Q) : Q :=
  fold_left F64.add (map (fun k => F64.mul (sc k) (weights k)) dimensions) 0.

Definition risk_of (ov : Q) : RiskLevel :=
  if Py.geb ov 80 then low
  else if Py.geb ov 60 then medium
  else if Py.geb ov 40 then high
  else critical.

Definition compute_trust_score
    (behavior_stability_ typing_consistency_ coding_authenticity_
     identity_stability_ environment_integrity_ intervention_performance_ : Q)
    : TrustResult :=
  let sc := fun k =>
    match k with
    | behavior_stability => clamp behavior_stability_
    | typing_consistency => clamp typing_consistency_
    | coding_authenticity => clamp coding_authenticity_
    | identity_stability => clamp identity_stability_
    | environment_integrity => clamp environment_integrity_
    | intervention_performance => clamp intervention_performance_
    end in
  let ov := weighted sc in
  {| overall := F64.round ov 2; scores := sc; risk_level := risk_of ov |}.

(** The table of [apply_violation_penalty]: dimension and amount. *)
Definition penalties : list (string * (string * Q)) :=
  [("tab_switch", ("behavior_stability", 5));
   ("window_blur", ("behavior_stability", 3));
   ("devtools_open", ("behavior_stability", 15));
   ("copy_paste", ("behavior_stability", 8));
   ("clipboard_attempt", ("behavior_stability", 5));
   ("fullscreen_exit", ("environment_integrity", 10));
   ("gaze_deviation", ("identity_stability", 3));
   ("face_missing", ("identity_stability", 10));
   ("multi_face", ("identity_stability", 15));
   ("voice_mismatch", ("identity_stability", 10));
   ("typing_anomaly", ("typing_consistency", 8));
   ("paste_detected", ("typing_consistency", 10));
   ("burst_typing", ("typing_consistency", 5));
   ("high_wpm", ("typing_consistency", 7));
   ("code_entropy_anomaly", ("coding_authenticity", 10));
   ("large_paste", ("coding_authenticity", 12));
   ("idle_timeout", ("behavior_stability", 3))]%string.

(** [apply_violation_penalty(current_scores, event_type)] on whatever the
    caller passes.  [event_type in penalties] hashes its operand: lists and
    dictionaries are unhashable, and no number, boolean or [None] equals a
    string key.  When the key is found the first argument must be a
    dictionary whose entry is a number or a boolean; otherwise it is returned
    untouched.  The subtraction is the binary64 one, which is also what
    Python computes on whole numbers up to 2^53 (beyond, it subtracts two
    [int] exactly). *)
Definition apply_violation_penalty (current_scores event_type : Py.value)
    : Py.Result Py.value :=
  match event_type with
  | Py.List _ | Py.Dict _ => Py.Raise Py.TypeError
  | Py.Str e =>
      match List.find (fun kv => String.eqb (fst kv) e) penalties with
      | Some (_, (dimension, amount)) =>
          match current_scores with
          | Py.Dict items =>
              match Py.as_number
                      (default (Py.Num 100) (Py.dict_get items dimension)) with
              | Some x =>
                  Py.Ok (Py.Dict (Py.dict_set items dimension
                                    (Py.Num (Py.max 0 (F64.sub x amount)))))
              | None => Py.Raise Py.TypeError
              end
          | _ => Py.Raise Py.AttributeError
          end
      | None => Py.Ok current_scores
      end
  | _ => Py.Ok current_scores
  end.

(** The flat table of [get_violation_penalty]; unknown event types cost 2. *)
Definition get_violation_penalty (event_type : string) : Q :=
  let penalties : list (string * Q) :=
    [("tab_switch", 5); ("window_blur", 3); ("devtools_open", 15);
     ("devtools_attempt", 10); ("copy_paste", 8); ("clipboard_attempt", 5);
     ("paste_detected", 10); ("fullscreen_exit", 10); ("gaze_deviation", 3);
     ("face_missing", 10); ("camera_face_missing", 10); ("multi_face", 15);
     ("camera_multi_face", 15); ("voice_mismatch", 10);
     ("audio_multiple_voices", 12); ("typing_anomaly", 8); ("burst_typing", 5);
     ("high_wpm", 7); ("code_entropy_anomaly", 10); ("large_paste", 12);
     ("idle_timeout", 3)]%string in
  match find (fun kv => String.eqb (fst kv) event_type) penalties with
  | Some kv => snd kv
  | None => 2
  end.

(** *** Properties *)

(** The flat table charges 2 for a type it does not list. *)
Example get_violation_penalty_unknown : get_violation_penalty "cough" = 2.
Proof. reflexivity. Qed.

(** What "clamped to [0,100]" means for an input [x] and its stored value. *)
Definition clamped_to (x v : Q) : Prop :=
  0 <= v <= 100 /\
  (x < 0 -> v == 0) /\ (100 < x -> v == 100) /\ (0 <= x <= 100 -> v == x).

(** The weighted sum of the documentation, in exact arithmetic. *)
Definition weighted_sum (sc : Dimension -> Q) : Q :=
  0.20 * sc behavior_stability + 0.15 * sc typing_consistency
  + 0.20 * sc coding_authenticity + 0.20 * sc identity_stability
  + 0.10 * sc environment_integrity + 0.15 * sc intervention_performance.

Lemma clamp_clamped (x : Q) : clamped_to x (clamp x).
Proof.
  unfold clamped_to, clamp, Py.max, Py.min.
  destruct (Py.ltb x 100) eqn:H100; destruct (Py.ltb 0 _) eqn:H0;
    try (apply Py.ltb_spec in H100); try (apply Py.ltb_spec in H0);
    try (apply not_true_iff_false in H100; rewrite Py.ltb_spec in H100);
    try (apply not_true_iff_false in H0; rewrite Py.ltb_spec in H0);
    repeat split; intros; try lra; try reflexivity.
Qed.

Lemma risk_of_low (w : Q) : risk_of w = low <-> 80 <= w.
Proof.
  unfold risk_of.
  destruct (Py.geb w 80) eqn:H80; [apply Py.geb_spec in H80; tauto|].
  apply Py.geb_false in H80.
  destruct (Py.geb w 60); [|destruct (Py.geb w 40)];
    (split; [discriminate | lra]).
Qed.

Lemma risk_of_medium (w : Q) : risk_of w = medium <-> 60 <= w < 80.
Proof.
  unfold risk_of.
  destruct (Py.geb w 80) eqn:H80;
    [apply Py.geb_spec in H80; split; [discriminate | lra]|].
  apply Py.geb_false in H80.
  destruct (Py.geb w 60) eqn:H60; [apply Py.geb_spec in H60; tauto|].
  apply Py.geb_false in H60.
  destruct (Py.geb w 40); (split; [discriminate | lra]).
Qed.

Lemma risk_of_high (w : Q) : risk_of w = high <-> 40 <= w < 60.
Proof.
  unfold risk_of.
  destruct (Py.geb w 80) eqn:H80;
    [apply Py.geb_spec in H80; split; [discriminate | lra]|].
  apply Py.geb_false in H80.
  destruct (Py.geb w 60) eqn:H60;
    [apply Py.geb_spec in H60; split; [discriminate | lra]|].
  apply Py.geb_false in H60.
  destruct (Py.geb w 40) eqn:H40; [apply Py.geb_spec in H40; tauto|].
  apply Py.geb_false in H40. split; [discriminate | lra].
Qed.

Lemma risk_of_critical (w : Q) : risk_of w = critical <-> w < 40.
Proof.
  unfold risk_of.
  destruct (Py.geb w 80) eqn:H80;
    [apply Py.geb_spec in H80; split; [discriminate | lra]|].
  apply Py.geb_false in H80.
  destruct (Py.geb w 60) eqn:H60;
    [apply Py.geb_spec in H60; split; [discriminate | lra]|].
  apply Py.geb_false in H60.
  destruct (Py.geb w 40) eqn:H40;
    [apply Py.geb_spec in H40; split; [discriminate | lra]|].
  apply Py.geb_false in H40. tauto.
Qed.

(** How far the binary64 sum can be from the exact one. *)
Definition eps : Q := 1 # 1000000000000.

Lemma weights_nonneg (k : Dimension) : 0 <= weights k.
Proof. destruct k; vm_compute; discriminate. Qed.

Lemma weighted_mono (f g : Dimension -> Q) :
  (forall k, f k <= g k) -> weighted f <= weighted g.
Proof.
  intros H. unfold weighted, dimensions. cbn [map fold_left].
  repeat (apply F64.add_mono;
          [|apply F64.mul_mono; [apply weights_nonneg | apply H]]).
  apply Qle_refl.
Qed.

Lemma weighted_comp (f g : Dimension -> Q) :
  (forall k, f k == g k) -> weighted f = weighted g.
Proof.
  intros H. unfold weighted. f_equal. apply map_ext. intros k.
  apply F64.rnd_proper. now rewrite H.
Qed.

(** The weights the documentation gives, as exact decimals. *)
Definition decimal_weight (k : Dimension) : Q :=
  match k with
  | behavior_stability => 0.20
  | typing_consistency => 0.15
  | coding_authenticity => 0.20
  | identity_stability => 0.20
  | environment_integrity => 0.10
  | intervention_performance => 0.15
  end.

(** One product of the sum: it stays below the product for a score of 100
    and within 4e-15 of the exact product with the decimal weight. *)
Lemma mul_near (s : Q) (k : Dimension) :
  0 <= s <= 100 ->
  0 <= F64.mul s (weights k) <= 100 * decimal_weight k /\
  - (4 # 1000000000000000) <= F64.mul s (weights k) - s * decimal_weight k
                           <= 4 # 1000000000000000.
Proof.
  intros Hs.
  assert (Hw : 0 <= weights k <= 21 # 100 /\
               - (2 # 100000000000000000) <= weights k - decimal_weight k
                                          <= 2 # 100000000000000000).
  { destruct k; vm_compute; repeat split; discriminate. }
  assert (Hup : F64.mul 100 (weights k) == 100 * decimal_weight k)
    by (destruct k; vm_compute; reflexivity).
  assert (Hm : F64.mul 0 (weights k) <= F64.mul s (weights k)
               <= F64.mul 100 (weights k))
    by (split; apply F64.mul_mono; lra).
  assert (H0 : F64.mul 0 (weights k) == 0).
  { unfold F64.mul. now rewrite (F64.rnd_proper _ 0 (Qmult_0_l _)). }
  split; [rewrite <- Hup, <- H0 at 1; exact Hm|].
  assert (Hp : 0 <= s * weights k /\ s * weights k <= 21).
  { destruct Hw as [[? ?] _]. split; nra. }
  assert (Hn := F64.rnd_near (s * weights k) 5).
  assert (Habs : Qabs (s * weights k) < 2 ^ 5).
  { rewrite Qabs_pos by apply Hp. change (2 ^ 5) with 32. lra. }
  specialize (Hn ltac:(lia) Habs). apply Qabs_Qle_condition in Hn.
  assert (Hc : 2 ^ (5 - 54) <= 18 # 10000000000000000)
    by (vm_compute; discriminate).
  unfold F64.mul.
  revert Hn Hc Hw Hs. generalize (F64.rnd (s * weights k)) (2 ^ (5 - 54)).
  generalize (weights k) (decimal_weight k). intros w c p e Hn Hc Hw Hs. nra.
Qed.

(** One addition of the sum: partial sums stay below 100, where a binary64
    addition is off by at most 2^-47. *)
Lemma add_near (a b a' b' : Q) :
  0 <= a <= a' -> 0 <= b <= b' -> a' + b' <= 100 ->
  0 <= F64.add a b <= F64.add a' b' /\
  - (1 # 100000000000000) <= F64.add a b - (a + b) <= 1 # 100000000000000.
Proof.
  intros Ha Hb Hle. split.
  - split; [apply F64.rnd_nonneg; lra | apply F64.add_mono; lra].
  - assert (Hn := F64.rnd_near (a + b) 7).
    assert (Habs : Qabs (a + b) < 2 ^ 7).
    { rewrite Qabs_pos by lra. change (2 ^ 7) with 128. lra. }
    specialize (Hn ltac:(lia) Habs). apply Qabs_Qle_condition in Hn.
    assert (Hc : 2 ^ (7 - 54) <= 1 # 100000000000000)
      by (vm_compute; discriminate).
    unfold F64.add. revert Hn Hc.
    generalize (F64.rnd (a + b)) (2 ^ (7 - 54)). intros p e Hn Hc. lra.
Qed.

(** The binary64 sum of clamped scores is within [eps] of the exact weighted
    sum, and between 0 and 100. *)
Lemma weighted_near (sc : Dimension -> Q) :
  (forall k, 0 <= sc k <= 100) ->
  0 <= weighted sc <= 100 /\
  - eps <= weighted sc - weighted_sum sc <= eps.
Proof.
  intros H. unfold weighted, dimensions, weighted_sum. cbn [map fold_left].
  destruct (mul_near _ behavior_stability (H behavior_stability)) as [B1 E1].
  destruct (mul_near _ typing_consistency (H typing_consistency)) as [B2 E2].
  destruct (mul_near _ coding_authenticity (H coding_authenticity)) as [B3 E3].
  destruct (mul_near _ identity_stability (H identity_stability)) as [B4 E4].
  destruct (mul_near _ environment_integrity (H environment_integrity)) as [B5 E5].
  destruct (mul_near _ intervention_performance (H intervention_performance))
    as [B6 E6].
  cbn [decimal_weight] in *.
  set (p1 := F64.mul _ (weights behavior_stability)) in *.
  set (p2 := F64.mul _ (weights typing_consistency)) in *.
  set (p3 := F64.mul _ (weights coding_authenticity)) in *.
  set (p4 := F64.mul _ (weights identity_stability)) in *.
  set (p5 := F64.mul _ (weights environment_integrity)) in *.
  set (p6 := F64.mul _ (weights intervention_performance)) in *.
  destruct (add_near 0 p1 0 20) as [S1 A1]; [lra | lra | lra |].
  assert (T1 : F64.add 0 20 == 20) by (vm_compute; reflexivity).
  set (s1 := F64.add 0 p1) in *.
  destruct (add_near s1 p2 20 15) as [S2 A2]; [lra | lra | lra |].
  assert (T2 : F64.add 20 15 == 35) by (vm_compute; reflexivity).
  set (s2 := F64.add s1 p2) in *.
  destruct (add_near s2 p3 35 20) as [S3 A3]; [lra | lra | lra |].
  assert (T3 : F64.add 35 20 == 55) by (vm_compute; reflexivity).
  set (s3 := F64.add s2 p3) in *.
  destruct (add_near s3 p4 55 20) as [S4 A4]; [lra | lra | lra |].
  assert (T4 : F64.add 55 20 == 75) by (vm_compute; reflexivity).
  set (s4 := F64.add s3 p4) in *.
  destruct (add_near s4 p5 75 10) as [S5 A5]; [lra | lra | lra |].
  assert (T5 : F64.add 75 10 == 85) by (vm_compute; reflexivity).
  set (s5 := F64.add s4 p5) in *.
  destruct (add_near s5 p6 85 15) as [S6 A6]; [lra | lra | lra |].
  assert (T6 : F64.add 85 15 == 100) by (vm_compute; reflexivity).
  set (s6 := F64.add s5 p6) in *.
  unfold eps.
  generalize dependent (sc behavior_stability).
  generalize dependent (sc typing_consistency).
  generalize dependent (sc coding_authenticity).
  generalize dependent (sc identity_stability).
  generalize dependent (sc environment_integrity).
  generalize dependent (sc intervention_performance).
  intros. clear H. clearbody p1 p2 p3 p4 p5 p6 s1 s2 s3 s4 s5 s6.
  revert T1 T2 T3 T4 T5 T6 S1 S2 S3 S4 S5 S6.
  generalize (F64.add 0 20) (F64.add 20 15) (F64.add 35 20) (F64.add 55 20)
    (F64.add 75 10) (F64.add 85 15). intros.
  split; split; lra.
Qed.

(** C1, as amended.  Every dimension is clamped to [0,100].  The weighted
    sum is formed in binary64: six products and their additions from left
    to right, each rounded; it stays within [eps] of the exact sum
    0.20/0.15/0.20/0.20/0.10/0.15 of the clamped values.  The returned
    [overall] is that binary64 sum rounded to two decimals, and the risk level
    is decided by the thresholds 80/60/40 on the binary64 sum before it is
    rounded; it is the tier of the exact sum whenever that is not within
    [eps] of a threshold. *)
Theorem compute_trust_score_spec (bs tc ca ids ei ip : Q) :
  let r := compute_trust_score bs tc ca ids ei ip in
  let w := weighted (scores r) in
  let exact := weighted_sum (scores r) in
  (clamped_to bs (scores r behavior_stability) /\
   clamped_to tc (scores r typing_consistency) /\
   clamped_to ca (scores r coding_authenticity) /\
   clamped_to ids (scores r identity_stability) /\
   clamped_to ei (scores r environment_integrity) /\
   clamped_to ip (scores r intervention_performance)) /\
  (- eps <= w - exact <= eps /\
   overall r = F64.round w 2 /\
   - ((1 # 200) + 2 * eps) <= exact - overall r <= (1 # 200) + 2 * eps) /\
  ((risk_level r = low <-> 80 <= w) /\
   (risk_level r = medium <-> 60 <= w < 80) /\
   (risk_level r = high <-> 40 <= w < 60) /\
   (risk_level r = critical <-> w < 40)) /\
  ((80 + eps <= exact -> risk_level r = low) /\
   (60 + eps <= exact < 80 - eps -> risk_level r = medium) /\
   (40 + eps <= exact < 60 - eps -> risk_level r = high) /\
   (exact < 40 - eps -> risk_level r = critical)).
Proof.
  intros r w exact.
  assert (Hk : forall k, 0 <= scores r k <= 100)
    by (intros []; apply clamp_clamped).
  destruct (weighted_near (scores r) Hk) as [Hw Hnear].
  fold w exact in Hw, Hnear.
  assert (Htier : (risk_level r = low <-> 80 <= w) /\
                  (risk_level r = medium <-> 60 <= w < 80) /\
                  (risk_level r = high <-> 40 <= w < 60) /\
                  (risk_level r = critical <-> w < 40)).
  { change (risk_level r) with (risk_of w).
    rewrite risk_of_low, risk_of_medium, risk_of_high, risk_of_critical.
    tauto. }
  split; [repeat split; apply clamp_clamped|].
  split; [|split; [exact Htier|]].
  - split; [exact Hnear|]. split; [reflexivity|].
    change (overall r) with (F64.rnd (Py.round w 2)).
    assert (Hr := Py.round2_near w).
    assert (Hb : 0 <= Py.round w 2 <= 100).
    { split.
      - apply Qle_trans with (Py.round 0 2);
          [discriminate | apply PyFacts.round_mono, Hw].
      - apply Qle_trans with (Py.round 100 2);
          [apply PyFacts.round_mono, Hw | discriminate]. }
    assert (Hn := F64.rnd_near (Py.round w 2) 7).
    assert (Habs : Qabs (Py.round w 2) < 2 ^ 7).
    { rewrite Qabs_pos by apply Hb. change (2 ^ 7) with 128. lra. }
    specialize (Hn ltac:(lia) Habs). apply Qabs_Qle_condition in Hn.
    assert (Hc : 2 ^ (7 - 54) <= eps) by (vm_compute; discriminate).
    revert Hn Hc Hr Hnear. unfold eps.
    generalize (F64.rnd (Py.round w 2)) (2 ^ (7 - 54)) (Py.round w 2).
    intros. lra.
  - destruct Htier as (Hl & Hm & Hh & Hc). unfold eps in *.
    split; [intros H; apply Hl; lra|].
    split; [intros H; apply Hm; lra|].
    split; [intros H; apply Hh; lra | intros H; apply Hc; lra].
Qed.

(** C1 as stated fails in two ways.  Rounding can cross a threshold: with
    one dimension at 79.98 and the others at 80 the sum is 79.99600000000001,
    reported as [overall] = 80.0 with the risk level "medium".  And the
    returned [overall] is not the weighted sum rounded to two decimals: with
    one dimension at the float 0.1 the weighted sum is above 0.015 and rounds
    to 0.02, while the binary64 product is below 0.015 and the result is
    0.01. *)
Lemma risk_level_not_iff_returned_overall :
  (let r := compute_trust_score (F64.lit 79.98) 80 80 80 80 80 in
   overall r == 80 /\ risk_level r = medium /\
   ~ (risk_level r = low <-> 80 <= overall r)) /\
  (let r := compute_trust_score 0 (F64.lit 0.1) 0 0 0 0 in
   overall r = F64.lit 0.01 /\
   Py.round (weighted_sum (scores r)) 2 == 0.02 /\
   ~ overall r == Py.round (weighted_sum (scores r)) 2).
Proof.
  split.
  - intros r.
    assert (Hov : overall r == 80) by (vm_compute; reflexivity).
    assert (Hr : risk_level r = medium) by (vm_compute; reflexivity).
    clearbody r. repeat split; trivial.
    intros [_ H]. rewrite Hr in H.
    assert (Hge : 80 <= overall r) by (rewrite Hov; apply Qle_refl).
    specialize (H Hge). discriminate.
  - intros r.
    assert (Hov : overall r = F64.lit 0.01) by (vm_compute; reflexivity).
    assert (Hex : Py.round (weighted_sum (scores r)) 2 == 0.02)
      by (vm_compute; reflexivity).
    split; [exact Hov|]. split; [exact Hex|].
    rewrite Hov, Hex. clear. vm_compute. discriminate.
Qed.

(** With the additions made from left to right the sum can fall short of a
    threshold the exact sum reaches: for 57, 90, 85, 67, 29, 12 the exact
    weighted sum is 60, the binary64 sum is 59.99999999999999, and the
    result is [overall] = 60.0 with the risk level "high". *)
Example compute_trust_score_left_to_right :
  let r := compute_trust_score 57 90 85 67 29 12 in
  weighted_sum (scores r) == 60 /\ weighted (scores r) < 60 /\
  overall r == 60 /\ risk_level r = high.
Proof. vm_compute. repeat split. Qed.

End TrustScore.

(* ===================================================================== *)
(** ** utils/hmac.py                                                      *)
(* ===================================================================== *)

Module Hmac.

#[local] Open Scope string_scope.
#[local] Open Scope list_scope.

(** An event payload: a dictionary, as its items in insertion order. *)
Definition Payload : Set := list (string * Json.value).

Definition is_ascii (s : string) : bool :=
  forallb (fun c => (N_of_ascii c <? 128)%N) (list_ascii_of_string s).

(** [hmac.compare_digest] on two [str]: a [TypeError] ([None]) unless both
    are ASCII, equality otherwise. *)
Definition compare_digest (a b : string) : option bool :=
  if is_ascii a && is_ascii b then Some (String.eqb a b) else None.

Section Signer.

(** [settings.HMAC_SECRET_KEY] *)
Variable HMAC_SECRET_KEY : string.

Definition sign_event (event_data : Payload) : string :=
  let payload := Json.dumps (Json.Obj event_data) in
  let signature := Sha256.hmac_hexdigest HMAC_SECRET_KEY payload in
  signature.

Definition verify_event (event_data : Payload) (signature : string)
    : option bool :=
  let expected := sign_event event_data in
  compare_digest expected signature.

End Signer.

(** *** Properties *)

(** Number of positions at which two strings of equal length differ. *)
Fixpoint differences (s s' : string) : option nat :=
  match s, s' with
  | EmptyString, EmptyString => Some 0%nat
  | String c r, String c' r' =>
      option_map (fun n => if Ascii.eqb c c' then n else S n) (differences r r')
  | _, _ => None
  end.

(** [s'] is [s] with exactly one character replaced by another. *)
Definition one_char_apart (s s' : string) : bool :=
  match differences s s' with
  | Some 1%nat => true
  | _ => false
  end.

Lemma differences_refl (s : string) : differences s s = Some 0%nat.
Proof.
  induction s as [|c s IH]; simpl; [reflexivity|].
  now rewrite IH, Ascii.eqb_refl.
Qed.

Lemma one_char_apart_neq (s s' : string) : one_char_apart s s' = true -> s <> s'.
Proof.
  intros H ->. unfold one_char_apart in H.
  now rewrite differences_refl in H.
Qed.

Lemma be_bytes_bound (n : nat) (x : N) :
  Forall (fun b => (b < 256)%N) (Sha256.be_bytes n x).
Proof.
  induction n; simpl; constructor; [|assumption].
  change 255%N with (N.ones 8). rewrite N.land_ones.
  now apply N.mod_lt.
Qed.

Lemma sha256_bytes (msg : list N) :
  Forall (fun b => (b < 256)%N) (Sha256.sha256 msg).
Proof.
  unfold Sha256.sha256. apply Forall_concat, Forall_forall.
  intros l (x & -> & _)%list_elem_of_fmap. apply be_bytes_bound.
Qed.

Lemma hex_digit_ascii (d : N) :
  (d < 16)%N -> (N_of_ascii (Sha256.hex_digit d) <? 128)%N = true.
Proof.
  intros H. unfold Sha256.hex_digit. apply N.ltb_lt.
  destruct (d <? 10)%N; rewrite N_ascii_embedding; lia.
Qed.

Lemma hex_ascii (bytes : list N) :
  Forall (fun b => (b < 256)%N) bytes -> is_ascii (Sha256.hex bytes) = true.
Proof.
  unfold is_ascii. induction 1 as [|b rest Hb _ IH]; [reflexivity|].
  simpl. rewrite IH, !hex_digit_ascii; [reflexivity| |].
  - change 15%N with (N.ones 4). rewrite N.land_ones.
    now apply N.mod_lt.
  - rewrite N.shiftr_div_pow2. change (2 ^ 4)%N with 16%N.
    apply N.Div0.div_lt_upper_bound. lia.
Qed.

Lemma sign_event_ascii (key : string) (p : Payload) :
  is_ascii (sign_event key p) = true.
Proof. apply hex_ascii, sha256_bytes. Qed.

Lemma hex_digit_inj (d1 d2 : N) :
  (d1 < 16)%N -> (d2 < 16)%N ->
  Sha256.hex_digit d1 = Sha256.hex_digit d2 -> d1 = d2.
Proof.
  intros H1 H2 E. apply (f_equal N_of_ascii) in E. revert E.
  unfold Sha256.hex_digit.
  destruct (d1 <? 10)%N eqn:E1; destruct (d2 <? 10)%N eqn:E2;
    rewrite !N_ascii_embedding by lia;
    try apply N.ltb_lt in E1; try apply N.ltb_lt in E2;
    try apply N.ltb_ge in E1; try apply N.ltb_ge in E2; lia.
Qed.

Lemma nibbles (b : N) :
  (N.shiftr b 4 = b / 16 /\ N.land b 15 = b mod 16)%N.
Proof.
  split; [now rewrite N.shiftr_div_pow2|].
  change 15%N with (N.ones 4). now rewrite N.land_ones.
Qed.

(** Distinct byte strings print as distinct hexadecimal texts. *)
Lemma hex_inj (l1 l2 : list N) :
  Forall (fun b => (b < 256)%N) l1 -> Forall (fun b => (b < 256)%N) l2 ->
  Sha256.hex l1 = Sha256.hex l2 -> l1 = l2.
Proof.
  intros H1. revert l2.
  induction H1 as [|b1 r1 Hb1 _ IH]; intros l2 H2 E;
    destruct H2 as [|b2 r2 Hb2 H2]; try discriminate E; [reflexivity|].
  simpl in E. injection E as Ehi Elo Erest.
  destruct (nibbles b1) as [Sh1 La1]. destruct (nibbles b2) as [Sh2 La2].
  change 15%N with 0xf%N in La1, La2.
  rewrite Sh1, Sh2 in Ehi. rewrite La1, La2 in Elo.
  apply hex_digit_inj in Ehi;
    [|apply N.Div0.div_lt_upper_bound; lia ..].
  apply hex_digit_inj in Elo; [|now apply N.mod_lt ..].
  f_equal; [|now apply IH].
  rewrite (N.div_mod b1 16), (N.div_mod b2 16) by discriminate. congruence.
Qed.

(** Verifying a payload against its own signature succeeds; the signature
    is a function of the secret and of the serialised payload alone; and the
    serialisation orders keys, so a dictionary filled in another order signs
    to the same text. *)
Theorem sign_verify_round_trip (key : string) (p p' : Payload) :
  verify_event key p (sign_event key p) = Some true /\
  (NoDup (map fst p) -> p ≡ₚ p' -> sign_event key p = sign_event key p') /\
  (Json.dumps (Json.Obj p) = Json.dumps (Json.Obj p') ->
   sign_event key p = sign_event key p').
Proof.
  split; [|split].
  - unfold verify_event, compare_digest.
    now rewrite sign_event_ascii, String.eqb_refl.
  - intros Hnd Hp. unfold sign_event.
    now rewrite (Json.dumps_order_irrelevant p p' Hnd Hp).
  - intros E. unfold sign_event. now rewrite E.
Qed.

(** Another payload is rejected exactly when its serialisation has another
    tag.  That every serialisation one character apart is rejected therefore
    says that HMAC-SHA256 has no collision between such messages under the
    secret in use: a property of the hash function that this development
    neither proves nor refutes. *)
Lemma verify_event_rejects_iff (key : string) (p p' : Payload) :
  verify_event key p' (sign_event key p) = Some false <->
  Sha256.hmac (Sha256.utf8 key) (Sha256.utf8 (Json.dumps (Json.Obj p)))
  <> Sha256.hmac (Sha256.utf8 key) (Sha256.utf8 (Json.dumps (Json.Obj p'))).
Proof.
  unfold verify_event, compare_digest.
  rewrite !sign_event_ascii. cbn [andb].
  destruct (String.eqb (sign_event key p') (sign_event key p)) eqn:E.
  - apply String.eqb_eq in E. unfold sign_event, Sha256.hmac_hexdigest in E.
    apply hex_inj in E; [|apply sha256_bytes ..].
    split; [discriminate | intros H; now contradiction H].
  - apply String.eqb_neq in E. split; [|reflexivity].
    intros _ H. apply E. unfold sign_event, Sha256.hmac_hexdigest.
    now rewrite H.
Qed.

Definition camera_payload (event_type : string) : Payload :=
  [("type", Json.Str event_type); ("attempt", Json.Str "a1")].

(** With the secret ["change-me"] the payload of a camera event signs to the
    digest Python's [hmac] gives, verifies, and is rejected once one letter
    of its event type is changed. *)
Example sign_verify_example :
  sign_event "change-me" (camera_payload "face_missing")
  = "63afa7582f3386fea85f00d6a5e6d2854e496f00ea97218898e7c64c76dbff3a"
  /\ verify_event "change-me" (camera_payload "face_missing")
       (sign_event "change-me" (camera_payload "face_missing")) = Some true
  /\ one_char_apart (Json.dumps (Json.Obj (camera_payload "face_missing")))
       (Json.dumps (Json.Obj (camera_payload "face_missinh"))) = true
  /\ verify_event "change-me" (camera_payload "face_missinh")
       (sign_event "change-me" (camera_payload "face_missing")) = Some false.
Proof. vm_compute. repeat split. Qed.

End Hmac.

(* ===================================================================== *)
(** ** services/sandbox.py                                                *)
(* ===================================================================== *)

Module Sandbox.

#[local] Open Scope string_scope.
#[local] Open Scope list_scope.

(** [SandboxResult], with the defaults of its constructor. *)
Record SandboxResult : Set := mkSandboxResult {
  stdout : string;
  stderr : string;
  exit_code : Z;
  timed_out : bool;
  execution_time : Q
}.

(** How the awaited [proc.communicate] inside [asyncio.wait_for] ends: the
    process finishes in time; or the wait raises [asyncio.TimeoutError], the
    process having written [partial_out] so far; or spawning or communicating
    raises another [Exception] whose [str] is [msg].  [elapsed] is
    [time.time() - start_time] when it is read. *)
Inductive ProcOutcome : Set :=
  | Exited (out err : string) (returncode : option Z) (elapsed : Q)
  | TimedOut (partial_out : string)
  | Raised (msg : string) (elapsed : Q).

(** What the service asks of the operating system.  Killing the container
    ([docker kill], awaited) or the process ([proc.kill()]) is a request
    too: the functions below continue as the source does once it has
    returned, and [outcome] tells what happens when it does not. *)
Inductive Call : Set :=
  | CDockerInfo
  | CUuid4
  | CExec (argv : list string) (stdin : option string) (cwd : option string)
          (timeout : Z)
  | CDockerKill (container : string)
  | CProcKill.

(** The environment answers every request from the history of requests made
    so far, so answers may differ from one call to the next. *)
Record OS : Type := mkOS {
  docker_info : list Call -> bool;
  uuid4_hex : list Call -> string;
  exec : list Call -> list string -> option string -> option string -> Z
         -> ProcOutcome
}.

(** [settings] of [config.py], and the interpreter and temporary directory
    of the running server. *)
Record Settings : Set := mkSettings {
  SANDBOX_IMAGE : string;
  SANDBOX_TIMEOUT : Z;
  SANDBOX_MEMORY_LIMIT : string;
  SANDBOX_CPU_LIMIT : string;     (* [str(settings.SANDBOX_CPU_LIMIT)] *)
  sys_executable : string;
  tempdir : string
}.

Definition default_settings : Settings :=
  {| SANDBOX_IMAGE := "proctorforge-sandbox"; SANDBOX_TIMEOUT := 30;
     SANDBOX_MEMORY_LIMIT := "256m"; SANDBOX_CPU_LIMIT := "0.5";
     sys_executable := "/usr/bin/python3"; tempdir := "/tmp" |}.

(** Computations that talk to the operating system: the trace of calls is
    threaded through. *)
Definition M (A : Type) : Type := list Call -> A * list Call.

#[export] Instance M_ret : MRet M := fun _ a t => (a, t).
#[export] Instance M_bind : MBind M :=
  fun _ _ f m t => let '(a, t') := m t in f a t'.

(** A test case is a dictionary; [run_test_cases] reads two of its keys. *)
Abbreviation TestCase := (gmap string string).

Record CaseReport : Set := mkCaseReport {
  test_case : nat;
  passed : bool;
  expected : string;
  actual : string;
  case_stderr : option string;
  case_timed_out : bool;
  case_execution_time : Q
}.

Record Report : Set := mkReport {
  total : nat;
  n_passed : nat;
  failed : Z;
  score : Q;
  results : list CaseReport
}.

(** How a kill request of a timeout handler ends: it returns, it raises
    (the [docker] client cannot be started, the process is already gone), or
    it never completes. *)
Inductive KillOutcome : Set := Killed | KillRaised | KillPending.

(** What the caller of a function sees. *)
Inductive Outcome (A : Type) : Type :=
  | Returns (a : A)
  | Raises
  | Pending.
Arguments Returns {A} a.
Arguments Raises {A}.
Arguments Pending {A}.

Section Engine.

Variable os : OS.
Variable settings : Settings.

Definition call_docker_info : M bool :=
  fun t => (docker_info os t, (t ++ [CDockerInfo])%list).

Definition call_uuid4 : M string :=
  fun t => (uuid4_hex os t, (t ++ [CUuid4])%list).

Definition call_exec (argv : list string) (stdin cwd : option string)
    (timeout : Z) : M ProcOutcome :=
  fun t => (exec os t argv stdin cwd timeout,
            (t ++ [CExec argv stdin cwd timeout])%list).

Definition call (c : Call) : M unit := fun t => (tt, (t ++ [c])%list).

(** [timeout or settings.SANDBOX_TIMEOUT] *)
Definition timeout_or (timeout : option Z) : Z :=
  match timeout with
  | Some t => if (t =? 0)%Z then SANDBOX_TIMEOUT settings else t
  | None => SANDBOX_TIMEOUT settings
  end.

(** [stdin_data if stdin_data else None] *)
Definition stdin_pipe (stdin_data : string) : option string :=
  if Py.nonempty stdin_data then Some stdin_data else None.

(** [proc.returncode or 0] *)
Definition returncode_or_0 (rc : option Z) : Z := default 0%Z rc.

(** [_check_docker_available] *)
Definition _check_docker_available : M bool := call_docker_info.

(** [lang_config.get(language, lang_config["python"])]: image and command. *)
Definition docker_config (code language : string) : string * list string :=
  let python := (SANDBOX_IMAGE settings, ["python3"; "-c"; code]) in
  let javascript := ("node:20-slim", ["node"; "-e"; code]) in
  if String.eqb language "python" then python
  else if String.eqb language "javascript" then javascript
  else python.

Definition docker_cmd (container_name code language : string) : list string :=
  let config := docker_config code language in
  (["docker"; "run"; "--rm";
   "--name"; container_name;
   "--network"; "none";
   "--memory"; SANDBOX_MEMORY_LIMIT settings;
   "--cpus"; SANDBOX_CPU_LIMIT settings;
   "--pids-limit"; "50";
   "--read-only";
   "--tmpfs"; "/tmp:size=10m";
   "--security-opt"; "no-new-privileges";
   fst config] ++ snd config)%list.

Definition execute_code_docker (code language stdin_data : string)
    (timeout : option Z) : M SandboxResult :=
  let timeout := timeout_or timeout in
  hex ← call_uuid4;
  let container_name := ("pf-sandbox-" ++ Py.take 12 hex)%string in
  o ← call_exec (docker_cmd container_name code language)
                (stdin_pipe stdin_data) None timeout;
  match o with
  | Exited out err rc elapsed =>
      mret {| stdout := out; stderr := err; exit_code := returncode_or_0 rc;
              timed_out := false; execution_time := elapsed |}
  | TimedOut _ =>
      _ ← call (CDockerKill container_name);
      mret {| stdout := ""; stderr := "Execution timed out"; exit_code := 124;
              timed_out := true; execution_time := inject_Z timeout |}
  | Raised msg elapsed =>
      mret {| stdout := ""; stderr := msg; exit_code := 1;
              timed_out := false; execution_time := elapsed |}
  end.

Definition dangerous_patterns : list string :=
  ["import os"; "import subprocess"; "import sys"; "import shutil";
   "__import__"; "eval("; "exec("; "open("; "import socket";
   "import http"; "import urllib"; "import requests"].

(** [lang_cmd.get(language, lang_cmd["python"])] *)
Definition subprocess_cmd (code language : string) : list string :=
  let python := [sys_executable settings; "-c"; code] in
  let javascript := ["node"; "-e"; code] in
  if String.eqb language "python" then python
  else if String.eqb language "javascript" then javascript
  else python.

Definition execute_code_subprocess (code language stdin_data : string)
    (timeout : option Z) : M SandboxResult :=
  let timeout := timeout_or timeout in
  match find (fun pattern => Py.contains pattern code) dangerous_patterns with
  | Some pattern =>
      mret {| stdout := "";
              stderr := ("Blocked: '" ++ pattern
                         ++ "' is not allowed in sandbox mode")%string;
              exit_code := 1; timed_out := false; execution_time := 0 |}
  | None =>
      o ← call_exec (subprocess_cmd code language) (stdin_pipe stdin_data)
                    (Some (tempdir settings)) timeout;
      match o with
      | Exited out err rc elapsed =>
          mret {| stdout := out; stderr := err;
                  exit_code := returncode_or_0 rc;
                  timed_out := false; execution_time := elapsed |}
      | TimedOut _ =>
          _ ← call CProcKill;
          mret {| stdout := ""; stderr := "Execution timed out";
                  exit_code := 124; timed_out := true;
                  execution_time := inject_Z timeout |}
      | Raised msg elapsed =>
          mret {| stdout := ""; stderr := msg; exit_code := 1;
                  timed_out := false; execution_time := elapsed |}
      end
  end.

Definition execute_code (code language stdin_data : string)
    (timeout : option Z) : M SandboxResult :=
  available ← _check_docker_available;
  if available : bool
  then execute_code_docker code language stdin_data timeout
  else execute_code_subprocess code language stdin_data timeout.

(** [tc.get(key, "")] *)
Definition tc_get (tc : TestCase) (key : string) : string :=
  default "" (tc !! key).

(** The test [actual == expected and result.exit_code == 0 and not
    result.timed_out]. *)
Definition test_passed (actual expected_ : string) (result : SandboxResult)
    : bool :=
  String.eqb actual expected_ && (exit_code result =? 0)%Z
  && negb (timed_out result).

(** The body of the [for i, tc in enumerate(test_cases)] loop, carrying the
    two accumulators [results] and [passed]. *)
Fixpoint run_loop (code language : string) (i : nat) (tcs : list TestCase)
    (results_ : list CaseReport) (passed_ : nat)
    : M (list CaseReport * nat) :=
  match tcs with
  | [] => mret (results_, passed_)
  | tc :: rest =>
      let stdin_data := tc_get tc "input" in
      let expected_ := Py.strip (tc_get tc "expected_output") in
      result ← execute_code code language stdin_data (Some 10%Z);
      let actual_ := Py.strip (stdout result) in
      let ok := test_passed actual_ expected_ result in
      let passed' := if ok then S passed_ else passed_ in
      let entry :=
        {| test_case := i + 1; passed := ok; expected := expected_;
           actual := actual_;
           case_stderr := if Py.nonempty (stderr result)
                          then Some (Py.take 200 (stderr result)) else None;
           case_timed_out := timed_out result;
           case_execution_time := execution_time result |} in
      run_loop code language (S i) rest (results_ ++ [entry])%list passed'
  end.

(** [round((passed / total) * 100, 1) if total > 0 else 0]: the quotient
    of two integers is the float nearest to it, the product with 100 is
    rounded again, and [round] works on that float. *)
Definition score_of (passed_ total_ : nat) : Q :=
  if (0 <? total_)%nat
  then F64.round
         (F64.mul (F64.div (inject_Z (Z.of_nat passed_))
                           (inject_Z (Z.of_nat total_))) 100) 1
  else 0%Q.

Definition run_test_cases (code : string) (test_cases : list TestCase)
    (language : string) : M Report :=
  let total_ := length test_cases in
  '(results_, passed_) ← run_loop code language 0 test_cases [] 0%nat;
  mret {| total := total_; n_passed := passed_;
          failed := Z.of_nat total_ - Z.of_nat passed_;
          score := score_of passed_ total_;
          results := results_ |}.

(** *** Properties *)

(** One [execute_code] call per test case, in order, each fed that case's
    own ["input"] and the fixed timeout of 10 seconds. *)
Fixpoint executions (code language : string) (tcs : list TestCase)
    : M (list SandboxResult) :=
  match tcs with
  | [] => mret []
  | tc :: rest =>
      r ← execute_code code language (tc_get tc "input") (Some 10%Z);
      rs ← executions code language rest;
      mret (r :: rs)
  end.

(** The verdict on one case, from that case and its own execution only. *)
Definition case_ok (tc : TestCase) (r : SandboxResult) : Prop :=
  Py.strip (stdout r) = Py.strip (tc_get tc "expected_output")
  /\ exit_code r = 0%Z /\ timed_out r = false.

Definition is_probe (c : Call) : bool :=
  match c with CDockerInfo => true | _ => false end.

(** Number of [docker info] probes in a trace: one per [execute_code]. *)
Definition probes (t : list Call) : nat := length (filter is_probe t).

Ltac munfold :=
  unfold mbind, mret, M_bind, M_ret, _check_docker_available, call_docker_info,
    call_uuid4, call_exec, call in *.

Lemma test_passed_iff (tc : TestCase) (r : SandboxResult) :
  test_passed (Py.strip (stdout r)) (Py.strip (tc_get tc "expected_output")) r
  = true <-> case_ok tc r.
Proof.
  unfold test_passed, case_ok.
  rewrite !andb_true_iff, String.eqb_eq, Z.eqb_eq, negb_true_iff. tauto.
Qed.

Lemma execute_code_docker_trace code language stdin_data timeout t :
  exists calls,
    snd (execute_code_docker code language stdin_data timeout t)
    = (t ++ calls)%list /\ probes calls = 0%nat.
Proof.
  unfold execute_code_docker. munfold.
  destruct (exec os _ _ _ _ _); simpl; rewrite <- ?app_assoc; simpl;
    eexists; (split; [reflexivity | reflexivity]).
Qed.

Lemma execute_code_subprocess_trace code language stdin_data timeout t :
  exists calls,
    snd (execute_code_subprocess code language stdin_data timeout t)
    = (t ++ calls)%list /\ probes calls = 0%nat.
Proof.
  unfold execute_code_subprocess. munfold.
  destruct (find _ dangerous_patterns).
  - exists []. now rewrite app_nil_r.
  - destruct (exec os _ _ _ _ _); simpl; rewrite <- ?app_assoc; simpl;
      eexists; (split; [reflexivity | reflexivity]).
Qed.

(** Every [execute_code] probes for Docker exactly once (the strategy is
    chosen anew at each call). *)
Lemma execute_code_trace code language stdin_data timeout t :
  exists calls,
    snd (execute_code code language stdin_data timeout t) = (t ++ calls)%list
    /\ probes calls = 1%nat.
Proof.
  unfold execute_code. munfold.
  destruct (docker_info os t).
  - destruct (execute_code_docker_trace code language stdin_data timeout
                (t ++ [CDockerInfo])) as (calls & -> & Hp).
    exists (CDockerInfo :: calls). rewrite <- app_assoc. split; [reflexivity|].
    unfold probes in *. simpl. now rewrite Hp.
  - destruct (execute_code_subprocess_trace code language stdin_data timeout
                (t ++ [CDockerInfo])) as (calls & -> & Hp).
    exists (CDockerInfo :: calls). rewrite <- app_assoc. split; [reflexivity|].
    unfold probes in *. simpl. now rewrite Hp.
Qed.

Lemma probes_app (a b : list Call) : probes (a ++ b) = (probes a + probes b)%nat.
Proof. unfold probes. now rewrite filter_app, length_app. Qed.

Lemma executions_trace code language tcs t :
  length (fst (executions code language tcs t)) = length tcs /\
  exists calls,
    snd (executions code language tcs t) = (t ++ calls)%list
    /\ probes calls = length tcs.
Proof.
  revert t. induction tcs as [|tc rest IH]; intros t; simpl.
  - split; [reflexivity|]. exists []. now rewrite app_nil_r.
  - munfold.
    destruct (execute_code_trace code language (tc_get tc "input")
                (Some 10%Z) t) as (c1 & E1 & P1).
    destruct (execute_code code language (tc_get tc "input") (Some 10%Z) t)
      as [r t1] eqn:Er. simpl in E1. subst t1.
    destruct (IH (t ++ c1)%list) as (L & c2 & E2 & P2).
    destruct (executions code language rest (t ++ c1)) as [rs t2].
    simpl in *. subst t2. split; [now rewrite L|].
    exists (c1 ++ c2)%list. rewrite app_assoc. split; [reflexivity|].
    rewrite probes_app. lia.
Qed.

(** The entry appended to [results] for case number [i] (from 0). *)
Definition grade (i : nat) (tc : TestCase) (r : SandboxResult) : CaseReport :=
  {| test_case := i + 1;
     passed := test_passed (Py.strip (stdout r))
                 (Py.strip (tc_get tc "expected_output")) r;
     expected := Py.strip (tc_get tc "expected_output");
     actual := Py.strip (stdout r);
     case_stderr := if Py.nonempty (stderr r)
                    then Some (Py.take 200 (stderr r)) else None;
     case_timed_out := timed_out r;
     case_execution_time := execution_time r |}.

Lemma count_passed_cons (e : CaseReport) (l : list CaseReport) :
  length (filter passed (e :: l))
  = ((if passed e then 1 else 0) + length (filter passed l))%nat.
Proof.
  rewrite filter_cons. destruct (passed e) eqn:E.
  - rewrite decide_True by exact I. reflexivity.
  - rewrite decide_False by exact id. reflexivity.
Qed.

(** The loop runs [executions] and appends one graded entry per case. *)
Lemma run_loop_spec code language tcs : forall i acc p t,
  exists new,
    run_loop code language i tcs acc p t
    = ((acc ++ new, (p + length (filter passed new))%nat),
       snd (executions code language tcs t))
    /\ length new = length tcs
    /\ forall j tc r,
         tcs !! j = Some tc ->
         fst (executions code language tcs t) !! j = Some r ->
         new !! j = Some (grade (i + j) tc r).
Proof.
  induction tcs as [|tc rest IH]; intros i acc p t.
  - exists []. simpl. munfold. rewrite app_nil_r, Nat.add_0_r. repeat split.
    intros j tc r H; now rewrite lookup_nil in H.
  - simpl run_loop. simpl executions. munfold.
    destruct (execute_code code language (tc_get tc "input") (Some 10%Z) t)
      as [r t1].
    fold (grade i tc r). set (entry := grade i tc r).
    change (test_passed _ _ r) with (passed entry).
    set (p' := if passed entry then S p else p).
    destruct (IH (S i) (acc ++ [entry]) p' t1) as (new & E & L & Hn).
    rewrite E. clear E.
    destruct (executions code language rest t1) as [rs t2] eqn:Ers.
    exists (entry :: new).
    split; [|split].
    + rewrite <- app_assoc. cbn [app snd]. do 2 f_equal.
      rewrite count_passed_cons. unfold p'. destruct (passed entry); lia.
    + simpl. now rewrite L.
    + intros [|j] tc' r' Htc Hr; cbn [fst] in *.
      * inversion Htc; inversion Hr; subst. unfold entry.
        now rewrite Nat.add_0_r.
      * cbn in Htc, Hr. cbn [fst] in Hn. rewrite lookup_cons.
        rewrite (Hn j tc' r' Htc Hr). do 2 f_equal. lia.
Qed.

(** The score of a report with [passed_] of [total_] cases passed is within
    a twentieth (and a rounding error) of the exact percentage. *)
Lemma score_of_near (passed_ total_ : nat) :
  (passed_ <= total_)%nat -> (0 < total_)%nat ->
  (- ((1 # 20) + (1 # 10000000000000))
   <= score_of passed_ total_
      - 100 * inject_Z (Z.of_nat passed_) / inject_Z (Z.of_nat total_)
   <= (1 # 20) + (1 # 10000000000000))%Q.
Proof.
  intros Hle Hpos. unfold score_of.
  apply Nat.ltb_lt in Hpos as Hb. rewrite Hb.
  set (p := inject_Z (Z.of_nat passed_)). set (n := inject_Z (Z.of_nat total_)).
  assert (Hn : (0 < n)%Q).
  { unfold n. change 0%Q with (inject_Z 0). rewrite <- Zlt_Qlt. lia. }
  assert (Hp : (0 <= p <= n)%Q).
  { unfold p, n. change 0%Q with (inject_Z 0). rewrite <- !Zle_Qle. lia. }
  unfold F64.round, F64.mul, F64.div.
  assert (Hq : (0 <= p / n <= 1)%Q).
  { split; [apply Qle_shift_div_l; lra | apply Qle_shift_div_r; lra]. }
  assert (E : (100 * p / n == (p / n) * 100)%Q) by (field; lra).
  rewrite E. clear E. revert Hq. generalize (p / n)%Q. intros q Hq.
  assert (B1 : (0 <= F64.rnd q <= 1)%Q)
    by (split; [apply F64.rnd_nonneg; lra | apply (F64.rnd_mono q 1); lra]).
  assert (N1 := F64.rnd_near q 1 ltac:(lia)).
  assert (A1 : (Qabs q < 2 ^ 1)%Q)
    by (rewrite Qabs_pos by lra; change (2 ^ 1)%Q with 2%Q; lra).
  specialize (N1 A1). apply Qabs_Qle_condition in N1.
  set (q1 := F64.rnd q) in *.
  assert (B2 : (0 <= F64.rnd (q1 * 100) <= 100)%Q).
  { split; [apply F64.rnd_nonneg; lra|].
    apply Qle_trans with (F64.rnd 100); [apply F64.rnd_mono; lra|].
    vm_compute. discriminate. }
  assert (N2 := F64.rnd_near (q1 * 100) 7 ltac:(lia)).
  assert (A2 : (Qabs (q1 * 100) < 2 ^ 7)%Q)
    by (rewrite Qabs_pos by lra; change (2 ^ 7)%Q with 128%Q; lra).
  specialize (N2 A2). apply Qabs_Qle_condition in N2.
  set (q2 := F64.rnd (q1 * 100)) in *.
  assert (R := Py.round1_near q2).
  assert (B3 : (0 <= Py.round q2 1 <= 100)%Q).
  { split.
    - apply Qle_trans with (Py.round 0 1);
        [discriminate | apply PyFacts.round_mono; lra].
    - apply Qle_trans with (Py.round 100 1);
        [apply PyFacts.round_mono; lra | discriminate]. }
  assert (N3 := F64.rnd_near (Py.round q2 1) 7 ltac:(lia)).
  assert (A3 : (Qabs (Py.round q2 1) < 2 ^ 7)%Q)
    by (rewrite Qabs_pos by lra; change (2 ^ 7)%Q with 128%Q; lra).
  specialize (N3 A3). apply Qabs_Qle_condition in N3.
  assert (K1 : (2 ^ (1 - 54) <= 2 # 10000000000000000)%Q)
    by (vm_compute; discriminate).
  assert (K7 : (2 ^ (7 - 54) <= 1 # 100000000000000)%Q)
    by (vm_compute; discriminate).
  revert N1 N2 N3 R K1 K7. clearbody q1 q2.
  generalize (F64.rnd (Py.round q2 1)). generalize (Py.round q2 1).
  generalize (2 ^ (1 - 54))%Q (2 ^ (7 - 54))%Q. intros. lra.
Qed.

(** What the source computes for 23 of 80: the quotient times 100 is the
    float 28.749999999999996, which is rounded down, where the exact
    percentage 28.75 is a tie that would round to 28.8. *)
Example score_of_23_of_80 :
  score_of 23 80 = F64.lit 28.7 /\ (Py.round (2875 # 100) 1 == 28.8)%Q.
Proof. vm_compute. split; reflexivity. Qed.

Lemma count_passed_le (l : list CaseReport) :
  (length (filter passed l) <= length l)%nat.
Proof. apply length_filter. Qed.


(** *** Processes that outlive their timeout *)

(** The result both strategies build in their [asyncio.TimeoutError] branch. *)
Definition timed_out_result (timeout : Z) : SandboxResult :=
  {| stdout := ""; stderr := "Execution timed out"; exit_code := 124;
     timed_out := true; execution_time := inject_Z timeout |}.

Lemma docker_cmd_last name code language :
  last (docker_cmd name code language) = Some code.
Proof.
  unfold docker_cmd, docker_config.
  destruct (String.eqb language "python"); [reflexivity|].
  destruct (String.eqb language "javascript"); reflexivity.
Qed.

Lemma subprocess_cmd_last code language :
  last (subprocess_cmd code language) = Some code.
Proof.
  unfold subprocess_cmd.
  destruct (String.eqb language "python"); [reflexivity|].
  destruct (String.eqb language "javascript"); reflexivity.
Qed.

(** The answers of the operating system to the processes started by
    [calls], the requests made after the history [t]. *)
Fixpoint exec_answers (t calls : list Call) : list ProcOutcome :=
  match calls with
  | [] => []
  | c :: rest =>
      let more := exec_answers (t ++ [c]) rest in
      match c with
      | CExec argv stdin cwd timeout => exec os t argv stdin cwd timeout :: more
      | _ => more
      end
  end.

(** A process started by [calls] outlived its timeout. *)
Definition exceeds_timeout (t calls : list Call) : Prop :=
  exists partial_out, TimedOut partial_out ∈ exec_answers t calls.

Definition is_kill (c : Call) : bool :=
  match c with CDockerKill _ | CProcKill => true | _ => false end.

(** Neither [except asyncio.TimeoutError] handler guards its kill request,
    and no caller catches what it raises: the functions above are the source
    when every kill request returns, and [outcome] is what the caller sees
    when [kill], asked with the history of the request, says otherwise.  The
    first request among [calls] that does not return ends the call there. *)
Variable kill : list Call -> KillOutcome.

Fixpoint first_failed_kill (t calls : list Call)
    : option (KillOutcome * list Call) :=
  match calls with
  | [] => None
  | c :: rest =>
      if is_kill c then
        match kill t with
        | Killed => first_failed_kill (t ++ [c]) rest
        | k => Some (k, t ++ [c])
        end
      else first_failed_kill (t ++ [c]) rest
  end.

Definition outcome {A : Type} (m : M A) (t : list Call)
    : Outcome A * list Call :=
  let '(a, t') := m t in
  match first_failed_kill t (drop (length t) t') with
  | None => (Returns a, t')
  | Some (KillRaised, trace) => (Raises, trace)
  | Some (_, trace) => (Pending, trace)
  end.

(** What [outcome] is when the only kill request is the last call. *)
Definition after_kill {A : Type} (a : A) (hist trace : list Call)
    : Outcome A * list Call :=
  match kill hist with
  | Killed => (Returns a, trace)
  | KillRaised => (Raises, trace)
  | KillPending => (Pending, trace)
  end.

(** A call that ran into its timeout is definite: it built the timed-out
    result, after a kill request that was its last call; the caller gets that
    result if the request returns, and no result otherwise. *)
Definition definite (run : M SandboxResult) (timeout : Z) (t : list Call)
    : Prop :=
  forall r calls,
    run t = (r, t ++ calls) ->
    (exceeds_timeout t calls <-> timed_out r = true) /\
    (exceeds_timeout t calls ->
     r = timed_out_result timeout /\
     exists hist c,
       t ++ calls = hist ++ [c] /\ is_kill c = true /\
       outcome run t = after_kill r hist (t ++ calls)).

Lemma outcome_eq {A : Type} (m : M A) (t calls : list Call) (a : A) :
  m t = (a, t ++ calls) ->
  outcome m t
  = match first_failed_kill t calls with
    | None => (Returns a, t ++ calls)
    | Some (KillRaised, trace) => (Raises, trace)
    | Some (_, trace) => (Pending, trace)
    end.
Proof. intros E. unfold outcome. now rewrite E, drop_app_length. Qed.

(** The two ways a process ends without exceeding its timeout. *)
Ltac in_time E X run :=
  subst run; injection E as <- E; rewrite <- ?app_assoc in E; cbn [app] in E;
  apply app_inv_head in E; (match type of E with _ = ?c => subst c end);
  unfold exceeds_timeout; cbn [exec_answers]; rewrite X; cbn [timed_out];
  (split; [split; [|discriminate]|]);
  intros [? Hin]; apply list_elem_of_singleton in Hin; discriminate Hin.

(** The process exceeds its timeout: [calls] are those of the call, [hist]
    the history when [c] asks for the kill. *)
Ltac too_late E Eo X po run hist c :=
  let h := eval cbv delta [run] in hist in
  subst run; injection E as <- E; rewrite <- ?app_assoc in E; cbn [app] in E;
  apply app_inv_head in E; (match type of E with _ = ?c => subst c end);
  unfold exceeds_timeout; cbn [exec_answers]; rewrite X; cbn [timed_out];
  (split; [split; [reflexivity | intros _; exists po; apply list_elem_of_here]|]);
  intros _; (split; [reflexivity|]);
  exists h, c;
  (split; [now rewrite <- !app_assoc|]); (split; [reflexivity|]);
  rewrite Eo; cbn [first_failed_kill is_kill]; unfold after_kill;
  destruct (kill _); rewrite <- ?app_assoc; reflexivity.

Lemma docker_definite code language stdin_data timeout t :
  definite (execute_code_docker code language stdin_data timeout)
    (timeout_or timeout) t.
Proof.
  intros r calls E.
  assert (Eo := outcome_eq _ _ _ _ E).
  set (o := outcome _ t) in *. clearbody o. revert E.
  unfold execute_code_docker. munfold.
  set (name := ("pf-sandbox-" ++ Py.take 12 (uuid4_hex os t))%string).
  set (argv := docker_cmd name code language).
  set (run := CExec argv (stdin_pipe stdin_data) None (timeout_or timeout)).
  intros E.
  destruct (exec os (t ++ [CUuid4]) argv (stdin_pipe stdin_data) None
              (timeout_or timeout)) as [out err rc el|po|msg el] eqn:X.
  - in_time E X run.
  - too_late E Eo X po run ((t ++ [CUuid4]) ++ [run]) (CDockerKill name).
  - in_time E X run.
Qed.

Lemma subprocess_definite code language stdin_data timeout t :
  definite (execute_code_subprocess code language stdin_data timeout)
    (timeout_or timeout) t.
Proof.
  intros r calls E.
  assert (Eo := outcome_eq _ _ _ _ E).
  set (o := outcome _ t) in *. clearbody o. revert E.
  unfold execute_code_subprocess. munfold.
  set (argv := subprocess_cmd code language).
  set (run := CExec argv (stdin_pipe stdin_data) (Some (tempdir settings))
                (timeout_or timeout)).
  destruct (find _ dangerous_patterns) as [pattern|].
  - intros E. injection E as <- E.
    rewrite <- (app_nil_r t) in E at 1. apply app_inv_head in E. subst calls.
    unfold exceeds_timeout. cbn [exec_answers timed_out].
    (split; [split; [|discriminate]|]); intros [po Hin];
      now apply elem_of_nil in Hin.
  - intros E.
    destruct (exec os t argv (stdin_pipe stdin_data) (Some (tempdir settings))
                (timeout_or timeout)) as [out err rc el|po|msg el] eqn:X.
    + in_time E X run.
    + too_late E Eo X po run (t ++ [run]) CProcKill.
    + in_time E X run.
Qed.

Lemma execute_code_definite code language stdin_data timeout t :
  definite (execute_code code language stdin_data timeout)
    (timeout_or timeout) t.
Proof.
  intros r calls E.
  assert (Eo := outcome_eq _ _ _ _ E).
  set (o := outcome _ t) in *. clearbody o. revert E.
  unfold execute_code. munfold.
  destruct (docker_info os t).
  - unfold execute_code_docker. munfold.
    set (name := ("pf-sandbox-"
                  ++ Py.take 12 (uuid4_hex os (t ++ [CDockerInfo])))%string).
    set (argv := docker_cmd name code language).
    set (run := CExec argv (stdin_pipe stdin_data) None (timeout_or timeout)).
    intros E.
    destruct (exec os ((t ++ [CDockerInfo]) ++ [CUuid4]) argv
                (stdin_pipe stdin_data) None (timeout_or timeout))
      as [out err rc el|po|msg el] eqn:X.
    + in_time E X run.
    + too_late E Eo X po run (((t ++ [CDockerInfo]) ++ [CUuid4]) ++ [run])
        (CDockerKill name).
    + in_time E X run.
  - unfold execute_code_subprocess. munfold.
    set (argv := subprocess_cmd code language).
    set (run := CExec argv (stdin_pipe stdin_data) (Some (tempdir settings))
                  (timeout_or timeout)).
    destruct (find _ dangerous_patterns) as [pattern|].
    + intros E. injection E as <- E. apply app_inv_head in E. subst calls.
      unfold exceeds_timeout. cbn [exec_answers timed_out].
      (split; [split; [|discriminate]|]); intros [po Hin];
        now apply elem_of_nil in Hin.
    + intros E.
      destruct (exec os (t ++ [CDockerInfo]) argv (stdin_pipe stdin_data)
                  (Some (tempdir settings)) (timeout_or timeout))
        as [out err rc el|po|msg el] eqn:X.
      * in_time E X run.
      * too_late E Eo X po run ((t ++ [CDockerInfo]) ++ [run]) CProcKill.
      * in_time E X run.
Qed.

(** Each result of [executions] is that of one [execute_code] call, made on
    the case's own input from the trace the earlier cases left. *)
Lemma executions_lookup code language tcs : forall t j tc r,
  tcs !! j = Some tc ->
  fst (executions code language tcs t) !! j = Some r ->
  exists tj calls,
    execute_code code language (tc_get tc "input") (Some 10%Z) tj
    = (r, tj ++ calls).
Proof.
  induction tcs as [|tc0 rest IH]; intros t j tc r Htc Hr;
    [now rewrite lookup_nil in Htc|].
  cbn [executions] in Hr. munfold.
  destruct (execute_code_trace code language (tc_get tc0 "input")
              (Some 10%Z) t) as (c1 & E1 & _).
  destruct (execute_code code language (tc_get tc0 "input") (Some 10%Z) t)
    as [r1 t1] eqn:Er. cbn [snd] in E1. subst t1.
  destruct (executions code language rest (t ++ c1)) as [rs t2] eqn:Ers.
  destruct j as [|j]; cbn in Htc, Hr.
  - inversion Htc; inversion Hr; subst. now exists t, c1.
  - apply (IH (t ++ c1) j tc r Htc). now rewrite Ers.
Qed.

Lemma grade_timed_out i tc r :
  timed_out r = true ->
  passed (grade i tc r) = false /\ case_timed_out (grade i tc r) = true.
Proof.
  intros H. cbn [grade passed case_timed_out]. unfold test_passed.
  rewrite H. cbn [negb]. now rewrite andb_false_r.
Qed.

Lemma score_of_zero (n : nat) : (score_of 0 n == 0)%Q.
Proof.
  unfold score_of. destruct (0 <? n)%nat; [|reflexivity].
  change (inject_Z (Z.of_nat 0)) with 0%Q.
  assert (E : (0 / inject_Z (Z.of_nat n) == 0)%Q) by (unfold Qdiv; ring).
  unfold F64.div. rewrite (F64.rnd_proper _ _ E). reflexivity.
Qed.



End Engine.

(** *** Two concrete environments *)

Fixpoint split_lines (s : string) : list string :=
  match s with
  | EmptyString => [EmptyString]
  | String c s' =>
      if Ascii.eqb c (ascii_of_nat 10) then EmptyString :: split_lines s'
      else match split_lines s' with
           | l :: ls => String c l :: ls
           | [] => [String c EmptyString]
           end
  end.

Definition parse_int (s : string) : option Z :=
  option_map Z.of_int (NilZero.int_of_string s).

(** What a program that reads two lines and prints their sum does with its
    standard input. *)
Definition sum_two_lines (stdin : option string) : ProcOutcome :=
  match stdin with
  | Some s =>
      match split_lines s with
      | a :: b :: _ =>
          match parse_int a, parse_int b with
          | Some x, Some y =>
              Exited (NilZero.string_of_int (Z.to_int (x + y)) ++ Py.nl)%string
                     "" (Some 0%Z) 0.02
          | _, _ => Exited "" "ValueError" (Some 1%Z) 0.02
          end
      | _ => Exited "" "EOFError" (Some 1%Z) 0.02
      end
  | None => Exited "" "EOFError" (Some 1%Z) 0.02
  end.

(** A host without Docker on which every process is such a program. *)
Definition adder_os : OS :=
  {| docker_info := fun _ => false;
     uuid4_hex := fun _ => "0123456789abcdef0123456789abcdef";
     exec := fun _ _ stdin _ _ => sum_two_lines stdin |}.

(** A host, with Docker on every other probe, on which every process writes
    ["7\n"] and then hangs. *)
Definition hanging_os : OS :=
  {| docker_info := fun hist => Nat.even (length hist);
     uuid4_hex := fun _ => "0123456789abcdef0123456789abcdef";
     exec := fun _ _ _ _ _ => TimedOut ("7" ++ Py.nl)%string |}.

Definition sum_code : string :=
  ("a = int(input())" ++ Py.nl ++ "b = int(input())" ++ Py.nl
   ++ "print(a + b)")%string.

Definition sum_case : TestCase :=
  <["input" := ("3" ++ Py.nl ++ "4" ++ Py.nl)%string]>
    (<["expected_output" := ("7" ++ Py.nl)%string]> ∅).


(** The grader reads the key ["expected_output"]: the same case filed under
    ["expected"] is compared with the empty string and fails. *)
Example expected_key_is_expected_output :
  n_passed (fst (run_test_cases adder_os default_settings sum_code
                   [<["input" := ("3" ++ Py.nl ++ "4" ++ Py.nl)%string]>
                      (<["expected" := ("7" ++ Py.nl)%string]> ∅)]
                   "python" [])) = 0%nat.
Proof. vm_compute. reflexivity. Qed.

(** The same case with white space around the expected output passes, and a
    case that expects another number fails: the two texts are compared
    trimmed, and compared. *)
Example trimmed_comparison :
  let run expected_ :=
    fst (run_test_cases adder_os default_settings sum_code
           [<["input" := ("3" ++ Py.nl ++ "4" ++ Py.nl)%string]>
              (<["expected_output" := expected_]> ∅)] "python" []) in
  n_passed (run ("  7 " ++ Py.nl ++ Py.nl)%string) = 1%nat /\
  n_passed (run "7") = 1%nat /\
  n_passed (run "8") = 0%nat /\ n_passed (run "7 7") = 0%nat.
Proof. vm_compute. repeat split. Qed.

(** A host without Docker on which a process fed ["3\n4\n"] prints the sum
    and any other writes ["7\n"] and then hangs. *)
Definition stalling_os : OS :=
  {| docker_info := fun _ => false;
     uuid4_hex := fun _ => "0123456789abcdef0123456789abcdef";
     exec := fun _ _ stdin _ _ =>
       if decide (stdin = Some ("3" ++ Py.nl ++ "4" ++ Py.nl)%string)
       then sum_two_lines stdin
       else TimedOut ("7" ++ Py.nl)%string |}.

(** A case whose run hangs after writing exactly what the case expects. *)
Definition stalled_case : TestCase :=
  <["input" := "wait"]> (<["expected_output" := ("7" ++ Py.nl)%string]> ∅).




End Sandbox.

(* ===================================================================== *)
(** ** routers/websocket.py: ConnectionManager                            *)
(* ===================================================================== *)

Module Websocket.

#[local] Open Scope string_scope.
#[local] Open Scope list_scope.
#[local] Set Warnings "-clear-no-such-hyp".

(** A [WebSocket] object, by identity. *)
Abbreviation WebSocket := positive.

(** Messages and user records are JSON dictionaries. *)
Abbreviation Message := Json.value.
Abbreviation UserInfo := Json.value.

(** What reaches the transport: [websocket.accept()] and
    [websocket.send_json(message)], each with whether it returned ([true])
    or raised ([false]). *)
Inductive NetEvent : Set :=
  | Accept (ws : WebSocket) (ok : bool)
  | SendJson (ws : WebSocket) (message : Message) (ok : bool).

(** The transport decides, from everything that happened so far, whether a
    call on a socket returns or raises. *)
Record Transport : Type := mkTransport {
  accept_ok : list NetEvent -> WebSocket -> bool;
  send_ok : list NetEvent -> WebSocket -> Message -> bool
}.

(** [ConnectionManager] ([channels], [user_map]) and the transport log. *)
Record State : Type := mkState {
  channels : gmap string (gset WebSocket);
  user_map : gmap WebSocket UserInfo;
  net : list NetEvent
}.

Inductive Result (A : Type) : Type :=
  | Ok (a : A)
  | Raised.
Arguments Ok {A} a.
Arguments Raised {A}.

Definition init : State := {| channels := ∅; user_map := ∅; net := [] |}.

(** [self.channels[channel]], for a channel that may be absent. *)
Definition members (st : State) (channel : string) : gset WebSocket :=
  default ∅ (channels st !! channel).

Section Manager.

Variable T : Transport.

Definition connect (websocket : WebSocket) (channel : string)
    (user_info : UserInfo) (st : State) : Result unit * State :=
  let ok := accept_ok T (net st) websocket in
  let net' := net st ++ [Accept websocket ok] in
  if ok then
    let chans :=
      match channels st !! channel with
      | Some _ => channels st
      | None => <[channel := ∅]> (channels st)
      end in
    (Ok tt,
     {| channels := alter (fun s => {[websocket]} ∪ s) channel chans;
        user_map := <[websocket := user_info]> (user_map st);
        net := net' |})
  else
    (Raised,
     {| channels := channels st; user_map := user_map st; net := net' |}).

Definition disconnect (websocket : WebSocket) (channel : string) (st : State)
    : State :=
  let chans :=
    match channels st !! channel with
    | Some s =>
        let s' := s ∖ {[websocket]} in
        if decide (s' = ∅) then delete channel (channels st)
        else <[channel := s']> (channels st)
    | None => channels st
    end in
  {| channels := chans; user_map := delete websocket (user_map st);
     net := net st |}.

(** One turn of [for ws in self.channels[channel]]: try to send, remember
    the socket in [dead] when that raises. *)
Definition send_step (message : Message)
    (acc : list WebSocket * list NetEvent) (ws : WebSocket)
    : list WebSocket * list NetEvent :=
  let ok := send_ok T (snd acc) ws message in
  (if ok then fst acc else fst acc ++ [ws],
   snd acc ++ [SendJson ws message ok]).

Definition send_to_channel (channel : string) (message : Message) (st : State)
    : Result unit * State :=
  match channels st !! channel with
  | Some s =>
      let '(dead, net') := foldl (send_step message) ([], net st) (elements s) in
      let s' := foldl (fun s ws => s ∖ {[ws]}) s dead in
      (Ok tt,
       {| channels := <[channel := s']> (channels st);
          user_map := user_map st; net := net' |})
  | None => (Ok tt, st)
  end.

Definition send_to_user (websocket : WebSocket) (message : Message)
    (st : State) : Result unit * State :=
  let ok := send_ok T (net st) websocket message in
  (Ok tt,
   {| channels := channels st; user_map := user_map st;
      net := net st ++ [SendJson websocket message ok] |}).

(** *** Properties *)

Definition event_of (message : Message) (a : WebSocket * bool) : NetEvent :=
  SendJson (fst a) message (snd a).

Definition failed (a : WebSocket * bool) : bool := negb (snd a).

Lemma send_loop_spec (message : Message) (l : list WebSocket) :
  forall dead n,
  exists attempts : list (WebSocket * bool),
    foldl (send_step message) (dead, n) l
    = (dead ++ map fst (filter failed attempts),
       n ++ map (event_of message) attempts)
    /\ map fst attempts = l.
Proof.
  induction l as [|ws l IH]; intros dead n.
  - exists []. simpl. now rewrite !app_nil_r.
  - simpl. unfold send_step at 2. cbn [fst snd].
    set (ok := send_ok T n ws message).
    destruct (IH (if ok then dead else dead ++ [ws])
                 (n ++ [SendJson ws message ok])) as (att & E & Hl).
    exists ((ws, ok) :: att). rewrite E. split; [|simpl; now rewrite Hl].
    rewrite filter_cons. unfold failed at 2. cbn [snd map fst].
    destruct ok; cbn [negb].
    + rewrite decide_False by exact id. now rewrite <- app_assoc.
    + rewrite decide_True by exact I. cbn [map fst].
      now rewrite <- !app_assoc.
Qed.

Lemma discard_all (s : gset WebSocket) (dead : list WebSocket) :
  foldl (fun s ws => s ∖ {[ws]}) s dead = s ∖ list_to_set dead.
Proof.
  revert s. induction dead as [|d dead IH]; intros s; simpl.
  - set_solver.
  - rewrite IH. set_solver.
Qed.

Lemma unique_value {A B : Type} (l : list (A * B)) (k : A) (a b : B) :
  NoDup (map fst l) -> (k, a) ∈ l -> (k, b) ∈ l -> a = b.
Proof.
  induction l as [|[k' c] l IH]; simpl; intros Hnd Ha Hb.
  - now apply elem_of_nil in Ha.
  - apply NoDup_cons in Hnd as [Hnotin Hnd].
    apply elem_of_cons in Ha as [Ha|Ha]; apply elem_of_cons in Hb as [Hb|Hb].
    + congruence.
    + inversion Ha; subst. exfalso. apply Hnotin.
      apply list_elem_of_fmap. now exists (k', b).
    + inversion Hb; subst. exfalso. apply Hnotin.
      apply list_elem_of_fmap. now exists (k', a).
    + now apply IH.
Qed.

Lemma members_connect (ws : WebSocket) (channel : string) (info : UserInfo)
    (st : State) :
  fst (connect ws channel info st) = Ok tt ->
  members (snd (connect ws channel info st)) channel
  = {[ws]} ∪ members st channel.
Proof.
  unfold connect, members.
  destruct (accept_ok T (net st) ws); [intros _ | discriminate].
  cbn [snd channels].
  destruct (channels st !! channel) as [s|] eqn:E.
  - now rewrite lookup_alter_eq, E.
  - now rewrite lookup_alter_eq, lookup_insert_eq.
Qed.

Lemma connect_member_channels (ws : WebSocket) (channel : string)
    (info : UserInfo) (st : State) :
  ws ∈ members st channel ->
  channels (snd (connect ws channel info st)) = channels st.
Proof.
  unfold connect, members. intros Hin.
  destruct (accept_ok T (net st) ws); [|reflexivity].
  cbn [snd channels].
  destruct (channels st !! channel) as [s|] eqn:E; cbn [default] in Hin.
  - apply map_eq. intros ch. destruct (decide (ch = channel)) as [->|Hne].
    + rewrite lookup_alter_eq, E. cbn. f_equal. set_solver.
    + now rewrite lookup_alter_ne.
  - set_solver.
Qed.

Definition is_send_to (ws : WebSocket) (e : NetEvent) : bool :=
  match e with
  | SendJson w _ _ => bool_decide (w = ws)
  | Accept _ _ => false
  end.

(** Number of [send_json] calls made on [ws] in a stretch of the log. *)
Definition sends_to (ws : WebSocket) (l : list NetEvent) : nat :=
  length (filter (is_send_to ws) l).

Lemma sends_to_attempts (ws : WebSocket) (message : Message)
    (attempts : list (WebSocket * bool)) :
  NoDup (map fst attempts) -> ws ∈ map fst attempts ->
  sends_to ws (map (event_of message) attempts) = 1%nat.
Proof.
  unfold sends_to.
  induction attempts as [|[w ok] att IH]; simpl; intros Hnd Hin.
  - now apply elem_of_nil in Hin.
  - apply NoDup_cons in Hnd as [Hnotin Hnd].
    rewrite filter_cons. cbn [event_of is_send_to fst snd].
    destruct (decide (w = ws)) as [->|Hne].
    + rewrite bool_decide_true by reflexivity.
      rewrite decide_True by exact I. cbn [length]. f_equal.
      clear IH Hin Hnd. induction att as [|[w' ok'] att IH]; [reflexivity|].
      simpl in Hnotin. apply not_elem_of_cons in Hnotin as [Hne Hnotin].
      cbn [map]. rewrite filter_cons. cbn [event_of is_send_to fst snd].
      rewrite bool_decide_false by congruence.
      rewrite decide_False by exact id. now apply IH.
    + rewrite bool_decide_false by assumption.
      rewrite decide_False by exact id.
      apply IH; [assumption|].
      apply elem_of_cons in Hin as [Hin|Hin]; [congruence | assumption].
Qed.

(** What a broadcast does, in terms of the [send_json] attempts it makes. *)
Lemma broadcast_attempts (channel : string) (message : Message) (st : State) :
  let st' := snd (send_to_channel channel message st) in
  exists attempts : list (WebSocket * bool),
    net st' = net st ++ map (event_of message) attempts /\
    map fst attempts = elements (members st channel) /\
    members st' channel
    = members st channel ∖ list_to_set (map fst (filter failed attempts)) /\
    (forall ch, ch <> channel -> channels st' !! ch = channels st !! ch) /\
    user_map st' = user_map st.
Proof.
  unfold send_to_channel, members.
  destruct (channels st !! channel) as [s|] eqn:E; cbn [default].
  - destruct (send_loop_spec message (elements s) [] (net st))
      as (att & Eloop & Hl).
    rewrite Eloop. cbn [snd net channels user_map app].
    exists att. split; [reflexivity|]. split; [exact Hl|].
    split; [now rewrite lookup_insert_eq, discard_all|].
    split; [|reflexivity].
    intros ch Hne. now rewrite lookup_insert_ne.
  - exists []. cbn [snd]. rewrite E, app_nil_r, elements_empty.
    repeat split; try (cbn; set_solver).
Qed.

(** C8. A broadcast never raises.  It calls [send_json] exactly once on
    every socket that is a member of the channel when it starts, and on no
    other; the sockets whose call returned stay members, those whose call
    raised are removed; other channels and the user map are untouched. *)
Theorem send_to_channel_spec (channel : string) (message : Message)
    (st : State) :
  let st' := snd (send_to_channel channel message st) in
  fst (send_to_channel channel message st) = Ok tt /\
  exists attempts : list (WebSocket * bool),
    net st' = net st ++ map (event_of message) attempts /\
    NoDup (map fst attempts) /\
    (forall ws, ws ∈ members st channel <-> ws ∈ map fst attempts) /\
    (forall ws, ws ∈ members st' channel <-> (ws, true) ∈ attempts) /\
    (forall ws, (ws, false) ∈ attempts -> ws ∉ members st' channel) /\
    (forall ch, ch <> channel -> channels st' !! ch = channels st !! ch) /\
    user_map st' = user_map st.
Proof.
  intros st'.
  split.
  { unfold send_to_channel. destruct (channels st !! channel); [|reflexivity].
    now destruct (foldl _ _ _). }
  destruct (broadcast_attempts channel message st)
    as (att & Hnet & Hl & Hm & Hch & Hu).
  fold st' in Hnet, Hm, Hch, Hu.
  assert (Hnd : NoDup (map fst att)) by (rewrite Hl; apply NoDup_elements).
  assert (Hmem : forall ws, ws ∈ members st channel <-> ws ∈ map fst att)
    by (intros ws; now rewrite Hl, elem_of_elements).
  assert (Hdead : forall ws,
            ws ∈ (list_to_set (map fst (filter failed att)) : gset WebSocket)
            <-> (ws, false) ∈ att).
  { intros ws. rewrite elem_of_list_to_set, list_elem_of_fmap. split.
    - intros ([w ok] & -> & Hin). apply list_elem_of_filter in Hin as [Hf Hin].
      unfold failed in Hf. cbn in *. now destruct ok.
    - intros Hin. exists (ws, false). split; [reflexivity|].
      apply list_elem_of_filter. split; [exact I | exact Hin]. }
  exists att. split; [exact Hnet|]. split; [exact Hnd|]. split; [exact Hmem|].
  split; [|split; [|split; [exact Hch | exact Hu]]].
  - intros ws. rewrite Hm, elem_of_difference, Hdead, Hmem. split.
    + intros [Hin Hnf]. apply list_elem_of_fmap in Hin as ([w ok] & -> & Hin).
      cbn. destruct ok; [exact Hin | contradiction].
    + intros Hin. split.
      * apply list_elem_of_fmap. now exists (ws, true).
      * intros Hf. now pose proof (unique_value att ws _ _ Hnd Hin Hf).
  - intros ws Hf. rewrite Hm, elem_of_difference, Hdead. tauto.
Qed.

(** C9. Once a socket has joined a channel, connecting it to that channel
    again leaves every channel's membership as it was, whether the second
    [accept] returns or raises and whatever user record comes with it; a
    broadcast on the channel then calls [send_json] on that socket exactly
    once. *)
Theorem connect_is_idempotent (ws : WebSocket) (channel : string)
    (info info' : UserInfo) (message : Message) (st : State) :
  fst (connect ws channel info st) = Ok tt ->
  let st1 := snd (connect ws channel info st) in
  let st2 := snd (connect ws channel info' st1) in
  let st3 := snd (send_to_channel channel message st2) in
  ws ∈ members st1 channel /\
  channels st2 = channels st1 /\
  exists new, net st3 = net st2 ++ new /\ sends_to ws new = 1%nat.
Proof.
  intros Hok st1 st2 st3.
  assert (H1 : ws ∈ members st1 channel)
    by (unfold st1; rewrite members_connect by assumption; set_solver).
  assert (H2 : channels st2 = channels st1)
    by (now apply connect_member_channels).
  split; [exact H1|]. split; [exact H2|].
  destruct (broadcast_attempts channel message st2)
    as (att & Hnet & Hl & _).
  exists (map (event_of message) att). split; [exact Hnet|].
  apply sends_to_attempts.
  - rewrite Hl. apply NoDup_elements.
  - rewrite Hl, elem_of_elements. unfold members. now rewrite H2.
Qed.

End Manager.

(** *** A transport on which some sockets are closed *)

(** [accept] returns once per socket and raises on a socket that was
    accepted before; [send_json] raises exactly on the sockets in [closed]. *)
Definition transport (closed : gset WebSocket) : Transport :=
  {| accept_ok := fun log ws =>
       negb (existsb (fun e => match e with
                               | Accept w true => bool_decide (w = ws)
                               | _ => false
                               end) log);
     send_ok := fun _ ws _ => bool_decide (ws ∉ closed) |}.

Definition alert : Message :=
  Json.Obj [("type", Json.Str "violation_alert")].

Definition teacher : UserInfo := Json.Obj [("role", Json.Str "teacher")].

(** One live observer (1) and one whose transport is closed (2). *)
Definition two_observers : State :=
  snd (connect (transport {[2%positive]}) 2%positive "admin:global" teacher
         (snd (connect (transport {[2%positive]}) 1%positive "admin:global"
                 teacher init))).

(** C8 on [two_observers]: the broadcast returns, reaches the live
    observer and drops the dead one. *)
Lemma broadcast_drops_dead_observer :
  let r := send_to_channel (transport {[2%positive]}) "admin:global" alert
             two_observers in
  fst r = Ok tt
  /\ members two_observers "admin:global" = {[1%positive; 2%positive]}
  /\ members (snd r) "admin:global" = {[1%positive]}
  /\ sends_to 1%positive (net (snd r)) = 1%nat.
Proof.
  destruct (send_to_channel_spec (transport {[2%positive]}) "admin:global"
              alert two_observers) as (Hok & _).
  split; [exact Hok|]. repeat split; vm_compute; reflexivity.
Defined.

(** C9 on the transport above: the second [connect] of socket 1 raises in
    [accept], the membership stays {1}, and a broadcast sends once. *)
Lemma connect_twice_example :
  let T := transport ∅ in
  let st1 := snd (connect T 1%positive "exam:a1" teacher init) in
  let st2 := snd (connect T 1%positive "exam:a1" teacher st1) in
  fst (connect T 1%positive "exam:a1" teacher st1) = Raised
  /\ channels st2 = channels st1
  /\ sends_to 1%positive (net (snd (send_to_channel T "exam:a1" alert st2)))
     = 1%nat.
Proof.
  intros T st1 st2.
  destruct (connect_is_idempotent T 1%positive "exam:a1" teacher teacher alert
              init) as (_ & Hch & _); [reflexivity|].
  split; [vm_compute; reflexivity|]. split; [exact Hch|].
  vm_compute. reflexivity.
Defined.

End Websocket.
(* ===================================================================== *)
(** ** routers/monitoring.py                                              *)
(* ===================================================================== *)

Module Monitoring.

#[local] Open Scope string_scope.
#[local] Open Scope list_scope.

(** A row of [attempts]. *)
Record Attempt : Set := mkAttempt {
  user_id : string;
  trust_score : Q;
  risk_level : string;
  status : string
}.

(** A row of [events]. *)
Record Event : Set := mkEvent {
  event_attempt_id : string;
  event_type : string;
  event_data : Py.value;
  confidence_score : Q;
  hmac_signature : option string
}.

(** The database as one request sees it through its session. *)
Record Db : Type := mkDb {
  attempts : gmap string Attempt;
  events : list Event
}.

(** An entry of [_session_states] (its two [last_*_event] keys are set to
    [None] and never read). *)
Record SessionState : Set := mkSessionState {
  paused : bool;
  violations : nat
}.

(** The process: the two module-level dictionaries and the database.
    Times are [datetime.utcnow()] values, in microseconds. *)
Record Server : Type := mkServer {
  _heartbeats : gmap string Z;
  _session_states : gmap string SessionState;
  db : Db
}.

Definition HEARTBEAT_INTERVAL : Q := 3.
Definition HEARTBEAT_TOLERANCE : Q := 10.

Record HeartbeatRequest : Set := mkHeartbeatRequest {
  attempt_id : string;             (* [str(data.attempt_id)] *)
  timestamp : option Q;
  tab_visible : bool;
  fullscreen : bool;
  battery_charging : option bool;
  battery_level : option Q
}.

Record HeartbeatResponse : Set := mkHeartbeatResponse {
  resp_status : string;
  server_time : Z;
  resp_gap_seconds : Q;
  resp_violations : list Py.value;
  resp_paused : bool
}.

(** [timedelta.total_seconds()] of a difference of two times. *)
Definition total_seconds (microseconds : Z) : Q := microseconds # 1000000.

(** [if x: ...] on an optional boolean. *)
Definition truthy (b : option bool) : bool := default false b.

(** The ["heartbeat_gap"] entry. *)
Definition gap_violation (gap_seconds : Q) : Py.value :=
  Py.Dict [("type", Py.Str "heartbeat_gap");
           ("gap_seconds", Py.Num (Py.round gap_seconds 1));
           ("message", Py.Str ("Heartbeat gap of " ++ Py.format_0f gap_seconds
                               ++ "s detected")%string)].

Definition tab_violation : Py.value :=
  Py.Dict [("type", Py.Str "tab_hidden");
           ("message", Py.Str "Tab is not visible")].

Definition fullscreen_violation : Py.value :=
  Py.Dict [("type", Py.Str "fullscreen_exit");
           ("message", Py.Str "Not in fullscreen mode")].

Definition battery_violation (level : Q) : Py.value :=
  Py.Dict [("type", Py.Str "low_battery");
           ("level", Py.Num level);
           ("message",
            Py.Str "Battery critically low. Please plug in your device.")].

(** [(now - last_beat).total_seconds() if last_beat else 0] *)
Definition gap_of (last_beat : option Z) (now : Z) : Q :=
  match last_beat with
  | Some lb => total_seconds (now - lb)
  | None => 0
  end.

(** [last_beat and gap_seconds > HEARTBEAT_TOLERANCE] *)
Definition gap_detected (last_beat : option Z) (now : Z) : bool :=
  match last_beat with
  | Some _ => Py.ltb HEARTBEAT_TOLERANCE (gap_of last_beat now)
  | None => false
  end.

(** The list [violations] once the four checks have run. *)
Definition detect (data : HeartbeatRequest) (last_beat : option Z) (now : Z)
    : list Py.value :=
  let violations0 :=
    if gap_detected last_beat now
    then [gap_violation (gap_of last_beat now)] else [] in
  let violations1 :=
    if negb (tab_visible data)
    then violations0 ++ [tab_violation] else violations0 in
  let violations2 :=
    if negb (fullscreen data)
    then violations1 ++ [fullscreen_violation] else violations1 in
  match battery_level data with
  | Some level =>
      if Py.ltb level 0.15 && negb (truthy (battery_charging data))
      then violations2 ++ [battery_violation level] else violations2
  | None => violations2
  end.

(** [for v in violations: penalty = apply_violation_penalty(v["type"],
    attempt.trust_score); attempt.trust_score = max(0, attempt.trust_score -
    penalty)].  The score written so far comes back with the outcome. *)
Fixpoint penalize (vs : list Py.value) (score : Py.value)
    : Py.Result unit * Py.value :=
  match vs with
  | [] => (Py.Ok tt, score)
  | v :: rest =>
      match Py.getitem v "type" with
      | Py.Raise e => (Py.Raise e, score)
      | Py.Ok ty =>
          match TrustScore.apply_violation_penalty ty score with
          | Py.Raise e => (Py.Raise e, score)
          | Py.Ok penalty =>
              match Py.sub score penalty with
              | Py.Raise e => (Py.Raise e, score)
              | Py.Ok d =>
                  match Py.max0 d with
                  | Py.Raise e => (Py.Raise e, score)
                  | Py.Ok score' => penalize rest score'
                  end
              end
          end
      end
  end.

(** The number the column [trust_score] holds after the loop. *)
Definition score_of_value (v : Py.value) (old : Q) : Q :=
  default old (Py.as_number v).

Definition set_trust_score (a : Attempt) (x : Q) : Attempt :=
  {| user_id := user_id a; trust_score := x; risk_level := risk_level a;
     status := status a |}.

Definition set_risk_level (a : Attempt) (r : string) : Attempt :=
  {| user_id := user_id a; trust_score := trust_score a; risk_level := r;
     status := status a |}.

(** The body of the handler [receive_heartbeat], with the state it leaves
    behind whether it returns or raises. *)
Definition receive_heartbeat (data : HeartbeatRequest) (current_user : string)
    (now : Z) (sv : Server) : Py.Result HeartbeatResponse * Server :=
  let attempt_key := attempt_id data in
  let last_beat := _heartbeats sv !! attempt_key in
  let gap_seconds := gap_of last_beat now in
  let heartbeats := <[attempt_key := now]> (_heartbeats sv) in
  let states :=
    match _session_states sv !! attempt_key with
    | Some _ => _session_states sv
    | None => <[attempt_key := {| paused := false; violations := 0 |}]>
                (_session_states sv)
    end in
  let events1 :=
    if gap_detected last_beat now
    then events (db sv)
         ++ [{| event_attempt_id := attempt_id data;
                event_type := "heartbeat_gap";
                event_data := Py.Dict [("gap_seconds", Py.Num gap_seconds)];
                confidence_score := 1;
                hmac_signature := None |}]
    else events (db sv) in
  let vs := detect data last_beat now in
  let respond (states' : gmap string SessionState) (db' : Db) :=
    (Py.Ok {| resp_status := "ok"; server_time := now;
              resp_gap_seconds :=
                match last_beat with
                | Some _ => Py.round gap_seconds 1
                | None => 0
                end;
              resp_violations := vs;
              resp_paused :=
                match states' !! attempt_key with
                | Some s => paused s
                | None => false
                end |},
     {| _heartbeats := heartbeats; _session_states := states';
        db := db' |}) in
  let no_penalty :=
    respond states {| attempts := attempts (db sv); events := events1 |} in
  match vs with
  | [] => no_penalty
  | _ :: _ =>
      match attempts (db sv) !! attempt_id data with
      | Some attempt =>
          if String.eqb (user_id attempt) current_user then
            let '(outcome, score) :=
              penalize vs (Py.Num (trust_score attempt)) in
            let attempt' :=
              set_trust_score attempt
                (score_of_value score (trust_score attempt)) in
            let db' :=
              {| attempts := <[attempt_id data := attempt']> (attempts (db sv));
                 events := events1 |} in
            match outcome with
            | Py.Raise e =>
                (Py.Raise e,
                 {| _heartbeats := heartbeats; _session_states := states;
                    db := db' |})
            | Py.Ok _ =>
                let states' :=
                  alter (fun s => {| paused := paused s;
                                     violations := violations s + length vs |})
                        attempt_key states in
                respond states' db'
            end
          else no_penalty
      | None => no_penalty
      end
  end.

(** [get_db]: the session commits when the handler returns and rolls back
    when it raises; the module-level dictionaries are not part of it. *)
Definition with_db {A : Type} (handler : Server -> Py.Result A * Server)
    (sv : Server) : Py.Result A * Server :=
  match handler sv with
  | (Py.Ok a, sv') => (Py.Ok a, sv')
  | (Py.Raise e, sv') =>
      (Py.Raise e,
       {| _heartbeats := _heartbeats sv';
          _session_states := _session_states sv'; db := db sv |})
  end.

(** [POST /api/monitoring/heartbeat] *)
Definition heartbeat_endpoint (data : HeartbeatRequest) (current_user : string)
    (now : Z) : Server -> Py.Result HeartbeatResponse * Server :=
  with_db (receive_heartbeat data current_user now).

(** *** Camera, audio and behaviour signals *)

Record RiskInfo : Set := mkRiskInfo { penalty : Q; risk : string }.

(** [risk_map.get(event_type, default)] *)
Definition risk_get (risk_map : list (string * RiskInfo)) (event_type : string)
    (default_info : RiskInfo) : RiskInfo :=
  match find (fun kv => String.eqb (fst kv) event_type) risk_map with
  | Some kv => snd kv
  | None => default_info
  end.

Definition camera_risk_map : list (string * RiskInfo) :=
  [("face_missing", {| penalty := 8; risk := "high" |});
   ("multi_face", {| penalty := 12; risk := "critical" |});
   ("gaze_deviation", {| penalty := 3; risk := "medium" |});
   ("head_pose", {| penalty := 2; risk := "low" |});
   ("face_detected", {| penalty := 0; risk := "none" |})].

Definition audio_risk_map : list (string * RiskInfo) :=
  [("multiple_voices", {| penalty := 10; risk := "critical" |});
   ("voice_detected", {| penalty := 0; risk := "none" |});
   ("background_noise", {| penalty := 1; risk := "low" |});
   ("silence", {| penalty := 0; risk := "none" |})].

Definition behavior_risk_map : list (string * RiskInfo) :=
  [("mouse_idle", {| penalty := 1; risk := "low" |});
   ("rapid_scroll", {| penalty := 2; risk := "low" |});
   ("suspicious_resize", {| penalty := 5; risk := "medium" |});
   ("extension_detected", {| penalty := 15; risk := "critical" |});
   ("devtools_open", {| penalty := 20; risk := "critical" |});
   ("clipboard_paste", {| penalty := 4; risk := "medium" |});
   ("tab_switch", {| penalty := 6; risk := "high" |});
   ("window_blur", {| penalty := 5; risk := "high" |})].

Record CameraEventRequest : Set := mkCameraEventRequest {
  cam_attempt_id : string;
  cam_event_type : string;
  face_count : Z;
  cam_confidence : Q;
  gaze_x : option Q;
  gaze_y : option Q;
  head_yaw : option Q;
  head_pitch : option Q;
  cam_details : option Py.value
}.

Record AudioEventRequest : Set := mkAudioEventRequest {
  aud_attempt_id : string;
  aud_event_type : string;
  volume_level : Q;
  voice_count : Z;
  aud_confidence : Q;
  aud_details : option Py.value
}.

Record BehaviorEventRequest : Set := mkBehaviorEventRequest {
  beh_attempt_id : string;
  beh_event_type : string;
  beh_details : option Py.value;
  beh_confidence : Q
}.

Record SignalResponse : Set := mkSignalResponse {
  processed : bool;
  sig_risk_level : string;
  trust_adjustment : Q;
  new_trust_score : option Q
}.

Section Signals.

(** [settings.HMAC_SECRET_KEY] *)
Variable HMAC_SECRET_KEY : string.

(** [sign_event({"type": data.event_type, "attempt": str(data.attempt_id)})] *)
Definition signature_of (event_type_ attempt_id_ : string) : string :=
  Hmac.sign_event HMAC_SECRET_KEY
    [("type", Json.Str event_type_); ("attempt", Json.Str attempt_id_)].

Definition opt_num (x : option Q) : Py.value :=
  match x with Some q => Py.Num q | None => Py.NoneV end.

Definition opt_value (x : option Py.value) : Py.value := default Py.NoneV x.

Definition add_event (e : Event) (d : Db) : Db :=
  {| attempts := attempts d; events := events d ++ [e] |}.

Definition update_attempt (key : string) (a : Attempt) (d : Db) : Db :=
  {| attempts := <[key := a]> (attempts d); events := events d |}.

Definition set_db (sv : Server) (d : Db) : Server :=
  {| _heartbeats := _heartbeats sv; _session_states := _session_states sv;
     db := d |}.

(** [attempt and attempt.user_id == current_user.id] *)
Definition owned_attempt (attempt_id_ current_user : string) (d : Db)
    : option Attempt :=
  match attempts d !! attempt_id_ with
  | Some a => if String.eqb (user_id a) current_user then Some a else None
  | None => None
  end.

(** [receive_camera_event]; the background AI analysis it schedules for
    high and critical risks reads none of this state and writes none. *)
Definition receive_camera_event (data : CameraEventRequest)
    (current_user : string) (sv : Server)
    : Py.Result SignalResponse * Server :=
  let risk_info :=
    risk_get camera_risk_map (cam_event_type data)
      {| penalty := 1; risk := "low" |} in
  let event :=
    {| event_attempt_id := cam_attempt_id data;
       event_type := "camera_" ++ cam_event_type data;
       event_data :=
         Py.Dict
           [("face_count", Py.Num (inject_Z (face_count data)));
            ("confidence", Py.Num (cam_confidence data));
            ("gaze",
             match gaze_x data with
             | Some x => Py.Dict [("x", Py.Num x); ("y", opt_num (gaze_y data))]
             | None => Py.NoneV
             end);
            ("head_pose",
             match head_yaw data with
             | Some yaw => Py.Dict [("yaw", Py.Num yaw);
                                    ("pitch", opt_num (head_pitch data))]
             | None => Py.NoneV
             end);
            ("details", opt_value (cam_details data))];
       confidence_score := cam_confidence data;
       hmac_signature :=
         Some (signature_of (cam_event_type data) (cam_attempt_id data)) |} in
  let db1 := add_event event (db sv) in
  let '(trust_adjustment_, db2) :=
    if Py.ltb 0 (penalty risk_info) then
      match owned_attempt (cam_attempt_id data) current_user db1 with
      | Some attempt =>
          let p := (penalty risk_info * (1 - cam_confidence data * 0.3))%Q in
          let attempt' :=
            set_trust_score attempt (Py.max 0 (trust_score attempt - p)) in
          ((- p)%Q, update_attempt (cam_attempt_id data) attempt' db1)
      | None => (0%Q, db1)
      end
    else (0%Q, db1) in
  (Py.Ok {| processed := true; sig_risk_level := risk risk_info;
            trust_adjustment := Py.round trust_adjustment_ 2;
            new_trust_score := None |},
   set_db sv db2).

Definition receive_audio_event (data : AudioEventRequest)
    (current_user : string) (sv : Server)
    : Py.Result SignalResponse * Server :=
  let risk_info :=
    risk_get audio_risk_map (aud_event_type data)
      {| penalty := 0; risk := "low" |} in
  let event :=
    {| event_attempt_id := aud_attempt_id data;
       event_type := "audio_" ++ aud_event_type data;
       event_data :=
         Py.Dict
           [("volume_level", Py.Num (volume_level data));
            ("voice_count", Py.Num (inject_Z (voice_count data)));
            ("confidence", Py.Num (aud_confidence data));
            ("details", opt_value (aud_details data))];
       confidence_score := aud_confidence data;
       hmac_signature := None |} in
  let db1 := add_event event (db sv) in
  let '(trust_adjustment_, db2) :=
    if Py.ltb 0 (penalty risk_info) then
      match owned_attempt (aud_attempt_id data) current_user db1 with
      | Some attempt =>
          let p := penalty risk_info in
          let attempt' :=
            set_trust_score attempt (Py.max 0 (trust_score attempt - p)) in
          ((- p)%Q, update_attempt (aud_attempt_id data) attempt' db1)
      | None => (0%Q, db1)
      end
    else (0%Q, db1) in
  (Py.Ok {| processed := true; sig_risk_level := risk risk_info;
            trust_adjustment := Py.round trust_adjustment_ 2;
            new_trust_score := None |},
   set_db sv db2).

(** The risk level the behaviour handler derives from the new score. *)
Definition risk_level_of (score : Q) : string :=
  if Py.ltb score 40 then "critical"
  else if Py.ltb score 60 then "high"
  else if Py.ltb score 80 then "medium"
  else "low".

Definition receive_behavior_event (data : BehaviorEventRequest)
    (current_user : string) (sv : Server)
    : Py.Result SignalResponse * Server :=
  let risk_info :=
    risk_get behavior_risk_map (beh_event_type data)
      {| penalty := 1; risk := "low" |} in
  let event :=
    {| event_attempt_id := beh_attempt_id data;
       event_type := "behavior_" ++ beh_event_type data;
       event_data := default (Py.Dict []) (beh_details data);
       confidence_score := beh_confidence data;
       hmac_signature :=
         Some (signature_of (beh_event_type data) (beh_attempt_id data)) |} in
  let db1 := add_event event (db sv) in
  let '(trust_adjustment_, db2) :=
    match owned_attempt (beh_attempt_id data) current_user db1 with
    | Some a =>
        if Py.ltb 0 (penalty risk_info) then
          let score := Py.max 0 (trust_score a - penalty risk_info) in
          let a' := set_risk_level (set_trust_score a score)
                      (risk_level_of score) in
          ((- penalty risk_info)%Q, update_attempt (beh_attempt_id data) a' db1)
        else (0%Q, db1)
    | None => (0%Q, db1)
    end in
  (Py.Ok {| processed := true; sig_risk_level := risk risk_info;
            trust_adjustment := Py.round trust_adjustment_ 2;
            new_trust_score :=
              option_map trust_score (attempts db2 !! beh_attempt_id data) |},
   set_db sv db2).

End Signals.

(** *** Properties *)

(** The ["type"] of an entry of the violation list. *)
Definition vtype (v : Py.value) : option string :=
  match Py.getitem v "type" with
  | Py.Ok (Py.Str s) => Some s
  | _ => None
  end.

Definition opt_list {A : Type} (b : bool) (x : A) : list A :=
  if b then [x] else [].

Definition low_battery (data : HeartbeatRequest) : bool :=
  match battery_level data with
  | Some level => Py.ltb level 0.15 && negb (truthy (battery_charging data))
  | None => false
  end.

(** The four checks are independent: each contributes its own entry. *)
Lemma detect_parts (data : HeartbeatRequest) (last_beat : option Z) (now : Z) :
  detect data last_beat now
  = opt_list (gap_detected last_beat now)
      (gap_violation (gap_of last_beat now))
    ++ opt_list (negb (tab_visible data)) tab_violation
    ++ opt_list (negb (fullscreen data)) fullscreen_violation
    ++ opt_list (low_battery data)
         (battery_violation (default 0%Q (battery_level data))).
Proof.
  unfold detect, low_battery, opt_list.
  destruct (gap_detected last_beat now), (tab_visible data),
    (fullscreen data), (battery_level data) as [level|]; cbn;
    try reflexivity;
    destruct (Py.ltb level 0.15 && negb (truthy (battery_charging data)));
    reflexivity.
Qed.

Lemma detect_typed (data : HeartbeatRequest) (last_beat : option Z) (now : Z)
    (v : Py.value) :
  v ∈ detect data last_beat now -> exists s, Py.getitem v "type" = Py.Ok (Py.Str s).
Proof.
  rewrite detect_parts. unfold opt_list. rewrite !elem_of_app.
  intros [H|[H|[H|H]]];
    match type of H with
    | _ ∈ (if ?b then _ else _) => destruct b
    end;
    try (now apply elem_of_nil in H);
    apply list_elem_of_singleton in H; subst v; eexists; reflexivity.
Qed.

(** The penalty step on a violation whose type is a string and a numeric
    score: [apply_violation_penalty] receives the type where it expects the
    scores and the score where it expects the type, finds no such key and
    hands the type back; subtracting it from the score raises. *)
Lemma penalize_raises (v : Py.value) (vs : list Py.value) (s : string) (x : Q) :
  Py.getitem v "type" = Py.Ok (Py.Str s) ->
  penalize (v :: vs) (Py.Num x) = (Py.Raise Py.TypeError, Py.Num x).
Proof. intros H. simpl. now rewrite H. Qed.

Lemma heartbeat_owned_violation_raises (data : HeartbeatRequest)
    (current_user : string) (now : Z) (sv : Server) (a : Attempt) :
  attempts (db sv) !! attempt_id data = Some a ->
  user_id a = current_user ->
  detect data (_heartbeats sv !! attempt_id data) now <> [] ->
  let r := heartbeat_endpoint data current_user now sv in
  fst r = Py.Raise Py.TypeError /\ db (snd r) = db sv /\
  _heartbeats (snd r) = <[attempt_id data := now]> (_heartbeats sv).
Proof.
  intros Ha Hu Hvs r. subst r. unfold heartbeat_endpoint, with_db.
  unfold receive_heartbeat. rewrite Ha.
  apply String.eqb_eq in Hu. rewrite Hu.
  destruct (detect data (_heartbeats sv !! attempt_id data) now)
    as [|v vs] eqn:E; [contradiction|].
  destruct (detect_typed data (_heartbeats sv !! attempt_id data) now v)
    as [s Hs]; [rewrite E; apply list_elem_of_here|].
  rewrite (penalize_raises v vs s _ Hs). cbn. repeat split.
Qed.

(** The handler returns whenever it has no penalty to apply. *)
Lemma receive_heartbeat_returns (data : HeartbeatRequest)
    (current_user : string) (now : Z) (sv : Server) :
  detect data (_heartbeats sv !! attempt_id data) now = []
  \/ owned_attempt (attempt_id data) current_user (db sv) = None ->
  exists resp,
    fst (heartbeat_endpoint data current_user now sv) = Py.Ok resp
    /\ resp_violations resp
       = detect data (_heartbeats sv !! attempt_id data) now.
Proof.
  unfold owned_attempt, heartbeat_endpoint, with_db, receive_heartbeat.
  intros [E|E].
  - rewrite E. eexists. cbn. split; reflexivity.
  - destruct (detect data (_heartbeats sv !! attempt_id data) now) eqn:Ed;
      [eexists; cbn; split; reflexivity|].
    destruct (attempts (db sv) !! attempt_id data) as [a|];
      [|eexists; cbn; split; reflexivity].
    destruct (String.eqb (user_id a) current_user); [discriminate|].
    eexists; cbn; split; reflexivity.
Qed.

(** The last-seen time is overwritten before anything can fail, and no
    rollback touches it. *)
Lemma heartbeat_endpoint_heartbeats (data : HeartbeatRequest)
    (current_user : string) (now : Z) (sv : Server) :
  _heartbeats (snd (heartbeat_endpoint data current_user now sv))
  = <[attempt_id data := now]> (_heartbeats sv).
Proof.
  unfold heartbeat_endpoint, with_db.
  assert (H : _heartbeats (snd (receive_heartbeat data current_user now sv))
              = <[attempt_id data := now]> (_heartbeats sv)).
  { unfold receive_heartbeat.
    destruct (detect data (_heartbeats sv !! attempt_id data) now);
      [reflexivity|].
    destruct (attempts (db sv) !! attempt_id data); [|reflexivity].
    destruct (String.eqb _ current_user); [|reflexivity].
    destruct (penalize _ _) as [[?|?] ?]; reflexivity. }
  destruct (receive_heartbeat data current_user now sv) as [[?|?] ?];
    exact H.
Qed.

Definition is_gap (v : Py.value) : Prop := vtype v = Some "heartbeat_gap".

Lemma gap_detected_iff (last_beat : option Z) (now : Z) :
  gap_detected last_beat now = true
  <-> exists lb, last_beat = Some lb /\ (10000000 < now - lb)%Z.
Proof.
  unfold gap_detected, gap_of, HEARTBEAT_TOLERANCE, total_seconds.
  destruct last_beat as [lb|].
  - rewrite Py.ltb_spec. unfold Qlt. cbn [Qnum Qden].
    split.
    + intros H. exists lb. split; [reflexivity | lia].
    + intros (lb' & [= <-] & H). lia.
  - split; [discriminate | now intros (? & ? & _)].
Qed.

(** The detection of lines 161 to 197, taken on its own: the last-seen time
    is overwritten whatever happens next; the list of violations holds a
    ["heartbeat_gap"] entry exactly when there was an earlier heartbeat more
    than 10 seconds before; that entry reports the measured gap rounded to a
    tenth of a second. *)
Lemma heartbeat_gap_detection (data : HeartbeatRequest) (current_user : string)
    (now : Z) (sv : Server) :
  let last_beat := _heartbeats sv !! attempt_id data in
  let r := heartbeat_endpoint data current_user now sv in
  _heartbeats (snd r) !! attempt_id data = Some now /\
  ((exists v, v ∈ detect data last_beat now /\ is_gap v)
   <-> exists lb, last_beat = Some lb /\ (10000000 < now - lb)%Z) /\
  (forall v, v ∈ detect data last_beat now -> is_gap v ->
     exists lb, last_beat = Some lb /\
       v = gap_violation (total_seconds (now - lb)) /\
       Py.getitem v "gap_seconds"
       = Py.Ok (Py.Num (Py.round (total_seconds (now - lb)) 1)) /\
       (- (1 # 20) <= total_seconds (now - lb)
                       - Py.round (total_seconds (now - lb)) 1 <= 1 # 20)%Q).
Proof.
  intros last_beat r.
  assert (Hparts := detect_parts data last_beat now).
  assert (Hgap : forall v, v ∈ detect data last_beat now -> is_gap v ->
            gap_detected last_beat now = true
            /\ v = gap_violation (gap_of last_beat now)).
  { intros v Hin Hg. rewrite Hparts in Hin. unfold opt_list in Hin.
    rewrite !elem_of_app in Hin.
    destruct Hin as [H|[H|[H|H]]];
      match type of H with
      | _ ∈ (if ?b then _ else _) => destruct b eqn:Eb
      end;
      try (now apply elem_of_nil in H);
      apply list_elem_of_singleton in H; subst v;
      try discriminate Hg.
    now split. }
  split; [|split].
  - subst r. rewrite heartbeat_endpoint_heartbeats. apply lookup_insert_eq.
  - split.
    + intros (v & Hin & Hg). apply gap_detected_iff.
      now destruct (Hgap v Hin Hg).
    + intros H. apply gap_detected_iff in H.
      exists (gap_violation (gap_of last_beat now)). split; [|reflexivity].
      rewrite Hparts, H. apply list_elem_of_here.
  - intros v Hin Hg. destruct (Hgap v Hin Hg) as [Hd ->].
    apply gap_detected_iff in Hd as (lb & Hlb & _).
    exists lb. split; [exact Hlb|]. rewrite Hlb. cbn [gap_of].
    split; [reflexivity|]. split; [reflexivity|]. apply Py.round1_near.
Qed.

(** An attempt of student [u1], fresh, and a server that knows only it. *)
Definition attempt_a1 : Attempt :=
  {| user_id := "u1"; trust_score := 100%Q; risk_level := "low";
     status := "active" |}.

Definition exam_server (last_beat : option Z) : Server :=
  {| _heartbeats := match last_beat with
                    | Some lb => {["a1" := lb]}
                    | None => ∅
                    end;
     _session_states := ∅;
     db := {| attempts := {["a1" := attempt_a1]}; events := [] |} |}.

Definition score_a1 (sv : Server) : option Q :=
  option_map trust_score (attempts (db sv) !! "a1").

(** C4 at a heartbeat of [u1] with the tab hidden, fullscreen left and the
    battery at 10% and not charging: the three violations are detected, the
    first penalty raises [TypeError], and the score is still 100. *)
Theorem heartbeat_penalty_raises :
  let data := {| attempt_id := "a1"; timestamp := None; tab_visible := false;
                 fullscreen := false; battery_charging := Some false;
                 battery_level := Some 0.10%Q |} in
  let r := heartbeat_endpoint data "u1" 5000000 (exam_server None) in
  detect data None 5000000
  = [tab_violation; fullscreen_violation; battery_violation 0.10%Q]
  /\ fst r = Py.Raise Py.TypeError
  /\ score_a1 (snd r) = Some 100%Q.
Proof. repeat split; vm_compute; reflexivity. Qed.

(** C6 at a heartbeat of [u1] that arrives 11 seconds after the one before:
    the gap is detected and the last-seen time is updated, but the handler
    raises [TypeError] in the penalty step, so neither the violation nor its
    event leaves the request. *)
Theorem heartbeat_gap_not_reported :
  let data := {| attempt_id := "a1"; timestamp := None; tab_visible := true;
                 fullscreen := true; battery_charging := None;
                 battery_level := None |} in
  let r := heartbeat_endpoint data "u1" 11000000 (exam_server (Some 0%Z)) in
  detect data (Some 0%Z) 11000000 = [gap_violation 11%Q]
  /\ fst r = Py.Raise Py.TypeError
  /\ _heartbeats (snd r) !! "a1" = Some 11000000%Z
  /\ events (db (snd r)) = [].
Proof. repeat split; vm_compute; reflexivity. Qed.

Definition unknown_camera : CameraEventRequest :=
  {| cam_attempt_id := "a1"; cam_event_type := "hand_raised"; face_count := 1;
     cam_confidence := 1%Q; gaze_x := None; gaze_y := None; head_yaw := None;
     head_pitch := None; cam_details := None |}.

Definition unknown_audio : AudioEventRequest :=
  {| aud_attempt_id := "a1"; aud_event_type := "cough"; volume_level := 0.4%Q;
     voice_count := 1; aud_confidence := 1%Q; aud_details := None |}.

Definition unknown_behavior : BehaviorEventRequest :=
  {| beh_attempt_id := "a1"; beh_event_type := "zoom_change";
     beh_details := None; beh_confidence := 1%Q |}.

(** An audio event of a type the table does not list is stored, and costs
    nothing. *)
Lemma audio_unknown_no_penalty (data : AudioEventRequest)
    (current_user : string) (sv : Server) :
  find (fun kv => String.eqb (fst kv) (aud_event_type data)) audio_risk_map
  = None ->
  exists resp,
    receive_audio_event data current_user sv
    = (Py.Ok resp,
       set_db sv (add_event
          {| event_attempt_id := aud_attempt_id data;
             event_type := "audio_" ++ aud_event_type data;
             event_data :=
               Py.Dict
                 [("volume_level", Py.Num (volume_level data));
                  ("voice_count", Py.Num (inject_Z (voice_count data)));
                  ("confidence", Py.Num (aud_confidence data));
                  ("details", opt_value (aud_details data))];
             confidence_score := aud_confidence data;
             hmac_signature := None |} (db sv)))
    /\ processed resp = true /\ (trust_adjustment resp == 0)%Q.
Proof.
  intros H. unfold receive_audio_event, risk_get. rewrite H. cbn.
  eexists. split; [reflexivity|]. split; reflexivity.
Qed.

(** C5 at events of unlisted types with confidence 1 on the attempt of
    [u1]: the camera path takes 0.7 and the behaviour path 1, the audio path
    takes nothing. *)
Theorem unknown_audio_event_costs_nothing :
  let sv := exam_server None in
  let cam := receive_camera_event "change-me" unknown_camera "u1" sv in
  let aud := receive_audio_event unknown_audio "u1" sv in
  let beh := receive_behavior_event "change-me" unknown_behavior "u1" sv in
  (score_a1 (snd cam) = Some 99.3%Q /\ score_a1 (snd beh) = Some 99%Q) /\
  (exists resp, fst aud = Py.Ok resp /\ processed resp = true
                /\ (trust_adjustment resp == 0)%Q) /\
  score_a1 (snd aud) = Some 100%Q /\
  length (events (db (snd aud))) = 1%nat.
Proof.
  cbv zeta. split; [split|split; [|split]].
  - vm_compute. reflexivity.
  - vm_compute. reflexivity.
  - eexists. split; [vm_compute; reflexivity|]. split; reflexivity.
  - vm_compute. reflexivity.
  - vm_compute. reflexivity.
Qed.

End Monitoring.

(* ===================================================================== *)
(** ** services/trust_score.py: further properties                        *)
(* ===================================================================== *)

Module TrustScoreFacts.

Import TrustScore.
#[local] Open Scope Q_scope.

Lemma clamp_mono (x y : Q) : x <= y -> clamp x <= clamp y.
Proof.
  intros H.
  destruct (clamp_clamped x) as ([? ?] & Hx1 & Hx2 & Hx3).
  destruct (clamp_clamped y) as ([? ?] & Hy1 & Hy2 & Hy3).
  destruct (Qlt_le_dec x 0) as [Lx|Lx]; [rewrite (Hx1 Lx); assumption|].
  destruct (Qlt_le_dec 100 y) as [Ly|Ly]; [rewrite (Hy2 Ly); assumption|].
  rewrite Hx3, Hy3 by (split; lra). exact H.
Qed.

(** The tiers from worst to best. *)
Definition rank (r : RiskLevel) : nat :=
  match r with critical => 0 | high => 1 | medium => 2 | low => 3 end.

Lemma risk_of_mono (v w : Q) : v <= w -> (rank (risk_of v) <= rank (risk_of w))%nat.
Proof.
  intros H.
  destruct (risk_of v) eqn:Ev; destruct (risk_of w) eqn:Ew; simpl; try lia;
    exfalso;
    try apply risk_of_low in Ev; try apply risk_of_medium in Ev;
    try apply risk_of_high in Ev; try apply risk_of_critical in Ev;
    try apply risk_of_low in Ew; try apply risk_of_medium in Ew;
    try apply risk_of_high in Ew; try apply risk_of_critical in Ew; lra.
Qed.

(** X1. Whatever the six inputs, the returned overall lies in [0,100], and
    so does every returned dimension. *)
Theorem overall_in_range (bs tc ca ids ei ip : Q) :
  let r := compute_trust_score bs tc ca ids ei ip in
  0 <= overall r <= 100 /\ forall k, 0 <= scores r k <= 100.
Proof.
  intros r.
  assert (Hk : forall k, 0 <= scores r k <= 100)
    by (intros []; apply clamp_clamped).
  split; [|exact Hk].
  destruct (weighted_near (scores r) Hk) as [Hw _].
  change (overall r) with (F64.round (weighted (scores r)) 2).
  split.
  - apply Qle_trans with (F64.round 0 2);
      [discriminate | apply F64.round_monotone, Hw].
  - apply Qle_trans with (F64.round 100 2);
      [apply F64.round_monotone, Hw | vm_compute; discriminate].
Qed.

(** X2. Raising inputs never lowers the result: if every dimension of one
    call is at most that of another, so are its overall and its risk tier
    is at least as severe. *)
Theorem compute_trust_score_monotone (a1 a2 a3 a4 a5 a6 b1 b2 b3 b4 b5 b6 : Q) :
  a1 <= b1 -> a2 <= b2 -> a3 <= b3 -> a4 <= b4 -> a5 <= b5 -> a6 <= b6 ->
  let ra := compute_trust_score a1 a2 a3 a4 a5 a6 in
  let rb := compute_trust_score b1 b2 b3 b4 b5 b6 in
  overall ra <= overall rb /\
  (rank (risk_level ra) <= rank (risk_level rb))%nat.
Proof.
  intros H1 H2 H3 H4 H5 H6 ra rb.
  assert (Hw : weighted (scores ra) <= weighted (scores rb))
    by (apply weighted_mono; intros []; now apply clamp_mono).
  split; [now apply F64.round_monotone | now apply risk_of_mono].
Qed.

Lemma compute_trust_score_monotone_example :
  let ra := compute_trust_score 50 50 50 50 50 50 in
  let rb := compute_trust_score 50 90 50 70 50 120 in
  overall ra <= overall rb /\
  (rank (risk_level ra) <= rank (risk_level rb))%nat.
Proof.
  apply compute_trust_score_monotone; vm_compute; discriminate.
Defined.

(** X3. Scoring the dimensions a result returns gives the same result
    again: clamping is idempotent. *)
Theorem compute_trust_score_idempotent (bs tc ca ids ei ip : Q) :
  let r := compute_trust_score bs tc ca ids ei ip in
  let r' := compute_trust_score
              (scores r behavior_stability) (scores r typing_consistency)
              (scores r coding_authenticity) (scores r identity_stability)
              (scores r environment_integrity)
              (scores r intervention_performance) in
  (forall k, scores r' k == scores r k) /\
  overall r' == overall r /\ risk_level r' = risk_level r.
Proof.
  intros r r'.
  assert (Hk : forall k, scores r' k == scores r k).
  { intros k.
    assert (Hr : 0 <= scores r k <= 100) by (destruct k; apply clamp_clamped).
    destruct k; cbn [r' compute_trust_score scores];
      apply (clamp_clamped _); exact Hr. }
  assert (Hw : weighted (scores r') = weighted (scores r))
    by (apply weighted_comp, Hk).
  split; [exact Hk|]. split.
  - change (F64.round (weighted (scores r')) 2
            == F64.round (weighted (scores r)) 2).
    now rewrite Hw.
  - change (risk_of (weighted (scores r')) = risk_of (weighted (scores r))).
    now rewrite Hw.
Qed.

(** *** The penalty tables *)

Lemma dict_get_set_eq (items : list (string * Py.value)) (k : string)
    (v : Py.value) :
  Py.dict_get (Py.dict_set items k v) k = Some v.
Proof.
  unfold Py.dict_get.
  induction items as [|[k0 v0] rest IH]; cbn [Py.dict_set find fst].
  - now rewrite String.eqb_refl.
  - destruct (String.eqb k0 k) eqn:E; cbn [find fst].
    + now rewrite String.eqb_refl.
    + now rewrite E.
Qed.

Lemma dict_get_set_ne (items : list (string * Py.value)) (k k' : string)
    (v : Py.value) :
  k' <> k -> Py.dict_get (Py.dict_set items k v) k' = Py.dict_get items k'.
Proof.
  intros Hne. unfold Py.dict_get.
  assert (Hk : String.eqb k k' = false) by (apply String.eqb_neq; congruence).
  induction items as [|[k0 v0] rest IH]; cbn [Py.dict_set find fst].
  - now rewrite Hk.
  - destruct (String.eqb k0 k) eqn:E; cbn [find fst].
    + apply String.eqb_eq in E. subst k0. now rewrite Hk.
    + destruct (String.eqb k0 k'); [reflexivity | exact IH].
Qed.

(** The keys of a dictionary, in order. *)
Definition keys (items : list (string * Py.value)) : list string :=
  List.map fst items.

Lemma keys_dict_set (items : list (string * Py.value)) (k : string)
    (v : Py.value) :
  keys (Py.dict_set items k v)
  = if existsb (String.eqb k) (keys items) then keys items
    else (keys items ++ [k])%list.
Proof.
  induction items as [|[k0 v0] rest IH]; cbn [Py.dict_set keys List.map fst existsb app].
  - reflexivity.
  - rewrite (String.eqb_sym k k0).
    destruct (String.eqb k0 k) eqn:E; cbn [orb keys List.map fst].
    + apply String.eqb_eq in E. now subst.
    + fold (keys rest). fold (keys (Py.dict_set rest k v)). rewrite IH.
      now destruct (existsb (String.eqb k) (keys rest)).
Qed.

(** Every amount of the table of [apply_violation_penalty] is positive and
    is the amount [get_violation_penalty] charges for the same type. *)
Lemma penalties_entry (e k dim : string) (amt : Q) :
  find (fun kv => String.eqb (fst kv) e) penalties = Some (k, (dim, amt)) ->
  k = e /\ 0 < amt /\ get_violation_penalty e = amt.
Proof.
  intros H. apply find_some in H. destruct H as [Hin Hk].
  apply String.eqb_eq in Hk. cbn [fst] in Hk. subst k.
  split; [reflexivity|].
  unfold penalties in Hin. cbn [In] in Hin.
  repeat (destruct Hin as [Hin|Hin];
          [injection Hin as <- <- <-; split; reflexivity|]).
  destruct Hin.
Qed.

(** The amounts of the table are whole numbers of at most 15. *)
Lemma penalties_amount (e k dim : string) (amt : Q) :
  find (fun kv => String.eqb (fst kv) e) penalties = Some (k, (dim, amt)) ->
  exists m : Z, amt = inject_Z m /\ (0 < m <= 15)%Z.
Proof.
  intros H. apply find_some in H. destruct H as [Hin _].
  unfold penalties in Hin. cbn [In] in Hin.
  repeat (destruct Hin as [Hin|Hin];
          [injection Hin as <- <- <-; eexists; split; [reflexivity | lia]|]).
  destruct Hin.
Qed.

Lemma max0_comp (a b : Q) : a == b -> Py.max 0 a == Py.max 0 b.
Proof.
  intros E. unfold Py.max, Py.ltb.
  rewrite (Qleb_comp a b E 0 0 (Qeq_refl 0)).
  destruct (Qle_bool b 0); [reflexivity | exact E].
Qed.

(** X4. On a dictionary whose entry for the affected dimension is a number
    or a boolean (a missing entry counts as 100), a listed event type
    replaces that entry by [max(0, entry - amount)]: the new value is never
    negative, is 0 when the entry does not exceed the amount, is never above
    a non-negative float entry, is within 2^-53 of the difference, relative
    to it, when that is at least 1, and is exactly the entry less the amount,
    floored at 0, for whole numbers up to 2^52.  Every other key keeps its
    value, and the only key that can appear is the dimension itself. *)
Theorem apply_violation_penalty_known
    (items : list (string * Py.value)) (e k dim : string) (amt x : Q) :
  find (fun kv => String.eqb (fst kv) e) penalties = Some (k, (dim, amt)) ->
  Py.as_number (default (Py.Num 100) (Py.dict_get items dim)) = Some x ->
  exists items' x',
    apply_violation_penalty (Py.Dict items) (Py.Str e) = Py.Ok (Py.Dict items') /\
    Py.dict_get items' dim = Some (Py.Num x') /\
    0 <= x' /\
    (x <= amt -> x' == 0) /\
    (0 <= x -> F64.is_float x -> x' <= x) /\
    (amt + 1 <= x -> Qabs (x' - (x - amt)) <= 2 ^ (-53) * (x - amt)) /\
    (forall n : Z, x == inject_Z n -> (Z.abs n <= 2 ^ 52)%Z ->
       x' == Py.max 0 (x - amt)) /\
    (forall k', k' <> dim -> Py.dict_get items' k' = Py.dict_get items k') /\
    keys items'
    = if existsb (String.eqb dim) (keys items) then keys items
      else (keys items ++ [dim])%list.
Proof.
  intros Hf Hx. destruct (penalties_entry _ _ _ _ Hf) as (_ & Hpos & _).
  destruct (penalties_amount _ _ _ _ Hf) as (m & Hm & Hm15).
  do 2 eexists. unfold apply_violation_penalty. rewrite Hf, Hx.
  split; [reflexivity|].
  split; [apply dict_get_set_eq|].
  assert (Hmax : forall v, 0 <= Py.max 0 v /\ (v <= 0 -> Py.max 0 v == 0) /\
                           (0 <= v -> Py.max 0 v == v)).
  { intros v. unfold Py.max. destruct (Py.ltb 0 v) eqn:L.
    - apply Py.ltb_spec in L. repeat split; intros; lra.
    - apply not_true_iff_false in L. rewrite Py.ltb_spec in L.
      repeat split; intros; lra. }
  split; [apply Hmax|].
  split; [intros Hle; apply Hmax, F64.rnd_nonpos; lra|].
  split.
  { intros H0 Hfl. unfold F64.is_float in Hfl.
    assert (Hle : F64.sub x amt <= x).
    { rewrite <- Hfl at 2. apply F64.rnd_mono. lra. }
    destruct (Hmax (F64.sub x amt)) as (_ & Hn & Hp).
    destruct (Qlt_le_dec (F64.sub x amt) 0) as [C|C].
    - rewrite Hn by lra. exact H0.
    - rewrite Hp by exact C. exact Hle. }
  split.
  { intros H1.
    assert (Hd : 1 <= x - amt) by lra.
    assert (Ha : Qabs (x - amt) == x - amt) by (apply Qabs_pos; lra).
    assert (Hr := F64.rnd_rel (x - amt)). rewrite Ha in Hr.
    assert (Hlow : 2 ^ (-1022) <= x - amt).
    { apply Qle_trans with 1; [|exact Hd].
      change 1 with (2 ^ 0). apply F64.pow2_le. lia. }
    specialize (Hr Hlow).
    assert (Hnn : 0 <= F64.sub x amt) by (apply F64.rnd_nonneg; lra).
    destruct (Hmax (F64.sub x amt)) as (_ & _ & Hp).
    rewrite (Hp Hnn). exact Hr. }
  split.
  { intros n Hn Hb. apply max0_comp. unfold F64.sub.
    assert (E : x - amt == inject_Z (n - m)).
    { rewrite Hn, Hm. unfold Zminus. rewrite inject_Z_plus, inject_Z_opp.
      reflexivity. }
    rewrite (F64.rnd_proper _ _ E), E. apply F64.rnd_int. lia. }
  split; [intros k' Hk'; now apply dict_get_set_ne | apply keys_dict_set].
Qed.

Lemma apply_violation_penalty_known_example :
  exists items' x',
    apply_violation_penalty
      (Py.Dict [("identity_stability", Py.Bool true); ("note", Py.Str "kept")]%string)
      (Py.Str "multi_face")
    = Py.Ok (Py.Dict items') /\
    Py.dict_get items' "identity_stability" = Some (Py.Num x') /\
    0 <= x' /\
    (1 <= 15 -> x' == 0) /\
    (0 <= 1 -> F64.is_float 1 -> x' <= 1) /\
    (15 + 1 <= 1 -> Qabs (x' - (1 - 15)) <= 2 ^ (-53) * (1 - 15)) /\
    (forall n : Z, 1 == inject_Z n -> (Z.abs n <= 2 ^ 52)%Z ->
       x' == Py.max 0 (1 - 15)) /\
    (forall k', k' <> "identity_stability"%string ->
       Py.dict_get items' k'
       = Py.dict_get [("identity_stability", Py.Bool true); ("note", Py.Str "kept")]%string k') /\
    keys items' = ["identity_stability"; "note"]%string.
Proof.
  apply (apply_violation_penalty_known
           [("identity_stability", Py.Bool true); ("note", Py.Str "kept")]%string
           "multi_face" "multi_face" "identity_stability" 15 1);
    reflexivity.
Defined.

(** Binary64 subtraction absorbs an amount that is small against the
    entry: 1e17 less 3 is 1e17 again, while 12.5 less 15 is floored at 0 and
    100 less 8 is 92. *)
Example apply_violation_penalty_absorbed :
  Py.max 0 (F64.sub (inject_Z (10 ^ 17)) 3) == inject_Z (10 ^ 17) /\
  Py.max 0 (F64.sub 12.5 15) == 0 /\ Py.max 0 (F64.sub 100 8) == 92.
Proof. vm_compute. repeat split. Qed.

(** An event type the table does not list changes nothing, whatever the
    first argument is (not even a dictionary is required), and a call never
    raises [KeyError]. *)
Lemma apply_violation_penalty_unknown :
  (forall (cs : Py.value) (e : string),
     find (fun kv => String.eqb (fst kv) e) penalties = None ->
     apply_violation_penalty cs (Py.Str e) = Py.Ok cs) /\
  (forall cs ev, apply_violation_penalty cs ev <> Py.Raise Py.KeyError).
Proof.
  split.
  - intros cs e H. unfold apply_violation_penalty. now rewrite H.
  - intros cs ev. unfold apply_violation_penalty.
    destruct ev; try discriminate.
    destruct (find _ penalties) as [[? [? ?]]|]; [|discriminate].
    destruct cs; try discriminate.
    destruct (Py.as_number _); discriminate.
Qed.

(** X5. The two tables agree: every type [apply_violation_penalty] lists is
    charged the same amount by [get_violation_penalty]; and the flat
    penalty of any type whatever lies between 2 and 15. *)
Theorem penalty_tables_agree :
  (forall e k dim amt,
     find (fun kv => String.eqb (fst kv) e) penalties = Some (k, (dim, amt)) ->
     get_violation_penalty e = amt) /\
  (forall e, 2 <= get_violation_penalty e <= 15).
Proof.
  split.
  - intros e k dim amt H. now apply penalties_entry in H.
  - intros e. unfold get_violation_penalty.
    destruct (find _ _) as [[k a]|] eqn:F; [|split; discriminate].
    apply find_some in F. destruct F as [Hin _]. cbn [In] in Hin.
    repeat (destruct Hin as [Hin|Hin];
            [injection Hin as <- <-; split; discriminate|]).
    destruct Hin.
Qed.

End TrustScoreFacts.

(* ===================================================================== *)
(** ** utils/hmac.py: further properties                                  *)
(* ===================================================================== *)

Module HmacFacts.

Import Hmac.
#[local] Open Scope string_scope.
#[local] Open Scope list_scope.

Lemma round_length (st : list N) (kw : N * N) :
  length (Sha256.round st kw) = length st.
Proof.
  unfold Sha256.round.
  do 9 (destruct st as [|? st]; [reflexivity|]). reflexivity.
Qed.

Lemma compress_length (h block : list N) :
  length (Sha256.compress h block) = length h.
Proof.
  unfold Sha256.compress. rewrite length_map, length_combine.
  set (kw := combine Sha256.K _). clearbody kw.
  assert (H : forall st, length (fold_left Sha256.round kw st) = length st).
  { induction kw as [|x kw IH]; intros st; [reflexivity|].
    cbn [fold_left]. now rewrite IH, round_length. }
  rewrite H. lia.
Qed.

(** A digest has 32 bytes. *)
Lemma sha256_length (msg : list N) : length (Sha256.sha256 msg) = 32%nat.
Proof.
  unfold Sha256.sha256.
  set (blocks := Sha256.chunks _ _ _). clearbody blocks.
  assert (H : forall h, length h = 8%nat ->
                length (fold_left Sha256.compress blocks h) = 8%nat).
  { induction blocks as [|b blocks IH]; intros h Hh; [exact Hh|].
    cbn [fold_left]. apply IH. now rewrite compress_length. }
  specialize (H Sha256.H0 eq_refl).
  destruct (fold_left Sha256.compress blocks Sha256.H0)
    as [|a [|b [|c [|d [|e [|f [|g [|h [|i l]]]]]]]]]; try discriminate H.
  reflexivity.
Qed.

Lemma hex_length (bytes : list N) :
  String.length (Sha256.hex bytes) = (2 * length bytes)%nat.
Proof.
  induction bytes as [|b rest IH]; [reflexivity|].
  cbn [Sha256.hex String.length length]. rewrite IH. lia.
Qed.

(** The digits [bytes.hex()] prints. *)
Definition is_lower_hex (c : ascii) : bool :=
  let n := N_of_ascii c in
  ((48 <=? n) && (n <=? 57) || (97 <=? n) && (n <=? 102))%N.

Lemma hex_digit_lower (d : N) :
  (d < 16)%N -> is_lower_hex (Sha256.hex_digit d) = true.
Proof.
  intros H. unfold is_lower_hex, Sha256.hex_digit.
  destruct (d <? 10)%N eqn:E; rewrite N_ascii_embedding by
    (try apply N.ltb_lt in E; try apply N.ltb_ge in E; lia).
  - apply N.ltb_lt in E. apply orb_true_iff. left.
    apply andb_true_iff. split; apply N.leb_le; lia.
  - apply N.ltb_ge in E. apply orb_true_iff. right.
    apply andb_true_iff. split; apply N.leb_le; lia.
Qed.

Lemma hex_lower (bytes : list N) :
  Forall (fun b => (b < 256)%N) bytes ->
  forallb is_lower_hex (list_ascii_of_string (Sha256.hex bytes)) = true.
Proof.
  induction 1 as [|b rest Hb _ IH]; [reflexivity|].
  cbn [Sha256.hex list_ascii_of_string forallb].
  destruct (nibbles b) as [Sh La]. change 15%N with 0xf%N in La.
  rewrite Sh, La, IH, !hex_digit_lower; [reflexivity| |].
  - now apply N.mod_lt.
  - apply N.Div0.div_lt_upper_bound. lia.
Qed.

Lemma verify_event_own (key : string) (p : Payload) :
  verify_event key p (sign_event key p) = Some true.
Proof.
  unfold verify_event, compare_digest.
  now rewrite sign_event_ascii, String.eqb_refl.
Qed.

Lemma sign_event_length (key : string) (p : Payload) :
  String.length (sign_event key p) = 64%nat.
Proof.
  unfold sign_event, Sha256.hmac_hexdigest, Sha256.hmac.
  now rewrite hex_length, sha256_length.
Qed.

(** X6. A signature is always 64 lower-case hexadecimal digits.
    [verify_event] accepts a candidate exactly when it is that text,
    character for character; it raises [TypeError] (no answer) exactly when
    the candidate is not ASCII; so a candidate of another length, the empty
    one included, is never accepted. *)
Theorem verify_event_exact (key : string) (p : Payload) (candidate : string) :
  (String.length (sign_event key p) = 64%nat /\
   forallb is_lower_hex (list_ascii_of_string (sign_event key p)) = true) /\
  (verify_event key p candidate = Some true <-> candidate = sign_event key p) /\
  (verify_event key p candidate = None <-> is_ascii candidate = false) /\
  (String.length candidate <> 64%nat ->
   verify_event key p candidate <> Some true).
Proof.
  assert (Hiff : verify_event key p candidate = Some true
                 <-> candidate = sign_event key p).
  { split.
    - unfold verify_event, compare_digest. rewrite sign_event_ascii.
      cbn [andb]. destruct (is_ascii candidate); [|discriminate].
      intros [= E]. apply String.eqb_eq in E. now symmetry.
    - intros ->. apply verify_event_own. }
  split; [split; [apply sign_event_length | apply hex_lower, sha256_bytes]|].
  split; [exact Hiff|]. split.
  - unfold verify_event, compare_digest. rewrite sign_event_ascii.
    cbn [andb]. destruct (is_ascii candidate); split; congruence.
  - intros Hlen Hacc. apply Hiff in Hacc. subst candidate.
    now rewrite sign_event_length in Hlen.
Qed.

End HmacFacts.

(* ===================================================================== *)
(** ** routers/attempts.py: log_event                                     *)
(* ===================================================================== *)

Module Attempts.

#[local] Open Scope string_scope.
#[local] Open Scope list_scope.

(** [EventCreate]; the attempt the event is filed under comes from the
    path, not from the body. *)
Record EventCreate : Set := mkEventCreate {
  event_type : string;
  event_data : option Hmac.Payload;
  confidence_score : option Q;
  hmac_signature : option string
}.

(** A row of [events] as [log_event] fills it in. *)
Record Event : Set := mkEvent {
  ev_attempt_id : string;
  ev_event_type : string;
  ev_event_data : option Hmac.Payload;
  ev_confidence_score : option Q;
  ev_hmac_signature : option string
}.

Inductive Outcome (A : Type) : Type :=
  | Returned (a : A)
  | HTTPException (status_code : Z) (detail : string)
  | Raised (e : Py.Exn).
Arguments Returned {A} a.
Arguments HTTPException {A} status_code detail.
Arguments Raised {A} e.

(** Truth value of an optional string and of an optional dictionary:
    [None] and the empty value are falsy. *)
Definition truthy_str (s : option string) : bool :=
  match s with Some s => Py.nonempty s | None => false end.

Definition truthy_dict (d : option Hmac.Payload) : bool :=
  match d with Some (_ :: _) => true | _ => false end.

Section Router.

(** [settings.HMAC_SECRET_KEY] *)
Variable HMAC_SECRET_KEY : string.

(** [POST /api/attempts/{attempt_id}/events], on the table of events. *)
Definition log_event (attempt_id : string) (data : EventCreate)
    (events : list Event) : Outcome Event * list Event :=
  let store :=
    let event :=
      {| ev_attempt_id := attempt_id;
         ev_event_type := event_type data;
         ev_event_data := event_data data;
         ev_confidence_score := confidence_score data;
         ev_hmac_signature := hmac_signature data |} in
    (Returned event, events ++ [event]) in
  if truthy_str (hmac_signature data) && truthy_dict (event_data data) then
    match Hmac.verify_event HMAC_SECRET_KEY
            (default [] (event_data data))
            (default "" (hmac_signature data)) with
    | None => (Raised Py.TypeError, events)
    | Some false => (HTTPException 400 "Invalid event signature", events)
    | Some true => store
    end
  else store.

(** *** Properties *)

(** X7. [log_event] either stores exactly the event it returns or stores
    nothing.  A non-empty payload with a non-empty signature is stored
    exactly when the signature is the one [sign_event] computes for it; it is
    answered with status 400 when the signature is another ASCII text, and
    raises [TypeError] when it is not ASCII.  A request whose payload is
    missing or empty, or whose signature is missing or empty, is stored
    without any check, whatever the other field holds. *)
Theorem log_event_spec (attempt_id : string) (data : EventCreate)
    (events : list Event) :
  let out := fst (log_event attempt_id data events) in
  let events' := snd (log_event attempt_id data events) in
  let event :=
    {| ev_attempt_id := attempt_id; ev_event_type := event_type data;
       ev_event_data := event_data data;
       ev_confidence_score := confidence_score data;
       ev_hmac_signature := hmac_signature data |} in
  (out = Returned event /\ events' = events ++ [event]
   \/ out <> Returned event /\ events' = events) /\
  (forall payload signature,
     event_data data = Some payload -> payload <> [] ->
     hmac_signature data = Some signature -> signature <> "" ->
     (out = Returned event
      <-> signature = Hmac.sign_event HMAC_SECRET_KEY payload) /\
     (out = HTTPException 400 "Invalid event signature"
      <-> Hmac.is_ascii signature = true
          /\ signature <> Hmac.sign_event HMAC_SECRET_KEY payload) /\
     (out = Raised Py.TypeError <-> Hmac.is_ascii signature = false)) /\
  (truthy_dict (event_data data) = false
   \/ truthy_str (hmac_signature data) = false ->
   out = Returned event).
Proof.
  intros out events' event. subst out events'. unfold log_event. fold event.
  split; [|split].
  - destruct (_ && _); [|now left].
    destruct (Hmac.verify_event _ _ _) as [[|]|];
      [now left | right; split; [discriminate | reflexivity] ..].
  - intros payload signature Hp Hne Hs Hsne. rewrite Hp, Hs.
    destruct payload as [|kv payload]; [contradiction|].
    destruct signature as [|c signature]; [contradiction|].
    cbn [truthy_str truthy_dict Py.nonempty andb default]. unfold id.
    set (sig := String c signature). set (pl := kv :: payload).
    unfold Hmac.verify_event, Hmac.compare_digest.
    rewrite Hmac.sign_event_ascii. cbn [andb].
    destruct (Hmac.is_ascii sig) eqn:Ha.
    + destruct (String.eqb (Hmac.sign_event HMAC_SECRET_KEY pl) sig) eqn:E.
      * apply String.eqb_eq in E.
        split; [split; [now intros _ | reflexivity]|].
        split; split; try discriminate. intros [_ H]. now symmetry in E.
      * apply String.eqb_neq in E.
        split; [split; [discriminate | intros H; now symmetry in H]|].
        split; split; try discriminate; try reflexivity.
        intros _. split; [reflexivity | congruence].
    + split; [split; [discriminate|]|].
      * intros E.
        pose proof (Hmac.sign_event_ascii HMAC_SECRET_KEY pl) as Hs'.
        rewrite <- E in Hs'. congruence.
      * split; split; try discriminate; try reflexivity.
        intros [H _]. discriminate.
  - intros [H|H]; rewrite H, ?andb_false_r; reflexivity.
Qed.

End Router.

End Attempts.

(* ===================================================================== *)
(** ** services/sandbox.py: further properties                            *)
(* ===================================================================== *)

Module SandboxFacts.

Import Sandbox.
#[local] Open Scope string_scope.
#[local] Open Scope list_scope.

(** The dictionary [SandboxResult.to_dict] builds. *)
Record ResultDict : Set := mkResultDict {
  d_stdout : string;
  d_stderr : string;
  d_exit_code : Z;
  d_timed_out : bool;
  d_execution_time : Q
}.

Definition to_dict (self : SandboxResult) : ResultDict :=
  {| d_stdout := Py.take 5000 (stdout self);
     d_stderr := Py.take 2000 (stderr self);
     d_exit_code := exit_code self;
     d_timed_out := timed_out self;
     d_execution_time := Py.round (execution_time self) 3 |}.

Definition is_exec (c : Call) : bool :=
  match c with CExec _ _ _ _ => true | _ => false end.

Ltac munfold :=
  unfold mbind, mret, M_bind, M_ret, _check_docker_available, call_docker_info,
    call_uuid4, call_exec, call in *.

Ltac in_cases H :=
  repeat (apply elem_of_cons in H; destruct H as [H|H]);
  try (apply elem_of_nil in H; destruct H).

Section Engine.

Variable os : OS.
Variable settings : Settings.

#[local] Abbreviation execute_code := (execute_code os settings).
#[local] Abbreviation execute_code_docker := (execute_code_docker os settings).
#[local] Abbreviation execute_code_subprocess := (execute_code_subprocess os settings).
#[local] Abbreviation run_test_cases := (run_test_cases os settings).


(** X9. Code that contains a pattern of the denylist is refused by the
    fallback whatever its language tag: no process is started (the trace is
    unchanged), the exit code is 1 and stderr names the first listed pattern
    that occurs.  [execute_code] consults the denylist only when the Docker
    probe fails; when it succeeds the same code is handed to a container. *)
Theorem blocked_code_is_refused (code language stdin_data pattern : string)
    (timeout : option Z) (t : list Call) :
  find (fun pattern => Py.contains pattern code) dangerous_patterns
  = Some pattern ->
  let blocked :=
    {| stdout := "";
       stderr := "Blocked: '" ++ pattern ++ "' is not allowed in sandbox mode";
       exit_code := 1; timed_out := false; execution_time := 0 |} in
  (pattern ∈ dangerous_patterns /\ Py.contains pattern code = true) /\
  execute_code_subprocess code language stdin_data timeout t = (blocked, t) /\
  (docker_info os t = false ->
   execute_code code language stdin_data timeout t
   = (blocked, t ++ [CDockerInfo])) /\
  (docker_info os t = true ->
   exists argv stdin cwd timeout',
     CExec argv stdin cwd timeout'
     ∈ snd (execute_code code language stdin_data timeout t)
     /\ last argv = Some code).
Proof.
  intros Hf blocked. split; [|split; [|split]].
  - apply find_some in Hf. destruct Hf as [Hin Hc].
    split; [now apply list_elem_of_In | exact Hc].
  - unfold Sandbox.execute_code_subprocess. now rewrite Hf.
  - intros Hd. unfold Sandbox.execute_code. munfold. rewrite Hd.
    unfold Sandbox.execute_code_subprocess. now rewrite Hf.
  - intros Hd. unfold Sandbox.execute_code. munfold. rewrite Hd.
    unfold Sandbox.execute_code_docker. munfold.
    set (name := ("pf-sandbox-" ++ Py.take 12 (uuid4_hex os (t ++ [CDockerInfo])%list))%string).
    exists (docker_cmd settings name code language), (stdin_pipe stdin_data),
      None, (timeout_or settings timeout).
    split; [|apply docker_cmd_last].
    destruct (exec os _ _ _ _ _); cbn [snd]; set_solver.
Qed.

(** The calls one [execute_code] makes after its probe. *)
Lemma execute_code_calls (code language stdin_data : string)
    (timeout : option Z) (t : list Call) :
  exists calls,
    snd (execute_code code language stdin_data timeout t)
    = t ++ CDockerInfo :: calls /\
    let r := fst (execute_code code language stdin_data timeout t) in
    (calls = [] /\ timed_out r = false /\ exit_code r = 1%Z) \/
    (exists argv cwd name,
       let run := CExec argv (stdin_pipe stdin_data) cwd
                    (timeout_or settings timeout) in
       last argv = Some code /\
       (calls = [run] /\ timed_out r = false \/
        calls = [run; CProcKill] /\ r = timed_out_result (timeout_or settings timeout) \/
        name = ("pf-sandbox-"
                ++ Py.take 12 (uuid4_hex os (t ++ [CDockerInfo])%list))%string /\
        name ∈ argv /\
        (calls = [CUuid4; run] /\ timed_out r = false \/
         calls = [CUuid4; run; CDockerKill name] /\
         r = timed_out_result (timeout_or settings timeout)))).
Proof.
  unfold Sandbox.execute_code. munfold.
  destruct (docker_info os t).
  - unfold Sandbox.execute_code_docker. munfold.
    set (name := ("pf-sandbox-" ++ Py.take 12 (uuid4_hex os (t ++ [CDockerInfo])%list))%string).
    assert (Hname : name ∈ docker_cmd settings name code language).
    { unfold docker_cmd. rewrite elem_of_app. left.
      do 4 apply list_elem_of_further. apply list_elem_of_here. }
    destruct (exec os _ _ _ _ _) eqn:E; cbn [fst snd];
      rewrite <- ?app_assoc; cbn [app]; eexists; (split; [reflexivity|]);
      right; exists (docker_cmd settings name code language), None, name;
      (split; [apply docker_cmd_last|]); right; right;
      (split; [reflexivity|]); (split; [exact Hname|]);
      [left | right | left]; split; reflexivity.
  - unfold Sandbox.execute_code_subprocess. munfold.
    destruct (find _ dangerous_patterns).
    + exists []. split; [reflexivity|]. left. repeat split.
    + destruct (exec os _ _ _ _ _) eqn:E; cbn [fst snd];
        rewrite <- ?app_assoc; cbn [app]; eexists; (split; [reflexivity|]);
        right; exists (subprocess_cmd settings code language),
                 (Some (tempdir settings)), "";
        (split; [apply subprocess_cmd_last|]);
        [left | right; left | left]; split; reflexivity.
Qed.

(** The process [execute_code] starts, if any. *)
Lemma execute_code_runs (code language stdin_data : string)
    (timeout : option Z) (t : list Call) :
  exists calls,
    snd (execute_code code language stdin_data timeout t)
    = t ++ CDockerInfo :: calls /\
    (length (filter is_exec calls) <= 1)%nat /\
    probes calls = 0%nat /\
    (forall argv stdin cwd timeout',
       CExec argv stdin cwd timeout' ∈ calls ->
       last argv = Some code /\ stdin = stdin_pipe stdin_data /\
       timeout' = timeout_or settings timeout).
Proof.
  destruct (execute_code_calls code language stdin_data timeout t)
    as (calls & Ht & Hshape).
  exists calls. split; [exact Ht|]. cbn zeta in Hshape.
  destruct Hshape as [(-> & _)
                     |(argv & cwd & name & Hlast &
                       [[-> _]|[[-> _]|(_ & _ & [[-> _]|[-> _]])]])].
  all: split; [vm_compute; lia|].
  all: split; [reflexivity|].
  all: intros ? ? ? ? H; in_cases H; try discriminate;
    injection H as -> -> -> ->; auto.
Qed.

(** X10. One [execute_code] probes for Docker first, then starts at most one
    process, which gets the code as its last argument, the requested stdin
    and the effective timeout; a kill is requested exactly when the result
    says [timed_out], it is the last call, and under Docker it names the
    container that was started. *)
Theorem execute_code_trace_shape (code language stdin_data : string)
    (timeout : option Z) (t : list Call) :
  let r := fst (execute_code code language stdin_data timeout t) in
  exists calls,
    snd (execute_code code language stdin_data timeout t)
    = t ++ CDockerInfo :: calls /\
    (length (filter is_exec calls) <= 1)%nat /\
    (forall argv stdin cwd timeout',
       CExec argv stdin cwd timeout' ∈ calls ->
       last argv = Some code /\ stdin = stdin_pipe stdin_data /\
       timeout' = timeout_or settings timeout) /\
    (timed_out r = true <-> exists c, c ∈ calls /\ is_kill c = true) /\
    (forall c, c ∈ calls -> is_kill c = true -> last calls = Some c) /\
    (forall name, CDockerKill name ∈ calls ->
       exists argv stdin cwd timeout',
         CExec argv stdin cwd timeout' ∈ calls /\ name ∈ argv) /\
    (timed_out r = true -> exit_code r = 124%Z /\ stdout r = "").
Proof.
  intros r.
  destruct (execute_code_calls code language stdin_data timeout t)
    as (calls & Ht & Hshape).
  exists calls. split; [exact Ht|]. cbn zeta in Hshape. fold r in Hshape.
  destruct Hshape as [(-> & Hto & Hex)
                     |(argv & cwd & name & Hlast &
                       [[-> Hto]|[[-> Hr]|(Hn & Hin & [[-> Hto]|[-> Hr]])]])].
  all: split; [vm_compute; lia|].
  all: split; [intros ? ? ? ? H; in_cases H; try discriminate;
               injection H as -> -> -> ->; auto|].
  all: split;
    [first [rewrite Hto; (split; [discriminate|]);
            intros (c & H & Hk); in_cases H; subst c; discriminate
           |rewrite Hr; (split; [intros _|reflexivity]);
            first [exists CProcKill; (split; [set_solver|reflexivity])
                  |exists (CDockerKill name); (split; [set_solver|reflexivity])]]|].
  all: split; [intros c H Hk; in_cases H; subst c; try discriminate; reflexivity|].
  all: split; [intros n H; in_cases H; try discriminate;
               injection H as ->; do 4 eexists; (split; [|exact Hin]);
               apply list_elem_of_further, list_elem_of_here|].
  all: first [rewrite Hto; discriminate | rewrite Hr; intros _; split; reflexivity].
Qed.

(** The report, from the entries the loop appended. *)
Lemma run_test_cases_report (code language : string) (tcs : list TestCase)
    (t : list Call) :
  exists new calls,
    run_test_cases code tcs language t
    = ({| total := length tcs;
          n_passed := length (filter passed new);
          failed := Z.of_nat (length tcs)
                    - Z.of_nat (length (filter passed new));
          score := score_of (length (filter passed new)) (length tcs);
          results := new |},
       t ++ calls) /\
    length new = length tcs /\ probes calls = length tcs /\
    (length (filter passed new) <= length tcs)%nat.
Proof.
  destruct (run_loop_spec os settings code language tcs 0 [] 0 t)
    as (new & E & L & _).
  destruct (executions_trace os settings code language tcs t)
    as (_ & calls & Ec & Pc).
  exists new, calls. split; [|split; [exact L|split; [exact Pc|]]].
  - unfold Sandbox.run_test_cases. munfold. now rewrite E, Ec.
  - rewrite <- L. apply length_filter.
Qed.

Lemma score_of_bounds (p n : nat) :
  (p <= n)%nat -> (0 <= score_of p n <= 100)%Q.
Proof.
  intros Hle. unfold score_of. destruct (0 <? n)%nat eqn:Hn; [|split; discriminate].
  apply Nat.ltb_lt in Hn.
  assert (Hpos : (0 < inject_Z (Z.of_nat n))%Q)
    by (change 0%Q with (inject_Z 0); rewrite <- Zlt_Qlt; lia).
  assert (H0 : (0 <= inject_Z (Z.of_nat p) / inject_Z (Z.of_nat n))%Q).
  { apply Qle_shift_div_l; [exact Hpos|]. rewrite Qmult_0_l.
    change 0%Q with (inject_Z 0). rewrite <- Zle_Qle. lia. }
  assert (H1 : (inject_Z (Z.of_nat p) / inject_Z (Z.of_nat n) <= 1)%Q).
  { apply Qle_shift_div_r; [exact Hpos|]. rewrite Qmult_1_l.
    rewrite <- Zle_Qle. lia. }
  set (q := (inject_Z (Z.of_nat p) / inject_Z (Z.of_nat n))%Q) in *.
  assert (Hq : (0 <= F64.div (inject_Z (Z.of_nat p)) (inject_Z (Z.of_nat n))
                <= 1)%Q).
  { split; [now apply F64.rnd_nonneg | now apply (F64.rnd_mono q 1)]. }
  fold q in Hq. set (d := F64.div _ _) in *.
  assert (Hm : (0 <= F64.mul d 100 <= 100)%Q).
  { split; [apply F64.rnd_nonneg; lra|].
    apply Qle_trans with (F64.rnd 100); [apply F64.rnd_mono; lra|].
    vm_compute. discriminate. }
  split.
  - apply Qle_trans with (F64.round 0 1); [discriminate|].
    apply F64.round_monotone, Hm.
  - apply Qle_trans with (F64.round 100 1); [|vm_compute; discriminate].
    apply F64.round_monotone, Hm.
Qed.

Lemma score_of_full (n : nat) : (0 < n)%nat -> (score_of n n == 100)%Q.
Proof.
  intros Hn. unfold score_of. apply Nat.ltb_lt in Hn as Hb. rewrite Hb.
  assert (Hne : ~ (inject_Z (Z.of_nat n) == 0)%Q).
  { change 0%Q with (inject_Z 0). rewrite inject_Z_injective. lia. }
  assert (E : (inject_Z (Z.of_nat n) / inject_Z (Z.of_nat n) == 1)%Q)
    by (field; exact Hne).
  unfold F64.div. rewrite (F64.rnd_proper _ _ E). vm_compute. reflexivity.
Qed.

(** X11. The report of [run_test_cases] is consistent whatever the
    environment answers: passed never exceeds total, failed is their
    difference and not negative, the score lies in [0,100], is 100 when every
    case of a non-empty list passed and 0 when none did; entries are numbered
    from 1 in order, a case that timed out never passes, and a reported
    stderr is non-empty and at most 200 characters long. *)
Theorem run_test_cases_invariants (code language : string)
    (tcs : list TestCase) (t : list Call) :
  let rep := fst (run_test_cases code tcs language t) in
  ((n_passed rep <= total rep)%nat /\ (0 <= failed rep)%Z /\
   (failed rep + Z.of_nat (n_passed rep) = Z.of_nat (total rep))%Z) /\
  ((0 <= score rep <= 100)%Q /\
   (n_passed rep = total rep -> (0 < total rep)%nat -> (score rep == 100)%Q) /\
   (n_passed rep = 0%nat -> (score rep == 0)%Q)) /\
  (forall j e, results rep !! j = Some e ->
     test_case e = S j /\
     (case_timed_out e = true -> passed e = false) /\
     match case_stderr e with
     | Some s => s <> "" /\ (String.length s <= 200)%nat
     | None => True
     end).
Proof.
  intros rep.
  destruct (run_loop_spec os settings code language tcs 0 [] 0 t)
    as (new & E & L & Hn).
  destruct (executions_trace os settings code language tcs t) as (Lrs & _).
  assert (Erep : rep = {| total := length tcs;
                          n_passed := length (filter passed new);
                          failed := Z.of_nat (length tcs)
                                    - Z.of_nat (length (filter passed new));
                          score := score_of (length (filter passed new))
                                     (length tcs);
                          results := new |}).
  { unfold rep, Sandbox.run_test_cases. munfold. now rewrite E. }
  rewrite Erep. cbn [total n_passed failed score results].
  assert (Hle : (length (filter passed new) <= length tcs)%nat)
    by (rewrite <- L; apply length_filter).
  split; [|split].
  - split; [exact Hle|]. lia.
  - split; [now apply score_of_bounds|].
    split; [intros -> Hpos; now apply score_of_full|].
    intros ->. apply score_of_zero.
  - intros j e Hj.
    assert (Hlt : (j < length tcs)%nat)
      by (rewrite <- L; eapply lookup_lt_Some; eauto).
    destruct (lookup_lt_is_Some_2 tcs j Hlt) as [tc Htc].
    destruct (lookup_lt_is_Some_2
                (fst (executions os settings code language tcs t)) j)
      as [r Hr]; [now rewrite Lrs|].
    rewrite (Hn j tc r Htc Hr) in Hj. injection Hj as <-.
    cbn [grade test_case passed case_timed_out case_stderr Nat.add].
    split; [lia|]. split.
    + intros Hto. unfold test_passed. rewrite Hto. apply andb_false_r.
    + destruct (stderr r) as [|c s] eqn:Es; cbn [Py.nonempty]; [exact I|].
      split.
      * intros Hnil. apply (f_equal String.length) in Hnil.
        rewrite PyFacts.take_length in Hnil. cbn in Hnil. lia.
      * rewrite PyFacts.take_length. lia.
Qed.

End Engine.

(** A submission that imports [os], refused by the fallback. *)
Lemma blocked_code_example :
  let code := "import os" in
  let blocked :=
    {| stdout := "";
       stderr := "Blocked: 'import os' is not allowed in sandbox mode";
       exit_code := 1; timed_out := false; execution_time := 0 |} in
  ("import os" ∈ dangerous_patterns /\ Py.contains "import os" code = true) /\
  Sandbox.execute_code_subprocess adder_os default_settings code "javascript"
    "" None [] = (blocked, []) /\
  (docker_info adder_os [] = false ->
   Sandbox.execute_code adder_os default_settings code "javascript" "" None []
   = (blocked, [CDockerInfo])) /\
  (docker_info adder_os [] = true ->
   exists argv stdin cwd timeout',
     CExec argv stdin cwd timeout'
     ∈ snd (Sandbox.execute_code adder_os default_settings code "javascript"
              "" None [])
     /\ last argv = Some code).
Proof.
  apply (blocked_code_is_refused adder_os default_settings "import os"
           "javascript" "" "import os" None []).
  reflexivity.
Defined.

End SandboxFacts.

(* ===================================================================== *)
(** ** routers/code_execution.py                                          *)
(* ===================================================================== *)

Module CodeExecution.

Import Sandbox SandboxFacts.
#[local] Open Scope string_scope.
#[local] Open Scope list_scope.

(** How a handler ends: it returns, raises [HTTPException], or [UUID(...)]
    raises [ValueError] on a malformed identifier. *)
Inductive Outcome (A : Type) : Type :=
  | Returned (a : A)
  | HTTPException (status_code : Z) (detail : string)
  | ValueError.
Arguments Returned {A} a.
Arguments HTTPException {A} status_code detail.
Arguments ValueError {A}.

(** The request body [data: dict]; each key is absent or holds a string. *)
Record CodeRequest : Set := mkCodeRequest {
  req_code : option string;
  req_language : option string;
  req_stdin : option string
}.

(** The [test_results] of a submission: the report of [run_test_cases], or
    the dictionary built when the question has no test cases, whose
    ["total"], ["passed"] and ["score"] are 0. *)
Inductive TestResults : Set :=
  | Graded (report : Report)
  | Ran (output : ResultDict).

(** [test_results.get("score", 0)] *)
Definition score_get (tr : TestResults) : Q :=
  match tr with Graded rep => score rep | Ran _ => 0 end.

(** [test_results["total"]] *)
Definition total_get (tr : TestResults) : nat :=
  match tr with Graded rep => total rep | Ran _ => 0 end.

(** A row of [questions]: the JSON column [test_cases] may be NULL. *)
Record Question : Set := mkQuestion {
  test_cases : option (list TestCase)
}.

(** A row of [code_submissions] as the handler fills it in. *)
Record CodeSubmission : Set := mkCodeSubmission {
  sub_attempt_id : string;
  sub_question_id : string;
  sub_language : string;
  sub_code : string;
  sub_test_results : TestResults;
  sub_score : Q;
  submitted_at : Z
}.

Record Store : Type := mkStore {
  attempts : gmap string Monitoring.Attempt;
  questions : gmap string Question;
  submissions : list CodeSubmission
}.

Section Router.

Variable os : OS.
Variable settings : Settings.

(** [UUID(s)]: the identifier in canonical form, or [None] for
    [ValueError]. *)
Variable UUID : string -> option string.

#[local] Abbreviation execute_code := (execute_code os settings).
#[local] Abbreviation run_test_cases := (run_test_cases os settings).

(** [POST /api/code/run] *)
Definition run_code (data : CodeRequest) : M (Outcome ResultDict) :=
  let code := default "" (req_code data) in
  let language := default "python" (req_language data) in
  let stdin_data := default "" (req_stdin data) in
  if negb (Py.nonempty (Py.strip code))
  then mret (HTTPException 400 "No code provided")
  else
    result ← execute_code code language stdin_data (Some 15%Z);
    mret (Returned (to_dict result)).

(** [POST /api/code/submit/{attempt_id}/{question_id}]; [now] is
    [datetime.utcnow()].  The identifier the database gives the new row is
    not part of the model. *)
Definition submit_code (attempt_id question_id : string) (data : CodeRequest)
    (current_user : string) (now : Z) (st : Store)
    : M (Outcome TestResults * Store) :=
  let code := default "" (req_code data) in
  let language := default "python" (req_language data) in
  if negb (Py.nonempty (Py.strip code))
  then mret (HTTPException 400 "No code provided", st)
  else
    match UUID attempt_id with
    | None => mret (ValueError, st)
    | Some aid =>
        match Monitoring.owned_attempt aid current_user
                {| Monitoring.attempts := attempts st;
                   Monitoring.events := [] |} with
        | None => mret (HTTPException 404 "Attempt not found", st)
        | Some _ =>
            match UUID question_id with
            | None => mret (ValueError, st)
            | Some qid =>
                match questions st !! qid with
                | None => mret (HTTPException 404 "Question not found", st)
                | Some question =>
                    let test_cases_ := default [] (test_cases question) in
                    test_results ←
                      match test_cases_ with
                      | _ :: _ =>
                          rep ← run_test_cases code test_cases_ language;
                          mret (Graded rep)
                      | [] =>
                          exec_result ← execute_code code language ""
                                          (Some 15%Z);
                          mret (Ran (to_dict exec_result))
                      end;
                    let submission :=
                      {| sub_attempt_id := aid; sub_question_id := qid;
                         sub_language := language; sub_code := code;
                         sub_test_results := test_results;
                         sub_score := score_get test_results;
                         submitted_at := now |} in
                    mret (Returned test_results,
                          {| attempts := attempts st;
                             questions := questions st;
                             submissions := submissions st ++ [submission] |})
                end
            end
        end
    end.

(** *** Properties *)

(** X12. [run_code] refuses code that is empty or all white space with
    status 400 before anything is asked of the operating system; any other
    code is run exactly once by [execute_code], as Python when no language
    is given, with a timeout of 15 seconds whatever the configured default,
    and the response is the capped dictionary of that run. *)
Theorem run_code_spec (data : CodeRequest) (t : list Call) :
  let code := default "" (req_code data) in
  let language := default "python" (req_language data) in
  let stdin_data := default "" (req_stdin data) in
  (Py.strip code = "" ->
   run_code data t = (HTTPException 400 "No code provided", t)) /\
  (Py.strip code <> "" ->
   exists r calls,
     execute_code code language stdin_data (Some 15%Z) t
     = (r, t ++ CDockerInfo :: calls) /\
     run_code data t = (Returned (to_dict r), t ++ CDockerInfo :: calls) /\
     (length (filter is_exec calls) <= 1)%nat /\
     (forall argv stdin cwd timeout',
        CExec argv stdin cwd timeout' ∈ calls ->
        last argv = Some code /\ timeout' = 15%Z) /\
     (String.length (d_stdout (to_dict r)) <= 5000)%nat /\
     (String.length (d_stderr (to_dict r)) <= 2000)%nat).
Proof.
  intros code language stdin_data. unfold run_code. fold code language stdin_data.
  split.
  - intros ->. reflexivity.
  - intros Hne.
    destruct (Py.strip code) eqn:Es; [contradiction|]. cbn [Py.nonempty negb].
    destruct (execute_code_runs os settings code language stdin_data
                (Some 15%Z) t) as (calls & Ht & Hone & _ & Hexec).
    destruct (execute_code code language stdin_data (Some 15%Z) t)
      as [r t'] eqn:Er. cbn [snd] in Ht. subst t'.
    exists r, calls. munfold. rewrite Er.
    split; [reflexivity|]. split; [reflexivity|]. split; [exact Hone|].
    split.
    + intros argv stdin cwd timeout' Hin.
      destruct (Hexec argv stdin cwd timeout' Hin) as (Hl & _ & Hto).
      split; [exact Hl | exact Hto].
    + cbn [to_dict d_stdout d_stderr]. rewrite !PyFacts.take_length. lia.
Qed.

(** X13. [submit_code] stores a submission only when it returns: every
    error path (blank code, malformed identifier, attempt missing or owned by
    someone else, question missing) leaves the store untouched and runs
    nothing.  When it returns, the attempt belongs to the requester, exactly
    one row is appended, its score is the score of the returned results and
    lies in [0,100], and the sandbox was probed once per test case, or once
    when the question has none. *)
Theorem submit_code_effects (attempt_id question_id : string)
    (data : CodeRequest) (current_user : string) (now : Z) (st : Store)
    (t : list Call) :
  let code := default "" (req_code data) in
  let res := submit_code attempt_id question_id data current_user now st t in
  match fst (fst res) with
  | Returned tr =>
      exists aid qid a q sub calls,
        (Py.strip code <> "" /\
         UUID attempt_id = Some aid /\ attempts st !! aid = Some a /\
         Monitoring.user_id a = current_user /\
         UUID question_id = Some qid /\ questions st !! qid = Some q) /\
        (snd (fst res)
         = {| attempts := attempts st; questions := questions st;
              submissions := submissions st ++ [sub] |} /\
         sub_attempt_id sub = aid /\ sub_question_id sub = qid /\
         sub_code sub = code /\ sub_test_results sub = tr /\
         sub_score sub = score_get tr /\ (0 <= sub_score sub <= 100)%Q) /\
        (snd res = t ++ calls /\
         total_get tr = length (default [] (test_cases q)) /\
         probes calls = Nat.max 1 (total_get tr))
  | _ => snd (fst res) = st /\ snd res = t
  end.
Proof.
  intros code res. unfold res, submit_code. fold code.
  destruct (Py.strip code) as [|c0 s0] eqn:Es; cbn [Py.nonempty negb];
    [now split|].
  destruct (UUID attempt_id) as [aid|] eqn:Ea; [|now split].
  unfold Monitoring.owned_attempt. cbn [Monitoring.attempts].
  destruct (attempts st !! aid) as [a|] eqn:Eat; [|now split].
  destruct (String.eqb (Monitoring.user_id a) current_user) eqn:Eu; [|now split].
  apply String.eqb_eq in Eu.
  destruct (UUID question_id) as [qid|] eqn:Eq; [|now split].
  destruct (questions st !! qid) as [q|] eqn:Eqs; [|now split].
  destruct (default [] (test_cases q)) as [|tc tcs] eqn:Etc.
  - munfold.
    destruct (execute_code_runs os settings code (default "python" (req_language data))
                "" (Some 15%Z) t) as (calls & Ht & _ & Hp & _).
    destruct (execute_code code _ "" (Some 15%Z) t) as [r t'].
    cbn [snd] in Ht. subst t'. cbn [fst snd].
    exists aid, qid, a, q. eexists. exists (CDockerInfo :: calls).
    split; [repeat split; auto; congruence|].
    split; [repeat split; discriminate|].
    split; [reflexivity|]. split; [now rewrite Etc|].
    change (CDockerInfo :: calls) with ([CDockerInfo] ++ calls).
    rewrite probes_app, Hp. reflexivity.
  - munfold.
    destruct (run_test_cases_report os settings code
                (default "python" (req_language data)) (tc :: tcs) t)
      as (new & calls & Er & L & Pc & Hle).
    rewrite Er. cbn [fst snd].
    exists aid, qid, a, q. eexists. exists calls.
    split; [repeat split; auto; congruence|].
    split.
    { split; [reflexivity|]. do 5 (split; [reflexivity|]).
      cbn [sub_score score_get score]. now apply score_of_bounds. }
    split; [reflexivity|]. split; [now rewrite Etc|].
    rewrite Pc. cbn [total_get total length]. lia.
Qed.

End Router.

End CodeExecution.

(* ===================================================================== *)
(** ** routers/websocket.py: the endpoint and the session listing         *)
(* ===================================================================== *)

Module WebsocketFacts.

Import Websocket.
#[local] Open Scope string_scope.
#[local] Open Scope list_scope.
#[local] Set Warnings "-clear-no-such-hyp".

(** No channel is kept with an empty set of sockets. *)
Definition no_empty_channel (st : State) : Prop :=
  forall ch s, channels st !! ch = Some s -> s <> ∅.

(** X14. [disconnect] removes the socket from the named channel and from no
    other, never leaves that channel registered with an empty set, and
    forgets the socket's user record whether or not the socket was a member.
    It keeps the invariant that no registered channel is empty, and on a
    socket that is not a member of a non-empty channel it changes no
    channel. *)
Theorem disconnect_spec (ws : WebSocket) (channel : string) (st : State) :
  let st' := disconnect ws channel st in
  (members st' channel = members st channel ∖ {[ws]} /\
   forall ch, ch <> channel -> channels st' !! ch = channels st !! ch) /\
  channels st' !! channel <> Some ∅ /\
  (user_map st' = delete ws (user_map st) /\ net st' = net st) /\
  (no_empty_channel st -> no_empty_channel st') /\
  (ws ∉ members st channel -> channels st !! channel <> Some ∅ ->
   channels st' = channels st).
Proof.
  intros st'. subst st'. unfold disconnect, members, no_empty_channel.
  cbn [channels user_map net].
  destruct (channels st !! channel) as [s|] eqn:E.
  - destruct (decide (s ∖ {[ws]} = ∅)) as [He|He].
    + split; [split|split; [|split; [split; reflexivity|split]]].
      * rewrite lookup_delete_eq. cbn. now rewrite He.
      * intros ch Hne. now rewrite lookup_delete_ne.
      * now rewrite lookup_delete_eq.
      * intros Hinv ch s' Hs'.
        destruct (decide (ch = channel)) as [->|Hne];
          [now rewrite lookup_delete_eq in Hs'|].
        rewrite lookup_delete_ne in Hs' by congruence. eauto.
      * intros Hnot Hnon. cbn in Hnot. exfalso. apply Hnon. f_equal.
        set_solver.
    + split; [split|split; [|split; [split; reflexivity|split]]].
      * now rewrite lookup_insert_eq.
      * intros ch Hne. now rewrite lookup_insert_ne.
      * rewrite lookup_insert_eq. congruence.
      * intros Hinv ch s' Hs'.
        destruct (decide (ch = channel)) as [->|Hne].
        -- rewrite lookup_insert_eq in Hs'. congruence.
        -- rewrite lookup_insert_ne in Hs' by congruence. eauto.
      * intros Hnot _. cbn in Hnot. apply map_eq. intros ch.
        destruct (decide (ch = channel)) as [->|Hne].
        -- rewrite lookup_insert_eq, E. f_equal. set_solver.
        -- now rewrite lookup_insert_ne.
  - split; [split|split; [|split; [split; reflexivity|split]]].
    + rewrite E. cbn. set_solver.
    + reflexivity.
    + now rewrite E.
    + auto.
    + reflexivity.
Qed.

Section Manager.

Variable T : Transport.

(** X15. Joining a channel and leaving it again restores every channel, when
    the socket was not a member before and the channel was not registered
    empty; the socket's user record is gone afterwards, even one stored by an
    earlier [connect] to another channel. *)
Theorem connect_disconnect_round_trip (ws : WebSocket) (channel : string)
    (info : UserInfo) (st : State) :
  ws ∉ members st channel ->
  channels st !! channel <> Some ∅ ->
  fst (connect T ws channel info st) = Ok tt ->
  let st' := disconnect ws channel (snd (connect T ws channel info st)) in
  channels st' = channels st /\ user_map st' !! ws = None.
Proof.
  unfold connect, disconnect, members.
  destruct (accept_ok T (net st) ws); [|discriminate].
  cbn [fst snd channels user_map].
  intros Hnot Hnon _.
  destruct (channels st !! channel) as [s|] eqn:E; cbn [default] in Hnot.
  - rewrite lookup_alter_eq, E. cbn [fmap option_fmap option_map].
    assert (Hs : ({[ws]} ∪ s) ∖ {[ws]} = s) by set_solver.
    rewrite Hs. assert (Hne : s <> ∅) by congruence.
    rewrite decide_False by exact Hne.
    split; [|apply lookup_delete_eq].
    apply map_eq. intros ch. destruct (decide (ch = channel)) as [->|Hc].
    + now rewrite lookup_insert_eq.
    + now rewrite lookup_insert_ne, lookup_alter_ne.
  - rewrite lookup_alter_eq, lookup_insert_eq. cbn [fmap option_fmap option_map].
    assert (Hs : ({[ws]} ∪ ∅) ∖ {[ws]} = (∅ : gset WebSocket)) by set_solver.
    rewrite Hs, decide_True by reflexivity.
    split; [|apply lookup_delete_eq].
    apply map_eq. intros ch. destruct (decide (ch = channel)) as [->|Hc].
    + now rewrite lookup_delete_eq.
    + now rewrite lookup_delete_ne, lookup_alter_ne, lookup_insert_ne.
Qed.

Lemma send_loop_all_fail (message : Message) (l : list WebSocket) :
  (forall log ws, ws ∈ l -> send_ok T log ws message = false) ->
  forall dead n,
    foldl (send_step T message) (dead, n) l
    = (dead ++ l, n ++ map (fun ws => SendJson ws message false) l).
Proof.
  induction l as [|ws l IH]; intros Hall dead n.
  - cbn. now rewrite !app_nil_r.
  - cbn [foldl]. unfold send_step at 2. cbn [fst snd].
    rewrite (Hall n ws) by apply list_elem_of_here.
    rewrite IH by (intros; apply Hall; now apply list_elem_of_further).
    cbn [map]. now rewrite <- !app_assoc.
Qed.

(** X16. A broadcast on which every send fails tries each member once and
    then keeps the channel registered with no member at all: unlike
    [disconnect], [send_to_channel] does not delete a channel it has
    emptied. *)
Theorem broadcast_all_fail (channel : string) (message : Message)
    (st : State) (s : gset WebSocket) :
  channels st !! channel = Some s ->
  (forall log ws, ws ∈ s -> send_ok T log ws message = false) ->
  let st' := snd (send_to_channel T channel message st) in
  channels st' !! channel = Some ∅ /\
  ~ no_empty_channel st' /\
  net st' = net st ++ map (fun ws => SendJson ws message false) (elements s).
Proof.
  intros E Hall. unfold send_to_channel. rewrite E.
  rewrite send_loop_all_fail
    by (intros log ws Hin; apply Hall; now apply elem_of_elements).
  cbn [snd channels net app].
  assert (Hs : foldl (fun s ws => s ∖ {[ws]}) s (elements s) = ∅).
  { rewrite discard_all. apply set_eq. intros x.
    rewrite elem_of_difference, elem_of_list_to_set, elem_of_elements.
    set_solver. }
  rewrite Hs, lookup_insert_eq.
  split; [reflexivity|]. split; [|reflexivity].
  intros Hinv. apply (Hinv channel ∅); [|reflexivity].
  cbn [channels]. now rewrite lookup_insert_eq.
Qed.

End Manager.

(** [d.get(key)] and [d.get(key, default)] on the items of a JSON object. *)
Definition jget (items : list (string * Json.value)) (key : string)
    : option Json.value :=
  option_map snd (find (fun kv => String.eqb (fst kv) key) items).

Definition jget_or (items : list (string * Json.value)) (key : string)
    (default_ : Json.value) : Json.value :=
  default default_ (jget items key).

(** [{**d, key: v}]: the key keeps its place when [d] has it, and is added
    last otherwise. *)
Fixpoint jset (items : list (string * Json.value)) (key : string)
    (v : Json.value) : list (string * Json.value) :=
  match items with
  | [] => [(key, v)]
  | kv :: rest =>
      if String.eqb (fst kv) key then (key, v) :: rest
      else kv :: jset rest key v
  end.

(** [get_active_sessions]: one entry per channel and member socket whose
    user record is a non-empty dictionary (a missing record and an empty one
    are falsy).  Python lists the entries in the insertion order of the
    channels; here they come in the order of the finite map. *)
Definition get_active_sessions (st : State) : list Json.value :=
  '(ch, sockets) ← map_to_list (channels st);
  ws ← elements sockets;
  match user_map st !! ws with
  | Some (Json.Obj (kv :: rest)) =>
      [Json.Obj (jset (kv :: rest) "channel" (Json.Str ch))]
  | _ => []
  end.

Lemma jget_jset_eq (items : list (string * Json.value)) (k : string)
    (v : Json.value) :
  jget (jset items k v) k = Some v.
Proof.
  unfold jget.
  induction items as [|[k0 v0] rest IH]; cbn [jset find fst].
  - now rewrite String.eqb_refl.
  - destruct (String.eqb k0 k) eqn:E; cbn [find fst].
    + now rewrite String.eqb_refl.
    + now rewrite E.
Qed.

Lemma jget_jset_ne (items : list (string * Json.value)) (k k' : string)
    (v : Json.value) :
  k' <> k -> jget (jset items k v) k' = jget items k'.
Proof.
  intros Hne. unfold jget.
  assert (Hk : String.eqb k k' = false) by (apply String.eqb_neq; congruence).
  induction items as [|[k0 v0] rest IH]; cbn [jset find fst].
  - now rewrite Hk.
  - destruct (String.eqb k0 k) eqn:E; cbn [find fst].
    + apply String.eqb_eq in E. subst k0. now rewrite Hk.
    + destruct (String.eqb k0 k'); [reflexivity | exact IH].
Qed.

(** A socket that [get_active_sessions] lists under a channel. *)
Definition listed (st : State) (ch : string) (ws : WebSocket)
    (items : list (string * Json.value)) : Prop :=
  ws ∈ members st ch /\ user_map st !! ws = Some (Json.Obj items) /\ items <> [].

(** X17. [get_active_sessions] has an entry exactly for each channel and
    member socket with a non-empty user record; the entry is that record with
    the key ["channel"] set to the channel's name and every other key
    unchanged.  A socket that left one of its channels is no longer listed
    under any other, though it is still a member there and still receives
    the broadcasts: [disconnect] dropped its record. *)
Theorem get_active_sessions_spec (st : State) :
  (forall e,
     e ∈ get_active_sessions st <->
     exists ch ws items,
       listed st ch ws items /\
       e = Json.Obj (jset items "channel" (Json.Str ch))) /\
  (forall ch items k,
     jget (jset items "channel" (Json.Str ch)) "channel" = Some (Json.Str ch) /\
     (k <> "channel" ->
      jget (jset items "channel" (Json.Str ch)) k = jget items k)) /\
  (forall ws left other,
     other <> left -> ws ∈ members st other ->
     let st' := disconnect ws left st in
     ws ∈ members st' other /\ forall items, ~ listed st' other ws items).
Proof.
  split; [|split].
  - intros e. unfold get_active_sessions, listed, members. split.
    + intros Hin. apply list_elem_of_bind in Hin as ([ch sockets] & Hin & Hch).
      apply elem_of_map_to_list in Hch.
      apply list_elem_of_bind in Hin as (ws & Hin & Hws).
      apply elem_of_elements in Hws.
      destruct (user_map st !! ws) as [[| | | | | |[|kv rest]|]|] eqn:Eu;
        try (now apply elem_of_nil in Hin).
      apply list_elem_of_singleton in Hin.
      exists ch, ws, (kv :: rest). rewrite Hch. cbn [default].
      repeat split; [exact Hws | exact Eu | discriminate | exact Hin].
    + intros (ch & ws & items & (Hws & Hu & Hne) & ->).
      destruct (channels st !! ch) as [sockets|] eqn:Hch; cbn [default] in Hws;
        [|set_solver].
      apply list_elem_of_bind. exists (ch, sockets).
      split; [|now apply elem_of_map_to_list].
      apply list_elem_of_bind. exists ws.
      split; [|now apply elem_of_elements].
      rewrite Hu. destruct items as [|kv rest]; [contradiction|].
      apply list_elem_of_here.
  - intros ch items k. split; [apply jget_jset_eq | apply jget_jset_ne].
  - intros ws left other Hne Hin st'. subst st'. split.
    + unfold members, disconnect in *. cbn [channels].
      destruct (channels st !! left) as [s|]; [|exact Hin].
      destruct (decide (s ∖ {[ws]} = ∅)).
      * now rewrite lookup_delete_ne by congruence.
      * now rewrite lookup_insert_ne by congruence.
    + intros items (_ & Hu & _). unfold disconnect in Hu.
      cbn [user_map] in Hu. now rewrite lookup_delete_eq in Hu.
Qed.

(** The path and the token of one connection: [payload.get("sub")] and
    [payload.get("role")] come from the decoded token. *)
Record Session : Set := mkSession {
  websocket : WebSocket;
  session_type : string;
  session_id : string;
  sub : Json.value;
  role : Json.value
}.

Definition user_info (s : Session) : UserInfo :=
  Json.Obj [("user_id", sub s); ("role", role s);
            ("session_type", Json.Str (session_type s));
            ("session_id", Json.Str (session_id s))].

(** [f"{session_type}:{session_id}"] *)
Definition channel_of (s : Session) : string :=
  (session_type s ++ ":" ++ session_id s)%string.

Definition teacher_feed (exam_id : string) : string :=
  ("teacher_feed:" ++ exam_id)%string.

(** [msg_type == literal] *)
Definition is_type (msg_type : Json.value) (literal : string) : bool :=
  match msg_type with
  | Json.Str s => String.eqb s literal
  | _ => false
  end.

Section Endpoint.

Variable T : Transport.

(** [str(v)] of a list or a dictionary, as an [f]-string prints it. *)
Variable container_str : Json.value -> string.

(** [f"{v}"] *)
Definition py_str (v : Json.value) : string :=
  match v with
  | Json.Null => "None"
  | Json.Boolean b => if b then "True" else "False"
  | Json.Int n => NilZero.string_of_int (Z.to_int n)
  | Json.Float r => r
  | Json.Str s => s
  | Json.Other s => s
  | Json.Arr _ | Json.Obj _ => container_str v
  end.

#[local] Abbreviation connect := (connect T).
#[local] Abbreviation send_to_channel := (send_to_channel T).
#[local] Abbreviation send_to_user := (send_to_user T).

(** The endpoint from a decoded token up to its receive loop: the socket
    joins its own channel, and a teacher's socket the feed of the exam
    too. *)
Definition open_session (s : Session) (st : State) : Result unit * State :=
  match connect (websocket s) (channel_of s) (user_info s) st with
  | (Ok _, st1) =>
      if String.eqb (session_type s) "teacher"
      then connect (websocket s) (teacher_feed (session_id s)) (user_info s) st1
      else (Ok tt, st1)
  | (Raised, st1) => (Raised, st1)
  end.

(** One turn of the receive loop on the message [data]. *)
Definition handle_message (s : Session) (data : Json.value) (st : State)
    : Result unit * State :=
  match data with
  | Json.Obj items =>
      let msg_type := jget_or items "type" Json.Null in
      let student_id := sub s in
      let feed :=
        teacher_feed (py_str (jget_or items "exam_id"
                                (Json.Str (session_id s)))) in
      let target_channel :=
        ("exam:" ++ py_str (jget_or items "attempt_id" Json.Null))%string in
      let field key := jget_or items key Json.Null in
      if is_type msg_type "violation_event" then
        match send_to_channel feed
                (Json.Obj [("type", Json.Str "student_violation");
                           ("student_id", student_id); ("event", data)]) st with
        | (Ok _, st1) =>
            send_to_channel "admin:global"
              (Json.Obj [("type", Json.Str "violation_alert");
                         ("student_id", student_id); ("event", data)]) st1
        | (Raised, st1) => (Raised, st1)
        end
      else if is_type msg_type "trust_score_update" then
        send_to_channel feed
          (Json.Obj [("type", Json.Str "trust_score");
                     ("student_id", student_id);
                     ("trust_score", field "trust_score");
                     ("risk_level", field "risk_level")]) st
      else if is_type msg_type "code_update" then
        send_to_channel feed
          (Json.Obj [("type", Json.Str "code_preview");
                     ("student_id", student_id);
                     ("code", field "code");
                     ("language", field "language")]) st
      else if is_type msg_type "intervention" then
        send_to_channel target_channel
          (Json.Obj [("type", Json.Str "intervention");
                     ("intervention_text", field "intervention_text");
                     ("challenge_prompt", field "challenge_prompt");
                     ("risk_level", field "risk_level")]) st
      else if is_type msg_type "camera_event" then
        send_to_channel feed
          (Json.Obj [("type", Json.Str "camera_alert");
                     ("student_id", student_id);
                     ("event_type", field "event_type");
                     ("face_count", jget_or items "face_count" (Json.Int 1));
                     ("confidence",
                      jget_or items "confidence" (Json.Float "1.0"))]) st
      else if is_type msg_type "audio_event" then
        send_to_channel feed
          (Json.Obj [("type", Json.Str "audio_alert");
                     ("student_id", student_id);
                     ("event_type", field "event_type");
                     ("volume_level",
                      jget_or items "volume_level" (Json.Int 0));
                     ("voice_count",
                      jget_or items "voice_count" (Json.Int 0))]) st
      else if is_type msg_type "monitoring_snapshot" then
        send_to_channel feed
          (Json.Obj [("type", Json.Str "student_snapshot");
                     ("student_id", student_id);
                     ("trust_score", field "trust_score");
                     ("risk_level", field "risk_level");
                     ("camera_status", field "camera_status");
                     ("audio_status", field "audio_status");
                     ("tab_visible",
                      jget_or items "tab_visible" (Json.Boolean true));
                     ("fullscreen",
                      jget_or items "fullscreen" (Json.Boolean true))]) st
      else if is_type msg_type "force_pause" then
        send_to_channel target_channel
          (Json.Obj [("type", Json.Str "exam_paused");
                     ("reason",
                      jget_or items "reason" (Json.Str "Paused by instructor"));
                     ("paused_by", student_id)]) st
      else if is_type msg_type "force_terminate" then
        send_to_channel target_channel
          (Json.Obj [("type", Json.Str "exam_terminated");
                     ("reason",
                      jget_or items "reason"
                        (Json.Str "Terminated by instructor"));
                     ("terminated_by", student_id)]) st
      else if is_type msg_type "timer_sync" then
        send_to_user (websocket s)
          (Json.Obj [("type", Json.Str "timer_sync");
                     ("remaining_seconds", field "remaining_seconds")]) st
      else if is_type msg_type "ping" then
        send_to_user (websocket s) (Json.Obj [("type", Json.Str "pong")]) st
      else (Ok tt, st)
  | _ => (Raised, st)     (* [data.get]: AttributeError, not caught *)
  end.

(** The handler of [WebSocketDisconnect]. *)
Definition on_disconnect (s : Session) (st : State) : Result unit * State :=
  let st1 := disconnect (websocket s) (channel_of s) st in
  let st2 :=
    if String.eqb (session_type s) "teacher"
    then disconnect (websocket s) (teacher_feed (session_id s)) st1
    else st1 in
  if String.eqb (session_type s) "exam"
  then send_to_channel (teacher_feed (session_id s))
         (Json.Obj [("type", Json.Str "student_disconnect");
                    ("student_id", sub s)]) st2
  else (Ok tt, st2).

(** *** Properties *)

Lemma broadcast_facts (channel : string) (message : Message) (st : State) :
  fst (send_to_channel channel message st) = Ok tt /\
  exists attempts : list (WebSocket * bool),
    net (snd (send_to_channel channel message st))
    = net st ++ map (event_of message) attempts /\
    map fst attempts = elements (members st channel) /\
    (forall ch, ch <> channel ->
       channels (snd (send_to_channel channel message st)) !! ch
       = channels st !! ch) /\
    user_map (snd (send_to_channel channel message st)) = user_map st.
Proof.
  split.
  - unfold Websocket.send_to_channel.
    destruct (channels st !! channel); [|reflexivity].
    now destruct (foldl _ _ _).
  - destruct (broadcast_attempts T channel message st)
      as (att & Hnet & Hl & _ & Hch & Hu).
    exists att. auto.
Qed.

Ltac eval_tests :=
  repeat match goal with
         | |- context [String.eqb ?a ?b] =>
             let v := eval vm_compute in (String.eqb a b) in
             progress change (String.eqb a b) with v
         end;
  cbv iota.

(** The commands a client sends to a student's session. *)
Definition commands : list string :=
  ["intervention"; "force_pause"; "force_terminate"].

(** The reports a client sends to the teachers' feed. *)
Definition reports : list string :=
  ["trust_score_update"; "code_update"; "camera_event"; "audio_event";
   "monitoring_snapshot"].

(** X18. An ["intervention"], ["force_pause"] or ["force_terminate"] message
    is delivered to the members of [exam:<attempt_id>], the attempt being the
    one the message names: one [send_json] per member, nothing to anyone
    else, whatever the session type and role of the sender.  The forwarded
    message carries the sender's user id where the handler puts it. *)
Theorem command_reaches_exam_channel (s : Session)
    (items : list (string * Json.value)) (st : State) (kind : string) :
  In kind commands ->
  jget items "type" = Some (Json.Str kind) ->
  let target :=
    ("exam:" ++ py_str (jget_or items "attempt_id" Json.Null))%string in
  let r := handle_message s (Json.Obj items) st in
  fst r = Ok tt /\
  exists fields attempts,
    net (snd r) = net st ++ map (event_of (Json.Obj fields)) attempts /\
    map fst attempts = elements (members st target) /\
    (forall ch, ch <> target -> channels (snd r) !! ch = channels st !! ch) /\
    user_map (snd r) = user_map st /\
    (kind = "intervention" /\ jget fields "type" = Some (Json.Str "intervention")
     \/ kind = "force_pause" /\ jget fields "type" = Some (Json.Str "exam_paused")
        /\ jget fields "paused_by" = Some (sub s)
     \/ kind = "force_terminate"
        /\ jget fields "type" = Some (Json.Str "exam_terminated")
        /\ jget fields "terminated_by" = Some (sub s)).
Proof.
  intros Hk Ht target r. subst r. unfold handle_message, jget_or.
  rewrite Ht. cbn [default from_option id is_type]. fold target.
  destruct Hk as [<-|[<-|[<-|[]]]]; eval_tests;
    match goal with
    | |- context [send_to_channel ?ch ?m st] =>
        destruct (broadcast_facts ch m st) as (Hok & att & Hnet & Hl & Hch & Hu)
    end;
    (split; [exact Hok|]); eexists; exists att;
    (split; [exact Hnet|]); (split; [exact Hl|]); (split; [exact Hch|]);
    (split; [exact Hu|]).
  - left. split; reflexivity.
  - right; left. repeat split.
  - right; right. repeat split.
Qed.

(** X19. A report ([trust_score_update], [code_update], [camera_event],
    [audio_event], [monitoring_snapshot]) is delivered to the members of the
    teachers' feed of the exam the message names in ["exam_id"], or of the
    session's own id when it names none: one [send_json] per member and no
    other, each carrying the sender's user id.  A ["violation_event"] goes
    there first and then, in the same way, to the members of
    ["admin:global"]. *)
Theorem report_reaches_teacher_feed (s : Session)
    (items : list (string * Json.value)) (st : State) (kind : string) :
  In kind ("violation_event" :: reports) ->
  jget items "type" = Some (Json.Str kind) ->
  let feed :=
    teacher_feed (py_str (jget_or items "exam_id"
                            (Json.Str (session_id s)))) in
  let r := handle_message s (Json.Obj items) st in
  fst r = Ok tt /\ user_map (snd r) = user_map st /\
  exists fields attempts,
    map fst attempts = elements (members st feed) /\
    jget fields "student_id" = Some (sub s) /\
    (In kind reports ->
     net (snd r) = net st ++ map (event_of (Json.Obj fields)) attempts) /\
    (kind = "violation_event" ->
     exists fields' attempts',
       net (snd r)
       = net st ++ map (event_of (Json.Obj fields)) attempts
         ++ map (event_of (Json.Obj fields')) attempts' /\
       map fst attempts' = elements (members st "admin:global") /\
       jget fields "event" = Some (Json.Obj items) /\
       jget fields' "event" = Some (Json.Obj items)).
Proof.
  intros Hk Ht feed r. subst r. unfold handle_message, jget_or.
  rewrite Ht. cbn [default from_option id is_type]. fold feed.
  destruct Hk as [<-|[<-|[<-|[<-|[<-|[<-|[]]]]]]]; eval_tests.
  2-6: match goal with
       | |- context [send_to_channel ?ch (Json.Obj ?fields) ?st0] =>
           destruct (broadcast_facts ch (Json.Obj fields) st0)
             as (Hok & att & Hnet & Hl & Hch & Hu);
           (split; [exact Hok|]); (split; [exact Hu|]);
           exists fields, att
       end;
       (split; [exact Hl|]); (split; [reflexivity|]);
       (split; [intros _; exact Hnet | discriminate]).
  match goal with
  | |- context [send_to_channel ?ch (Json.Obj ?fields) st] =>
      destruct (broadcast_facts ch (Json.Obj fields) st)
        as (Hok & att & Hnet & Hl & Hch & Hu);
      destruct (send_to_channel ch (Json.Obj fields) st)
        as [[[]|] st1] eqn:E1; [|discriminate Hok];
      cbn [fst snd] in *;
      match goal with
      | |- context [send_to_channel "admin:global" (Json.Obj ?fields') st1] =>
          destruct (broadcast_facts "admin:global" (Json.Obj fields') st1)
            as (Hok' & att' & Hnet' & Hl' & Hch' & Hu');
          (split; [exact Hok'|]); (split; [congruence|]);
          exists fields, att; (split; [exact Hl|]); (split; [reflexivity|]);
          (split; [intros [H|[H|[H|[H|[H|[]]]]]]; discriminate H|]);
          intros _; exists fields', att'
      end
  end.
  split; [rewrite Hnet', Hnet; now rewrite <- app_assoc|].
  split; [|split; reflexivity].
  rewrite Hl'. unfold members. rewrite Hch; [reflexivity|].
  unfold teacher_feed. cbn. discriminate.
Qed.

(** The message types the receive loop knows. *)
Definition known_types : list string :=
  "violation_event" :: "timer_sync" :: "ping" :: reports ++ commands.

(** X20. A message whose ["type"] is missing, is not a string or is not one
    of the eleven known types is dropped without a trace.  A message that is
    not a JSON object makes the loop raise from [data.get]; that is not a
    [WebSocketDisconnect], so nothing is cleaned up: the state, and with it
    the socket's membership, stays as it was.  [timer_sync] and [ping] are
    answered to the sender alone. *)
Theorem unrouted_messages (s : Session) (st : State) :
  (forall items,
     (forall kind, jget items "type" = Some (Json.Str kind) ->
                   ~ In kind known_types) ->
     handle_message s (Json.Obj items) st = (Ok tt, st)) /\
  (forall data,
     (forall items, data <> Json.Obj items) ->
     handle_message s data st = (Raised, st)) /\
  (forall items kind,
     In kind ["timer_sync"; "ping"] ->
     jget items "type" = Some (Json.Str kind) ->
     exists message ok,
       handle_message s (Json.Obj items) st
       = (Ok tt,
          {| channels := channels st; user_map := user_map st;
             net := net st ++ [SendJson (websocket s) message ok] |})).
Proof.
  split; [|split].
  - intros items Hnot. unfold handle_message, jget_or.
    destruct (jget items "type") as [[| | | |kind| | |]|]; try reflexivity.
    cbn [default from_option id is_type].
    specialize (Hnot kind eq_refl).
    assert (Hf : forall lit, In lit known_types -> String.eqb kind lit = false).
    { intros lit Hin. apply String.eqb_neq. intros ->. contradiction. }
    rewrite !Hf by (cbn; tauto). reflexivity.
  - intros data Hnot. destruct data; try reflexivity.
    now destruct (Hnot items).
  - intros items kind Hk Ht. unfold handle_message, jget_or.
    rewrite Ht. cbn [default from_option id is_type].
    destruct Hk as [<-|[<-|[]]]; eval_tests; unfold Websocket.send_to_user;
      do 2 eexists; reflexivity.
Qed.

Lemma own_channel_not_feed (s : Session) :
  session_type s = "teacher" \/ session_type s = "exam" ->
  channel_of s <> teacher_feed (session_id s).
Proof.
  unfold channel_of, teacher_feed. intros [->| ->]; cbn; discriminate.
Qed.

Lemma disconnect_leaves (ws : WebSocket) (channel : string) (st : State) :
  (ws ∉ members (disconnect ws channel st) channel)
  /\ user_map (disconnect ws channel st) !! ws = None
  /\ net (disconnect ws channel st) = net st
  /\ forall ch, ch <> channel ->
       channels (disconnect ws channel st) !! ch = channels st !! ch.
Proof.
  unfold disconnect, members. cbn [channels user_map net].
  split; [|split; [apply lookup_delete_eq | split; [reflexivity|]]].
  - destruct (channels st !! channel) as [sockets|] eqn:E.
    + destruct (decide (sockets ∖ {[ws]} = ∅)).
      * rewrite lookup_delete_eq. cbn. set_solver.
      * rewrite lookup_insert_eq. cbn. set_solver.
    + rewrite E. cbn. set_solver.
  - intros ch Hne. destruct (channels st !! channel) as [sockets|]; [|reflexivity].
    destruct (decide (sockets ∖ {[ws]} = ∅)).
    + now rewrite lookup_delete_ne.
    + now rewrite lookup_insert_ne.
Qed.

(** X21. When the peer disconnects, the socket leaves its own channel and
    its user record is dropped.  A teacher's socket also leaves the feed it
    had joined, and nothing is sent.  For a student's session each member of
    the teachers' feed of the same id is sent one ["student_disconnect"]
    with the student's user id.  For any other session type nothing more
    happens. *)
Theorem on_disconnect_spec (s : Session) (st : State) :
  let r := on_disconnect s st in
  let ws := websocket s in
  fst r = Ok tt /\
  (ws ∉ members (snd r) (channel_of s)) /\
  user_map (snd r) !! ws = None /\
  (session_type s = "teacher" ->
   (ws ∉ members (snd r) (teacher_feed (session_id s))) /\
   net (snd r) = net st) /\
  (session_type s = "exam" ->
   exists attempts,
     net (snd r)
     = net st
       ++ map (event_of (Json.Obj [("type", Json.Str "student_disconnect");
                                   ("student_id", sub s)])) attempts /\
     map fst attempts = elements (members st (teacher_feed (session_id s)))) /\
  (session_type s <> "teacher" -> session_type s <> "exam" ->
   net (snd r) = net st).
Proof.
  intros r ws. subst r ws. unfold on_disconnect.
  destruct (disconnect_leaves (websocket s) (channel_of s) st)
    as (Hm1 & Hu1 & Hn1 & Hc1).
  set (st1 := disconnect (websocket s) (channel_of s) st) in *.
  destruct (String.eqb (session_type s) "teacher") eqn:Et.
  - apply String.eqb_eq in Et. rewrite Et. eval_tests. cbn [fst snd].
    destruct (disconnect_leaves (websocket s) (teacher_feed (session_id s)) st1)
      as (Hm2 & Hu2 & Hn2 & Hc2).
    split; [reflexivity|]. split.
    { unfold members in *. rewrite Hc2; [exact Hm1|].
      apply own_channel_not_feed. now left. }
    split; [exact Hu2|].
    split; [intros _; split; [exact Hm2 | congruence]|].
    split; [discriminate|]. intros H. contradiction.
  - apply String.eqb_neq in Et.
    destruct (String.eqb (session_type s) "exam") eqn:Ee.
    + apply String.eqb_eq in Ee.
      match goal with
      | |- context [send_to_channel ?ch ?m st1] =>
          destruct (broadcast_facts ch m st1)
            as (Hok & att & Hnet & Hl & Hch & Hu)
      end.
      assert (Hne : channel_of s <> teacher_feed (session_id s))
        by (apply own_channel_not_feed; now right).
      split; [exact Hok|]. split.
      { unfold members in *. rewrite Hch; [exact Hm1 | exact Hne]. }
      split; [now rewrite Hu|].
      split; [intros H; contradiction|].
      split; [|intros _ H; contradiction].
      intros _. exists att. split; [now rewrite Hnet, Hn1|].
      rewrite Hl. unfold members. rewrite Hc1; [reflexivity|]. congruence.
    + apply String.eqb_neq in Ee. cbn [fst snd].
      split; [reflexivity|]. split; [exact Hm1|]. split; [exact Hu1|].
      split; [intros H; contradiction|].
      split; [intros H; contradiction|]. intros _ _. exact Hn1.
Qed.

Lemma connect_returns (ws : WebSocket) (channel : string) (info : UserInfo)
    (st : State) :
  accept_ok T (net st) ws = true ->
  exists st',
    connect ws channel info st = (Ok tt, st') /\
    members st' channel = {[ws]} ∪ members st channel /\
    (forall ch, ch <> channel -> members st' ch = members st ch) /\
    user_map st' = <[ws := info]> (user_map st) /\
    net st' = net st ++ [Accept ws true].
Proof.
  intros Hok. unfold Websocket.connect. rewrite Hok. eexists.
  split; [reflexivity|]. unfold members. cbn [channels user_map net].
  split; [|split; [|split; reflexivity]].
  - destruct (channels st !! channel) as [sockets|] eqn:E.
    + now rewrite lookup_alter_eq, E.
    + now rewrite lookup_alter_eq, lookup_insert_eq.
  - intros ch Hne. destruct (channels st !! channel).
    + now rewrite lookup_alter_ne by congruence.
    + now rewrite lookup_alter_ne, lookup_insert_ne by congruence.
Qed.

Lemma connect_raises (ws : WebSocket) (channel : string) (info : UserInfo)
    (st : State) :
  accept_ok T (net st) ws = false ->
  connect ws channel info st
  = (Raised, {| channels := channels st; user_map := user_map st;
                net := net st ++ [Accept ws false] |}).
Proof. intros Hf. unfold Websocket.connect. now rewrite Hf. Qed.

(** X22. Opening a session calls [accept] once, and once more for a teacher
    when the first call returned.  When the endpoint reaches its receive
    loop the socket is a member of its own channel with its user record
    stored, and a teacher's socket is a member of the feed as well.  When a
    teacher's second [accept] raises, the endpoint raises with the socket
    already registered in its own channel and the feed as it was. *)
Theorem open_session_spec (s : Session) (st : State) :
  let r := open_session s st in
  let ws := websocket s in
  let first := accept_ok T (net st) ws in
  let second := accept_ok T (net st ++ [Accept ws first]) ws in
  let teacher := String.eqb (session_type s) "teacher" in
  net (snd r)
  = net st ++ Accept ws first
              :: (if first && teacher then [Accept ws second] else []) /\
  (fst r = Ok tt <-> first = true /\ (teacher = true -> second = true)) /\
  (fst r = Ok tt ->
   (ws ∈ members (snd r) (channel_of s)) /\
   user_map (snd r) !! ws = Some (user_info s) /\
   (teacher = true -> ws ∈ members (snd r) (teacher_feed (session_id s)))) /\
  (first = true -> teacher = true -> second = false ->
   fst r = Raised /\ (ws ∈ members (snd r) (channel_of s)) /\
   user_map (snd r) !! ws = Some (user_info s) /\
   members (snd r) (teacher_feed (session_id s))
   = members st (teacher_feed (session_id s))).
Proof.
  intros r ws first second teacher. subst r. unfold open_session.
  fold ws teacher.
  destruct first eqn:Ef.
  - destruct (connect_returns ws (channel_of s) (user_info s) st Ef)
      as (st1 & -> & Hm1 & Ho1 & Hu1 & Hn1).
    assert (Hin1 : ws ∈ members st1 (channel_of s)) by (rewrite Hm1; set_solver).
    assert (Hrec1 : user_map st1 !! ws = Some (user_info s))
      by (rewrite Hu1; apply lookup_insert_eq).
    destruct teacher eqn:Etc; cbn [andb fst snd].
    + assert (Hne : channel_of s <> teacher_feed (session_id s)).
      { apply own_channel_not_feed. left. now apply String.eqb_eq. }
      assert (Hsec : accept_ok T (net st1) ws = second)
        by (unfold second; now rewrite Hn1).
      destruct second eqn:Es.
      * destruct (connect_returns ws (teacher_feed (session_id s))
                    (user_info s) st1 Hsec)
          as (st2 & -> & Hm2 & Ho2 & Hu2 & Hn2).
        cbn [fst snd].
        split; [rewrite Hn2, Hn1; now rewrite <- app_assoc|].
        split; [split; auto|]. split; [|intros _ _ H; discriminate H].
        intros _. split; [rewrite Ho2 by exact Hne; exact Hin1|].
        split; [rewrite Hu2; apply lookup_insert_eq|].
        intros _. rewrite Hm2. set_solver.
      * rewrite (connect_raises ws (teacher_feed (session_id s))
                   (user_info s) st1 Hsec).
        cbn [fst snd net].
        split; [rewrite Hn1; now rewrite <- app_assoc|].
        split; [split; [discriminate
                       |intros [_ H]; now specialize (H eq_refl)]|].
        split; [discriminate|]. intros _ _ _.
        split; [reflexivity|]. split; [exact Hin1|]. split; [exact Hrec1|].
        apply Ho1. congruence.
    + split; [exact Hn1|].
      split; [split; [intros _; split; [reflexivity | discriminate]
                     |reflexivity]|].
      split; [|discriminate]. intros _.
      split; [exact Hin1|]. split; [exact Hrec1 | discriminate].
  - rewrite (connect_raises ws (channel_of s) (user_info s) st Ef).
    cbn [andb fst snd net].
    split; [reflexivity|].
    split; [split; [discriminate | intros [H _]; discriminate H]|].
    split; discriminate.
Qed.

End Endpoint.

(** *** A student, a second student and a teacher *)

Definition no_repr (v : Json.value) : string := "".

Definition student (attempt socket_user : string) (ws : WebSocket) : Session :=
  {| websocket := ws; session_type := "exam"; session_id := attempt;
     sub := Json.Str socket_user; role := Json.Str "student" |}.

Definition proctor : Session :=
  {| websocket := 9%positive; session_type := "teacher"; session_id := "e1";
     sub := Json.Str "t1"; role := Json.Str "teacher" |}.

(** A transport on which every call returns. *)
Definition reliable : Transport :=
  {| accept_ok := fun _ _ => true; send_ok := fun _ _ _ => true |}.

(** Student [u2] in attempt [a2] (socket 2) and the teacher of exam [e1]
    (socket 9). *)
Definition classroom : State :=
  snd (open_session reliable proctor
         (snd (open_session reliable (student "a2" "u2" 2%positive) init))).

(** A third socket joins the feed of [classroom] and leaves it again. *)
Lemma connect_disconnect_example :
  let st' := disconnect 3%positive "teacher_feed:e1"
               (snd (connect reliable 3%positive "teacher_feed:e1"
                       teacher classroom)) in
  channels st' = channels classroom /\ user_map st' !! 3%positive = None.
Proof.
  apply (connect_disconnect_round_trip reliable 3%positive
           "teacher_feed:e1" teacher classroom).
  - apply (bool_decide_unpack _). vm_compute. exact I.
  - vm_compute. discriminate.
  - reflexivity.
Defined.

(** A broadcast to [two_observers] once both transports are closed. *)
Lemma broadcast_all_fail_example :
  let st' := snd (send_to_channel (transport {[1%positive; 2%positive]})
                    "admin:global" alert two_observers) in
  channels st' !! "admin:global" = Some ∅ /\
  ~ no_empty_channel st' /\
  net st'
  = net two_observers
    ++ map (fun ws => SendJson ws alert false)
         (elements ({[1%positive; 2%positive]} : gset WebSocket)).
Proof.
  apply (broadcast_all_fail (transport {[1%positive; 2%positive]})
           "admin:global" alert two_observers {[1%positive; 2%positive]}).
  - vm_compute. reflexivity.
  - intros log ws Hin. cbn. apply bool_decide_eq_false. tauto.
Defined.

(** From a student's own session: student [u1] (socket 1, attempt [a1])
    names attempt [a2], and the student there is told the exam is
    terminated. *)
Lemma student_terminates_other_exam :
  let data :=
    [("type", Json.Str "force_terminate"); ("attempt_id", Json.Str "a2")] in
  let r := handle_message reliable no_repr (student "a1" "u1" 1%positive)
             (Json.Obj data) classroom in
  fst r = Ok tt /\
  net (snd r)
  = net classroom
    ++ [SendJson 2%positive
          (Json.Obj [("type", Json.Str "exam_terminated");
                     ("reason", Json.Str "Terminated by instructor");
                     ("terminated_by", Json.Str "u1")]) true].
Proof.
  intros data r.
  destruct (command_reaches_exam_channel reliable no_repr
              (student "a1" "u1" 1%positive) data classroom "force_terminate")
    as (Hok & _).
  - cbn. tauto.
  - reflexivity.
  - split; [exact Hok | vm_compute; reflexivity].
Defined.

(** A camera report of [u2] that names exam [e1] reaches the teacher. *)
Lemma report_example :
  let data :=
    [("type", Json.Str "camera_event"); ("exam_id", Json.Str "e1");
     ("event_type", Json.Str "multi_face")] in
  let r := handle_message reliable no_repr (student "a2" "u2" 2%positive)
             (Json.Obj data) classroom in
  fst r = Ok tt /\
  net (snd r)
  = net classroom
    ++ [SendJson 9%positive
          (Json.Obj [("type", Json.Str "camera_alert");
                     ("student_id", Json.Str "u2");
                     ("event_type", Json.Str "multi_face");
                     ("face_count", Json.Int 1);
                     ("confidence", Json.Float "1.0")]) true].
Proof.
  intros data r.
  destruct (report_reaches_teacher_feed reliable no_repr
              (student "a2" "u2" 2%positive) data classroom "camera_event")
    as (Hok & _).
  - cbn. tauto.
  - reflexivity.
  - split; [exact Hok | vm_compute; reflexivity].
Defined.

End WebsocketFacts.

(* ===================================================================== *)
(** ** routers/monitoring.py: further properties                          *)
(* ===================================================================== *)

Module MonitoringFacts.

Import Monitoring.
#[local] Open Scope string_scope.
#[local] Open Scope list_scope.

Lemma max0_nonneg (x : Q) : (0 <= Py.max 0 x)%Q.
Proof.
  unfold Py.max. destruct (Py.ltb 0 x) eqn:E; [|apply Qle_refl].
  apply Py.ltb_spec in E. now apply Qlt_le_weak.
Qed.

Lemma max0_lowered (t p : Q) :
  (0 <= t)%Q -> (0 <= p)%Q -> (Py.max 0 (t - p) <= t)%Q.
Proof.
  intros Ht Hp. unfold Py.max. destruct (Py.ltb 0 (t - p)); lra.
Qed.

Lemma max0_raised (t p : Q) :
  (0 <= t)%Q -> (p < 0)%Q -> (t < Py.max 0 (t - p))%Q.
Proof.
  intros Ht Hp. unfold Py.max. destruct (Py.ltb 0 (t - p)) eqn:E; [lra|].
  apply not_true_iff_false in E. rewrite Py.ltb_spec in E. lra.
Qed.

Lemma owned_attempt_Some (key current_user : string) (d : Db) (a : Attempt) :
  owned_attempt key current_user d = Some a
  <-> attempts d !! key = Some a /\ user_id a = current_user.
Proof.
  unfold owned_attempt. destruct (attempts d !! key) as [a0|].
  - destruct (String.eqb (user_id a0) current_user) eqn:E.
    + apply String.eqb_eq in E. split; [intros [= <-]; now split|].
      now intros [[= <-] _].
    + apply String.eqb_neq in E. split; [discriminate|].
      intros [[= <-] H]. contradiction.
  - split; [discriminate | now intros [? _]].
Qed.

(** What a signal may do to the table of attempts: every row but the one
    named stays; the named row changes only when it belongs to the
    requester, and then only its score, which stays in [0, old score]. *)
Definition lowers_only (key current_user : string) (d d' : Db) : Prop :=
  (forall k, k <> key -> attempts d' !! k = attempts d !! k) /\
  match attempts d !! key with
  | None => attempts d' !! key = None
  | Some a =>
      exists a', attempts d' !! key = Some a' /\
        user_id a' = user_id a /\ status a' = status a /\
        (user_id a <> current_user -> a' = a) /\
        (a' = a \/ (0 <= trust_score a')%Q) /\
        ((0 <= trust_score a)%Q -> (trust_score a' <= trust_score a)%Q)
  end.

Lemma lowers_only_refl (key current_user : string) (d d' : Db) :
  attempts d' = attempts d -> lowers_only key current_user d d'.
Proof.
  intros E. unfold lowers_only. rewrite E. split; [reflexivity|].
  destruct (attempts d !! key) as [a|]; [|reflexivity].
  exists a. repeat split; auto. intros _. apply Qle_refl.
Qed.

(** One penalised row. *)
Lemma lowers_only_update (key current_user : string) (d : Db) (e : Event)
    (a : Attempt) (p : Q) (f : Attempt -> Attempt) :
  owned_attempt key current_user (add_event e d) = Some a ->
  (0 <= p)%Q ->
  (forall b, user_id (f b) = user_id b /\ status (f b) = status b
             /\ trust_score (f b) = trust_score b) ->
  lowers_only key current_user d
    (update_attempt key
       (f (set_trust_score a (Py.max 0 (trust_score a - p))))
       (add_event e d)).
Proof.
  intros Ho Hp Hf. apply owned_attempt_Some in Ho as [Ha Hu].
  cbn [add_event attempts] in Ha.
  unfold lowers_only. cbn [update_attempt add_event attempts]. split.
  - intros k Hk. now rewrite lookup_insert_ne.
  - rewrite Ha, lookup_insert_eq. eexists. split; [reflexivity|].
    destruct (Hf (set_trust_score a (Py.max 0 (trust_score a - p))))
      as (-> & -> & ->).
    cbn [set_trust_score user_id status trust_score].
    split; [reflexivity|]. split; [reflexivity|].
    split; [intros H; contradiction|].
    split; [right; apply max0_nonneg | intros Ht; now apply max0_lowered].
Qed.

Ltac exists_ok a Ha :=
  do 2 eexists; split; [reflexivity|];
  cbn [snd set_db db add_event attempts new_trust_score];
  rewrite Ha; split; [reflexivity|].

Section Signals.

Variable HMAC_SECRET_KEY : string.

#[local] Abbreviation receive_camera_event :=
  (receive_camera_event HMAC_SECRET_KEY).
#[local] Abbreviation receive_behavior_event :=
  (receive_behavior_event HMAC_SECRET_KEY).

(** X23. The audio and behaviour handlers always return, store exactly one
    event under the attempt the request names, leave the heartbeat tables
    alone, and can only lower a score: no row other than the named one
    changes, the named row changes only if it belongs to the requester, and
    its new score lies between 0 and the old one.  The reported adjustment is
    never positive. *)
Theorem audio_behavior_only_lower (aud : AudioEventRequest)
    (beh : BehaviorEventRequest) (current_user : string) (sv : Server) :
  (exists resp e,
     fst (receive_audio_event aud current_user sv) = Py.Ok resp /\
     let sv' := snd (receive_audio_event aud current_user sv) in
     events (db sv') = events (db sv) ++ [e] /\
     event_attempt_id e = aud_attempt_id aud /\
     _heartbeats sv' = _heartbeats sv /\
     _session_states sv' = _session_states sv /\
     lowers_only (aud_attempt_id aud) current_user (db sv) (db sv') /\
     (trust_adjustment resp <= 0)%Q) /\
  (exists resp e,
     fst (receive_behavior_event beh current_user sv) = Py.Ok resp /\
     let sv' := snd (receive_behavior_event beh current_user sv) in
     events (db sv') = events (db sv) ++ [e] /\
     event_attempt_id e = beh_attempt_id beh /\
     _heartbeats sv' = _heartbeats sv /\
     _session_states sv' = _session_states sv /\
     lowers_only (beh_attempt_id beh) current_user (db sv) (db sv') /\
     (trust_adjustment resp <= 0)%Q).
Proof.
  assert (Hr0 : (Py.round 0 2 <= 0)%Q) by discriminate.
  assert (Hneg : forall p, (0 < p)%Q -> (Py.round (- p) 2 <= 0)%Q).
  { intros p Hp. apply Qle_trans with (Py.round 0 2); [|exact Hr0].
    apply PyFacts.round_mono. lra. }
  split.
  - unfold Monitoring.receive_audio_event.
    set (ri := risk_get audio_risk_map _ _). set (e := mkEvent _ _ _ _ _).
    destruct (Py.ltb 0 (penalty ri)) eqn:Hp.
    + apply Py.ltb_spec in Hp.
      destruct (owned_attempt _ current_user (add_event e (db sv)))
        as [a|] eqn:Ho.
      * do 2 eexists. split; [reflexivity|]. cbn [snd set_db db].
        split; [reflexivity|]. split; [reflexivity|].
        split; [reflexivity|]. split; [reflexivity|].
        split; [|cbn [trust_adjustment]; now apply Hneg].
        apply (lowers_only_update _ _ _ _ _ _ (fun b => b) Ho);
          [now apply Qlt_le_weak | now intros b].
      * do 2 eexists. split; [reflexivity|]. cbn [snd set_db db].
        split; [reflexivity|]. split; [reflexivity|].
        split; [reflexivity|]. split; [reflexivity|].
        split; [now apply lowers_only_refl | exact Hr0].
    + do 2 eexists. split; [reflexivity|]. cbn [snd set_db db].
      split; [reflexivity|]. split; [reflexivity|].
      split; [reflexivity|]. split; [reflexivity|].
      split; [now apply lowers_only_refl | exact Hr0].
  - unfold Monitoring.receive_behavior_event.
    set (ri := risk_get behavior_risk_map _ _). set (e := mkEvent _ _ _ _ _).
    destruct (owned_attempt _ current_user (add_event e (db sv)))
      as [a|] eqn:Ho.
    + destruct (Py.ltb 0 (penalty ri)) eqn:Hp.
      * apply Py.ltb_spec in Hp.
        do 2 eexists. split; [reflexivity|]. cbn [snd set_db db].
        split; [reflexivity|]. split; [reflexivity|].
        split; [reflexivity|]. split; [reflexivity|].
        split; [|cbn [trust_adjustment]; now apply Hneg].
        apply (lowers_only_update _ _ _ _ _ _
                 (fun b => set_risk_level b
                    (risk_level_of (Py.max 0 (trust_score a - penalty ri))))
                 Ho); [now apply Qlt_le_weak | now intros b].
      * do 2 eexists. split; [reflexivity|]. cbn [snd set_db db].
        split; [reflexivity|]. split; [reflexivity|].
        split; [reflexivity|]. split; [reflexivity|].
        split; [now apply lowers_only_refl | exact Hr0].
    + do 2 eexists. split; [reflexivity|]. cbn [snd set_db db].
      split; [reflexivity|]. split; [reflexivity|].
      split; [reflexivity|]. split; [reflexivity|].
      split; [now apply lowers_only_refl | exact Hr0].
Qed.

(** X24. With a reported confidence of at most 10/3 the camera handler
    behaves like the other two: it returns, stores one signed event, and can
    only lower the score of the named attempt of the requester. *)
Theorem camera_only_lowers (data : CameraEventRequest) (current_user : string)
    (sv : Server) :
  (cam_confidence data <= 10 # 3)%Q ->
  exists resp e,
    fst (receive_camera_event data current_user sv) = Py.Ok resp /\
    let sv' := snd (receive_camera_event data current_user sv) in
    events (db sv') = events (db sv) ++ [e] /\
    event_attempt_id e = cam_attempt_id data /\
    hmac_signature e
    = Some (signature_of HMAC_SECRET_KEY (cam_event_type data)
              (cam_attempt_id data)) /\
    lowers_only (cam_attempt_id data) current_user (db sv) (db sv') /\
    (trust_adjustment resp <= 0)%Q.
Proof.
  intros Hc.
  assert (Hr0 : (Py.round 0 2 <= 0)%Q) by discriminate.
  unfold Monitoring.receive_camera_event.
  set (ri := risk_get camera_risk_map _ _). set (e := mkEvent _ _ _ _ _).
  destruct (Py.ltb 0 (penalty ri)) eqn:Hp.
  - apply Py.ltb_spec in Hp.
    assert (Hpos : (0 <= penalty ri * (1 - cam_confidence data * 0.3))%Q).
    { apply Qmult_le_0_compat; [now apply Qlt_le_weak | lra]. }
    destruct (owned_attempt _ current_user (add_event e (db sv)))
      as [a|] eqn:Ho.
    + do 2 eexists. split; [reflexivity|]. cbn [snd set_db db].
      split; [reflexivity|]. split; [reflexivity|]. split; [reflexivity|].
      split.
      * apply (lowers_only_update _ _ _ _ _ _ (fun b => b) Ho);
          [exact Hpos | now intros b].
      * cbn [trust_adjustment].
        apply Qle_trans with (Py.round 0 2); [|exact Hr0].
        apply PyFacts.round_mono. lra.
    + do 2 eexists. split; [reflexivity|]. cbn [snd set_db db].
      split; [reflexivity|]. split; [reflexivity|]. split; [reflexivity|].
      split; [now apply lowers_only_refl | exact Hr0].
  - do 2 eexists. split; [reflexivity|]. cbn [snd set_db db].
    split; [reflexivity|]. split; [reflexivity|]. split; [reflexivity|].
    split; [now apply lowers_only_refl | exact Hr0].
Qed.


(** X26. Only the behaviour handler maintains [risk_level]: the camera and
    audio handlers never change it, however far they lower the score, while
    a penalised behaviour event sets it to the tier of the new score.  The
    behaviour handler also reports the current score of the named attempt to
    every requester, owner or not. *)
Theorem risk_level_maintenance (cam : CameraEventRequest)
    (aud : AudioEventRequest) (beh : BehaviorEventRequest)
    (current_user : string) (sv : Server) :
  (forall k a',
     attempts (db (snd (receive_camera_event cam current_user sv))) !! k
     = Some a' ->
     exists a, attempts (db sv) !! k = Some a /\ risk_level a' = risk_level a) /\
  (forall k a',
     attempts (db (snd (receive_audio_event aud current_user sv))) !! k
     = Some a' ->
     exists a, attempts (db sv) !! k = Some a /\ risk_level a' = risk_level a) /\
  (forall a,
     attempts (db sv) !! beh_attempt_id beh = Some a ->
     exists resp a',
       fst (receive_behavior_event beh current_user sv) = Py.Ok resp /\
       attempts (db (snd (receive_behavior_event beh current_user sv)))
         !! beh_attempt_id beh = Some a' /\
       new_trust_score resp = Some (trust_score a') /\
       (user_id a <> current_user -> a' = a) /\
       (user_id a = current_user ->
        (0 < penalty (risk_get behavior_risk_map (beh_event_type beh)
                        {| penalty := 1; risk := "low" |}))%Q ->
        risk_level a' = risk_level_of (trust_score a'))).
Proof.
  split; [|split].
  - intros k a'. unfold Monitoring.receive_camera_event.
    set (ri := risk_get camera_risk_map _ _). set (e := mkEvent _ _ _ _ _).
    destruct (Py.ltb 0 (penalty ri)); [|cbn; eauto].
    destruct (owned_attempt _ current_user (add_event e (db sv)))
      as [a|] eqn:Ho; [|cbn; eauto].
    apply owned_attempt_Some in Ho as [Ha _]. cbn in Ha |- *.
    destruct (decide (k = cam_attempt_id cam)) as [->|Hne].
    + rewrite lookup_insert_eq. intros [= <-]. now exists a.
    + rewrite lookup_insert_ne by congruence. eauto.
  - intros k a'. unfold Monitoring.receive_audio_event.
    set (ri := risk_get audio_risk_map _ _). set (e := mkEvent _ _ _ _ _).
    destruct (Py.ltb 0 (penalty ri)); [|cbn; eauto].
    destruct (owned_attempt _ current_user (add_event e (db sv)))
      as [a|] eqn:Ho; [|cbn; eauto].
    apply owned_attempt_Some in Ho as [Ha _]. cbn in Ha |- *.
    destruct (decide (k = aud_attempt_id aud)) as [->|Hne].
    + rewrite lookup_insert_eq. intros [= <-]. now exists a.
    + rewrite lookup_insert_ne by congruence. eauto.
  - intros a Ha. unfold Monitoring.receive_behavior_event.
    set (ri := risk_get behavior_risk_map _ _). set (e := mkEvent _ _ _ _ _).
    unfold owned_attempt. cbn [add_event attempts]. rewrite Ha.
    destruct (String.eqb (user_id a) current_user) eqn:Eu.
    + apply String.eqb_eq in Eu.
      destruct (Py.ltb 0 (penalty ri)) eqn:Hp.
      * do 2 eexists. split; [reflexivity|].
        cbn [snd set_db db update_attempt attempts new_trust_score].
        rewrite lookup_insert_eq. split; [reflexivity|].
        split; [reflexivity|]. split; [intros H; contradiction|].
        intros _ _. reflexivity.
      * exists_ok a Ha. split; [reflexivity|]. split; [reflexivity|].
        intros _ H. apply Py.ltb_spec in H. congruence.
    + apply String.eqb_neq in Eu.
      exists_ok a Ha. split; [reflexivity|]. split; [reflexivity|].
      intros H. contradiction.
Qed.

End Signals.

(** X27. What any heartbeat does.  The endpoint raises [TypeError] exactly
    when at least one violation is detected on an attempt of the requester,
    and returns the detected violations otherwise.  In neither case does a
    score, a risk level or a violation counter change: the table of attempts
    is left as it was, and the session entry is the one that was there, or a
    fresh one with no violations.  When it raises, no event is stored. *)
Theorem heartbeat_endpoint_outcome (data : HeartbeatRequest)
    (current_user : string) (now : Z) (sv : Server) :
  let r := heartbeat_endpoint data current_user now sv in
  let vs := detect data (_heartbeats sv !! attempt_id data) now in
  let owned := owned_attempt (attempt_id data) current_user (db sv) in
  (fst r = Py.Raise Py.TypeError /\ vs <> [] /\ owned <> None /\
   events (db (snd r)) = events (db sv)
   \/ (exists resp, fst r = Py.Ok resp /\ resp_violations resp = vs /\
                    resp_status resp = "ok")
      /\ (vs = [] \/ owned = None)) /\
  attempts (db (snd r)) = attempts (db sv) /\
  _session_states (snd r)
  = match _session_states sv !! attempt_id data with
    | Some _ => _session_states sv
    | None => <[attempt_id data := {| paused := false; violations := 0 |}]>
                (_session_states sv)
    end.
Proof.
  intros r vs owned. subst r owned.
  unfold heartbeat_endpoint, with_db, receive_heartbeat, owned_attempt.
  fold vs.
  destruct vs as [|v rest] eqn:Ev.
  - split; [right; split; [eexists; repeat split|now left] | split; reflexivity].
  - destruct (attempts (db sv) !! attempt_id data) as [a|] eqn:Ha.
    + destruct (String.eqb (user_id a) current_user) eqn:Eu.
      * destruct (detect_typed data (_heartbeats sv !! attempt_id data) now v)
          as [s Hs]; [fold vs; rewrite Ev; apply list_elem_of_here|].
        rewrite (penalize_raises v rest s _ Hs). cbn [fst snd db].
        split; [left; repeat split; discriminate | split; reflexivity].
      * split; [right; split; [eexists; repeat split|now right]
               | split; reflexivity].
    + split; [right; split; [eexists; repeat split|now right]
             | split; reflexivity].
Qed.

(** On the attempt of [u1]: a missing face reported with
    confidence 1 costs 5.6; reported with confidence 5 it adds 4. *)
Definition face_missing (confidence : Q) : CameraEventRequest :=
  {| cam_attempt_id := "a1"; cam_event_type := "face_missing"; face_count := 0;
     cam_confidence := confidence; gaze_x := None; gaze_y := None;
     head_yaw := None; head_pitch := None; cam_details := None |}.

Lemma camera_only_lowers_example :
  exists resp e,
    fst (receive_camera_event "change-me" (face_missing 1) "u1"
           (exam_server None)) = Py.Ok resp /\
    let sv' := snd (receive_camera_event "change-me" (face_missing 1) "u1"
                      (exam_server None)) in
    events (db sv') = [] ++ [e] /\
    event_attempt_id e = "a1" /\
    hmac_signature e = Some (signature_of "change-me" "face_missing" "a1") /\
    lowers_only "a1" "u1" (db (exam_server None)) (db sv') /\
    (trust_adjustment resp <= 0)%Q.
Proof.
  apply (camera_only_lowers "change-me" (face_missing 1) "u1"
           (exam_server None)).
  vm_compute. discriminate.
Defined.


End MonitoringFacts.

(* ===================================================================== *)
(** ** routers/monitoring.py: validate_session                            *)
(* ===================================================================== *)

Module SessionInit.

#[local] Open Scope string_scope.
#[local] Open Scope list_scope.

(** [c.lower()] for a code point below 256: the letters A to Z and the
    capital letters of Latin-1 (all of 0xC0 to 0xDE but the multiplication
    sign) move up by 32. *)
Definition lower_char (c : ascii) : ascii :=
  let n := nat_of_ascii c in
  if ((65 <=? n) && (n <=? 90)
      || (192 <=? n) && (n <=? 222) && negb (n =? 215))%nat
  then ascii_of_nat (n + 32) else c.

(** [s.lower()] *)
Fixpoint lower (s : string) : string :=
  match s with
  | EmptyString => EmptyString
  | String c s' => String (lower_char c) (lower s')
  end.

(** [f"{n}"] for an integer. *)
Definition format_int (n : Z) : string := NilZero.string_of_int (Z.to_int n).

(** [f"{x:.1f}"], the number taken as an exact rational. *)
Definition format_1f (x : Q) : string :=
  let m := Z.abs (Py.round_half_even (x * 10)) in
  (if Py.ltb x 0 then "-" else "")
  ++ format_int (m / 10) ++ "." ++ format_int (m mod 10).

Record SessionInitRequest : Set := mkSessionInitRequest {
  browser_name : string;
  browser_version : string;
  os_name : string;
  screen_count : Z;
  gpu_renderer : string;
  device_fingerprint : string;
  vm_detected : bool;
  webcam_available : bool;
  mic_available : bool;
  fullscreen_capable : bool;
  connection_speed_mbps : option Q
}.

Record SessionInitResponse : Set := mkSessionInitResponse {
  ready : bool;
  blocking : list string;
  warnings : list string;
  fingerprint_signature : string;
  session_token : string;
  heartbeat_interval_ms : Q
}.

Definition allowed_browsers : list string := ["chrome"; "edge"; "chromium"].

Definition vm_indicators : list string :=
  ["swiftshader"; "llvmpipe"; "virtualbox"; "vmware"; "parallels"].

(** [any(x in s for x in l)] *)
Definition any_in (l : list string) (s : string) : bool :=
  existsb (fun x => Py.contains x s) l.

(** [l.append(x)] when [b] holds. *)
Definition append_if (b : bool) (x : string) (l : list string) : list string :=
  if b then l ++ [x] else l.

Section Router.

(** [settings.HMAC_SECRET_KEY] *)
Variable HMAC_SECRET_KEY : string.

(** [POST /api/monitoring/session-init]; [current_user] is
    [str(current_user.id)]. *)
Definition validate_session (data : SessionInitRequest) (current_user : string)
    : SessionInitResponse :=
  let browser_lower := lower (browser_name data) in
  let blocking0 :=
    append_if (negb (any_in allowed_browsers browser_lower))
      ("Unsupported browser: " ++ browser_name data ++ ". Use Chrome or Edge.")
      [] in
  let gpu_lower := lower (gpu_renderer data) in
  let blocking1 :=
    append_if (vm_detected data || any_in vm_indicators gpu_lower)
      "Virtual machine detected. Exams must run on physical hardware."
      blocking0 in
  let warnings0 :=
    append_if (1 <? screen_count data)%Z
      ("Multiple monitors detected (" ++ format_int (screen_count data)
       ++ "). Disconnect extra displays.")
      [] in
  let blocking2 :=
    append_if (negb (webcam_available data))
      "Webcam not available. Camera is required for proctoring." blocking1 in
  let warnings1 :=
    append_if (negb (mic_available data))
      "Microphone not available. Audio monitoring will be limited."
      warnings0 in
  let warnings2 :=
    append_if (negb (fullscreen_capable data))
      "Fullscreen API not supported. Browser shield may be limited."
      warnings1 in
  let warnings3 :=
    match connection_speed_mbps data with
    | Some speed =>
        append_if (negb (Qeq_bool speed 0) && Py.ltb speed 1)
          ("Slow connection (" ++ format_1f speed
           ++ " Mbps). May affect real-time monitoring.")
          warnings2
    | None => warnings2
    end in
  let ready_ := (length blocking2 =? 0)%nat in
  let fingerprint_signed :=
    Hmac.sign_event HMAC_SECRET_KEY
      [("fingerprint", Json.Str (device_fingerprint data));
       ("user_id", Json.Str current_user)] in
  {| ready := ready_; blocking := blocking2; warnings := warnings3;
     fingerprint_signature := fingerprint_signed;
     session_token := fingerprint_signed;
     heartbeat_interval_ms := Monitoring.HEARTBEAT_INTERVAL * 1000 |}.

(** *** Properties *)

Lemma append_if_length (b : bool) (x : string) (l : list string) :
  length (append_if b x l) = (length l + if b then 1 else 0)%nat.
Proof. destruct b; cbn [append_if]; rewrite ?length_app; cbn; lia. Qed.

(** X28. A session is ready exactly when the browser name contains, in any
    case, one of the allowed names, no virtual machine is reported or
    recognised in the GPU string, and a webcam is available; warnings never
    block.  There are at most three blocking messages and four warnings.
    The session token is the fingerprint signature, 64 hexadecimal digits
    computed from the fingerprint and the user alone, and the heartbeat
    interval is 3000 ms. *)
Theorem validate_session_ready (data : SessionInitRequest)
    (current_user : string) :
  let resp := validate_session data current_user in
  (ready resp = true <-> blocking resp = []) /\
  (ready resp
   = any_in allowed_browsers (lower (browser_name data))
     && negb (vm_detected data)
     && negb (any_in vm_indicators (lower (gpu_renderer data)))
     && webcam_available data) /\
  ((length (blocking resp) <= 3)%nat /\ (length (warnings resp) <= 4)%nat) /\
  (session_token resp = fingerprint_signature resp /\
   String.length (session_token resp) = 64%nat /\
   forall data',
     device_fingerprint data' = device_fingerprint data ->
     session_token (validate_session data' current_user) = session_token resp) /\
  (heartbeat_interval_ms resp == 3000)%Q.
Proof.
  intros resp. subst resp. unfold validate_session.
  cbn [ready blocking warnings fingerprint_signature session_token
       heartbeat_interval_ms].
  set (b1 := any_in allowed_browsers _). set (b2 := any_in vm_indicators _).
  split; [|split; [|split; [|split]]].
  - rewrite Nat.eqb_eq. split; [apply nil_length_inv | now intros ->].
  - rewrite !append_if_length. cbn [length].
    destruct b1, (vm_detected data), b2, (webcam_available data); reflexivity.
  - split.
    + rewrite !append_if_length. cbn [length].
      destruct (negb b1), (vm_detected data || b2),
        (negb (webcam_available data)); lia.
    + destruct (connection_speed_mbps data) as [speed|];
        rewrite !append_if_length; cbn [length];
        repeat match goal with
               | |- context [if ?b then _ else _] => destruct b
               end; lia.
  - split; [reflexivity|]. split; [apply HmacFacts.sign_event_length|].
    intros data' ->. reflexivity.
  - reflexivity.
Qed.

End Router.

End SessionInit.

(* ===================================================================== *)
(** ** services/ai_twin.py                                                *)
(* ===================================================================== *)

Module AiTwin.

#[local] Open Scope string_scope.
#[local] Open Scope list_scope.

(** [session_data], a dictionary. *)
Definition SessionData : Set := list (string * Py.value).

(** The dictionary [_rule_based_analysis] returns. *)
Record Analysis : Set := mkAnalysis {
  risk_level : string;
  intervention_text : option string;
  challenge_prompt : option string;
  trust_adjustment : Z;
  reasoning : string
}.

(** What [analyze_session] returns: the rule-based dictionary, or whatever
    JSON the model's answer parsed to. *)
Inductive Verdict : Set :=
  | RuleBased (a : Analysis)
  | FromApi (answer : Py.value).

#[local] Instance Result_ret : MRet Py.Result := fun _ a => Py.Ok a.
#[local] Instance Result_bind : MBind Py.Result :=
  fun _ _ f m => match m with Py.Ok a => f a | Py.Raise e => Py.Raise e end.

(** [d.get(key, default)] *)
Definition get (d : SessionData) (key : string) (default_ : Py.value)
    : Py.value :=
  default default_ (Py.dict_get d key).

(** [v > q] and [v < q] against a number: ordering anything that is not a
    number against one is a [TypeError]. *)
Definition gt (v : Py.value) (q : Q) : Py.Result bool :=
  match Py.as_number v with
  | Some x => Py.Ok (Py.ltb q x)
  | None => Py.Raise Py.TypeError
  end.

Definition lt (v : Py.value) (q : Q) : Py.Result bool :=
  match Py.as_number v with
  | Some x => Py.Ok (Py.ltb x q)
  | None => Py.Raise Py.TypeError
  end.

(** Truth value of [d.get(key)]. *)
Definition truthy (v : option Py.value) : bool :=
  match v with
  | None | Some Py.NoneV => false
  | Some (Py.Bool b) => b
  | Some (Py.Num x) => negb (Qeq_bool x 0)
  | Some (Py.Str s) => Py.nonempty s
  | Some (Py.List l) => match l with [] => false | _ => true end
  | Some (Py.Dict items) => match items with [] => false | _ => true end
  end.

(** The local variable [risk_score] when the classification starts. *)
Definition risk_score (session_data : SessionData) : Py.Result Z :=
  let tab_switches := get session_data "tab_switch_count" (Py.Num 0) in
  s1 ← (b ← gt tab_switches 5;
        if b : bool then mret 30%Z
        else b' ← gt tab_switches 2; mret (if b' : bool then 15 else 0)%Z);
  let paste_size := get session_data "paste_size" (Py.Num 0) in
  s2 ← (b ← gt paste_size 500;
        if b : bool then mret (s1 + 25)%Z
        else b' ← gt paste_size 100;
             mret (if b' : bool then s1 + 10 else s1)%Z);
  let wpm := get session_data "typing_speed" (Py.Num 0) in
  s3 ← (b ← gt wpm 150;
        if b : bool then mret (s2 + 20)%Z
        else b' ← gt wpm 100; mret (if b' : bool then s2 + 10 else s2)%Z);
  let s4 :=
    (if truthy (Py.dict_get session_data "gaze_deviation")
     then s3 + 15 else s3)%Z in
  let voice_score := get session_data "voice_match_score" (Py.Num 1) in
  s5 ← (b ← lt voice_score 0.7; mret (if b : bool then s4 + 25 else s4)%Z);
  let backspace_ratio := get session_data "backspace_ratio" (Py.Num 0.05) in
  s6 ← (b ← lt backspace_ratio 0.01;
        mret (if b : bool then s5 + 15 else s5)%Z);
  let entropy := get session_data "code_entropy" (Py.Num 0.5) in
  b ← gt entropy 0.95; mret (if b : bool then s6 + 10 else s6)%Z.

Section Service.

(** The texts [f"{v}"] and [f"{x:.<digits>f}"] of a value and of a float.
    Formatting with [.2f] first converts an integer to a float, which
    raises [OverflowError] beyond the binary64 range; [f"{v}"] is taken on
    integers whose decimal text Python agrees to build (the interpreter
    refuses beyond [sys.get_int_max_str_digits()] digits, 4300 unless
    configured otherwise). *)
Variable str : Py.value -> string.
Variable format_f : nat -> Q -> string.

(** [settings.ANTHROPIC_API_KEY], and the answer of the model parsed as
    JSON; [None] when importing the client, the request or the parsing
    raises. *)
Variable ANTHROPIC_API_KEY : string.
Variable ask : SessionData -> option Py.value.

Definition _rule_based_analysis (session_data : SessionData)
    : Py.Result Analysis :=
  score ← risk_score session_data;
  let tab_switches := get session_data "tab_switch_count" (Py.Num 0) in
  let paste_size := get session_data "paste_size" (Py.Num 0) in
  let wpm := get session_data "typing_speed" (Py.Num 0) in
  let voice_score := get session_data "voice_match_score" (Py.Num 1) in
  let backspace_ratio := get session_data "backspace_ratio" (Py.Num 0.05) in
  let voice := default 0%Q (Py.as_number voice_score) in
  let backspace := default 0%Q (Py.as_number backspace_ratio) in
  let '(level, text, challenge, adjustment) :=
    if (60 <=? score)%Z then
      ("critical",
       Some "Your session has been flagged for multiple anomalies. Please stay focused on your exam.",
       Some "Please explain your approach to the current problem in your own words.",
       (-15)%Z)
    else if (40 <=? score)%Z then
      ("high",
       Some "Several unusual activities detected. Please ensure you're following exam rules.",
       Some "Can you walk through the logic of your most recent code change?",
       (-10)%Z)
    else if (20 <=? score)%Z then
      ("medium", Some "Minor irregularities detected. Please remain focused.",
       None, (-5)%Z)
    else ("low", None, None, 0%Z) in
  if F64.overflows voice || F64.overflows backspace
  then Py.Raise Py.OverflowError
  else
  mret {| risk_level := level; intervention_text := text;
          challenge_prompt := challenge; trust_adjustment := adjustment;
          reasoning :=
            "Rule-based analysis. Risk score: "
            ++ NilZero.string_of_int (Z.to_int score) ++ "/100. "
            ++ "Factors: tabs=" ++ str tab_switches
            ++ ", paste=" ++ str paste_size
            ++ ", wpm=" ++ str wpm
            ++ ", gaze="
            ++ (if truthy (Py.dict_get session_data "gaze_deviation")
                then "deviated" else "normal")
            ++ ", voice=" ++ format_f 2 voice
            ++ ", backspace_ratio=" ++ format_f 3 backspace |}.

Definition analyze_session (session_data : SessionData) : Py.Result Verdict :=
  if negb (Py.nonempty ANTHROPIC_API_KEY)
     || String.eqb ANTHROPIC_API_KEY "your-anthropic-api-key-here"
  then a ← _rule_based_analysis session_data; mret (RuleBased a)
  else
    match ask session_data with
    | Some result => mret (FromApi result)
    | None => a ← _rule_based_analysis session_data; mret (RuleBased a)
    end.

(** The [session_data] that [_trigger_ai_analysis] of [monitoring.py]
    builds. *)
Definition trigger_session_data (trigger_event : string) : SessionData :=
  [("trigger_event", Py.Str trigger_event);
   ("tab_switches", Py.Num 0);
   ("paste_size", Py.Num 0);
   ("typing_speed", Py.Num 50);
   ("gaze_deviation",
    Py.Num (if Py.contains "gaze" trigger_event then 0.5 else 0));
   ("voice_match", Py.Bool true);
   ("backspace_ratio", Py.Num 0.1);
   ("code_entropy", Py.Num 3)].

(** [_trigger_ai_analysis]: the analysis is computed and dropped, and every
    exception is swallowed. *)
Definition _trigger_ai_analysis (attempt_id trigger_event : string) : unit :=
  match analyze_session (trigger_session_data trigger_event) with
  | Py.Ok _ => tt
  | Py.Raise _ => tt
  end.

(** *** Properties *)

(** The keys whose values are ordered against numbers. *)
Definition numeric_keys : list string :=
  ["tab_switch_count"; "paste_size"; "typing_speed"; "voice_match_score";
   "backspace_ratio"; "code_entropy"].

Definition numeric (session_data : SessionData) : Prop :=
  forall key v, In key numeric_keys ->
    Py.dict_get session_data key = Some v -> Py.as_number v <> None.

Lemma get_number (d : SessionData) (key : string) (x : Q) :
  numeric d -> In key numeric_keys ->
  exists y, Py.as_number (get d key (Py.Num x)) = Some y.
Proof.
  intros Hn Hk. unfold get.
  destruct (Py.dict_get d key) as [v|] eqn:E; cbn [default].
  - destruct (Py.as_number v) eqn:Ev; [eauto|]. now destruct (Hn key v Hk E).
  - eauto.
Qed.

(** The score is a multiple of 5 between 0 and 140; ordering is the only
    thing that can fail. *)
Lemma risk_score_range (d : SessionData) :
  match risk_score d with
  | Py.Ok s => (0 <= s <= 140)%Z /\ (s mod 5 = 0)%Z /\ numeric d
  | Py.Raise e => e = Py.TypeError /\ ~ numeric d
  end.
Proof.
  unfold risk_score, mbind, mret, Result_bind, Result_ret.
  set (t1 := get d "tab_switch_count" _). set (t2 := get d "paste_size" _).
  set (t3 := get d "typing_speed" _). set (t4 := get d "voice_match_score" _).
  set (t5 := get d "backspace_ratio" _). set (t6 := get d "code_entropy" _).
  assert (Hraise : forall key x,
            In key numeric_keys ->
            Py.as_number (get d key (Py.Num x)) = None -> ~ numeric d).
  { intros key x Hk E Hn. destruct (get_number d key x Hn Hk) as [y Hy].
    congruence. }
  unfold gt, lt.
  destruct (Py.as_number t1) as [x1|] eqn:E1;
    [|split; [reflexivity | eapply Hraise; [|exact E1]; cbn; auto]].
  destruct (Py.as_number t2) as [x2|] eqn:E2;
    [|destruct (Py.ltb 5 x1); [|destruct (Py.ltb 2 x1)];
      (split; [reflexivity | eapply Hraise; [|exact E2]; cbn; auto])].
  destruct (Py.as_number t3) as [x3|] eqn:E3;
    [|destruct (Py.ltb 5 x1); [|destruct (Py.ltb 2 x1)];
      (destruct (Py.ltb 500 x2); [|destruct (Py.ltb 100 x2)]);
      (split; [reflexivity | eapply Hraise; [|exact E3]; cbn; auto])].
  destruct (Py.as_number t4) as [x4|] eqn:E4;
    [|destruct (Py.ltb 5 x1); [|destruct (Py.ltb 2 x1)];
      (destruct (Py.ltb 500 x2); [|destruct (Py.ltb 100 x2)]);
      (destruct (Py.ltb 150 x3); [|destruct (Py.ltb 100 x3)]);
      (split; [reflexivity | eapply Hraise; [|exact E4]; cbn; auto 6])].
  destruct (Py.as_number t5) as [x5|] eqn:E5;
    [|destruct (Py.ltb 5 x1); [|destruct (Py.ltb 2 x1)];
      (destruct (Py.ltb 500 x2); [|destruct (Py.ltb 100 x2)]);
      (destruct (Py.ltb 150 x3); [|destruct (Py.ltb 100 x3)]);
      destruct (Py.ltb x4 0.7);
      (split; [reflexivity | eapply Hraise; [|exact E5]; cbn; auto 7])].
  destruct (Py.as_number t6) as [x6|] eqn:E6;
    [|destruct (Py.ltb 5 x1); [|destruct (Py.ltb 2 x1)];
      (destruct (Py.ltb 500 x2); [|destruct (Py.ltb 100 x2)]);
      (destruct (Py.ltb 150 x3); [|destruct (Py.ltb 100 x3)]);
      destruct (Py.ltb x4 0.7); destruct (Py.ltb x5 0.01);
      (split; [reflexivity | eapply Hraise; [|exact E6]; cbn; auto 8])].
  assert (Hnum : numeric d).
  { intros key v Hk Hget. unfold get in *.
    cbn [numeric_keys In] in Hk.
    destruct Hk as [<-|[<-|[<-|[<-|[<-|[<-|[]]]]]]];
      [subst t1; rewrite Hget in E1 | subst t2; rewrite Hget in E2
      |subst t3; rewrite Hget in E3 | subst t4; rewrite Hget in E4
      |subst t5; rewrite Hget in E5 | subst t6; rewrite Hget in E6];
      cbn [default from_option] in *; unfold id in *; congruence. }
  destruct (Py.ltb 5 x1); [|destruct (Py.ltb 2 x1)];
    (destruct (Py.ltb 500 x2); [|destruct (Py.ltb 100 x2)]);
    (destruct (Py.ltb 150 x3); [|destruct (Py.ltb 100 x3)]);
    destruct (truthy (Py.dict_get d "gaze_deviation"));
    destruct (Py.ltb x4 0.7); destruct (Py.ltb x5 0.01);
    destruct (Py.ltb 0.95 x6);
    (split; [lia | split; [reflexivity | exact Hnum]]).
Qed.

(** Session data on which every rule fires. *)
Definition worst_case : SessionData :=
  [("tab_switch_count", Py.Num 6); ("paste_size", Py.Num 501);
   ("typing_speed", Py.Num 151); ("gaze_deviation", Py.Bool true);
   ("voice_match_score", Py.Num 0); ("backspace_ratio", Py.Num 0);
   ("code_entropy", Py.Num 1)].

(** Every number the rules read is at most 10^300 in magnitude. *)
Definition bounded (session_data : SessionData) : Prop :=
  forall key v x, In key numeric_keys ->
    Py.dict_get session_data key = Some v -> Py.as_number v = Some x ->
    (Qabs x <= inject_Z (10 ^ 300))%Q.

Lemma bounded_fits (x : Q) :
  (Qabs x <= inject_Z (10 ^ 300))%Q -> F64.overflows x = false.
Proof.
  intros H. unfold F64.overflows. apply not_true_iff_false.
  rewrite Qle_bool_iff. intros C.
  assert (L : (inject_Z (2 ^ 1024 - 2 ^ 970) <= inject_Z (10 ^ 300))%Q)
    by (eapply Qle_trans; eassumption).
  rewrite <- Zle_Qle in L. revert L. vm_compute. intros L. now apply L.
Qed.

Lemma get_bounded (d : SessionData) (key : string) (x : Q) :
  bounded d -> In key numeric_keys -> (Qabs x <= inject_Z (10 ^ 300))%Q ->
  (Qabs (default 0%Q (Py.as_number (get d key (Py.Num x))))
   <= inject_Z (10 ^ 300))%Q.
Proof.
  intros Hb Hk Hx. unfold get.
  destruct (Py.dict_get d key) as [v|] eqn:E; cbn [default from_option];
    unfold id; [|exact Hx].
  destruct (Py.as_number v) as [y|] eqn:Ev; cbn [from_option].
  - exact (Hb key v y Hk E Ev).
  - vm_compute. discriminate.
Qed.

(** X29. [_rule_based_analysis] raises [TypeError] when one of the six
    values it orders is not a number, and returns on no such data.  On
    numbers of at most 10^300 in magnitude it returns: the risk score it
    classifies lies between 0 and 140 (the text reports it out of 100, and
    140 is reached), the level is critical from 60, high from 40, medium
    from 20 and low below; the trust adjustment is -15, -10, -5 or 0
    accordingly, a challenge is issued exactly from 40 and an intervention
    text exactly from 20.  An integer voice score beyond the binary64 range
    makes the text of the result, and so the call, fail with
    [OverflowError]. *)
Theorem rule_based_analysis_tiers (d : SessionData) :
  (~ numeric d -> _rule_based_analysis d = Py.Raise Py.TypeError) /\
  (forall a, _rule_based_analysis d = Py.Ok a -> numeric d) /\
  (numeric d -> bounded d ->
   exists a s,
     _rule_based_analysis d = Py.Ok a /\
     risk_score d = Py.Ok s /\ (0 <= s <= 140)%Z /\
     (risk_level a, trust_adjustment a)
     = (if (60 <=? s)%Z then ("critical", -15)
        else if (40 <=? s)%Z then ("high", -10)
        else if (20 <=? s)%Z then ("medium", -5)
        else ("low", 0))%Z /\
     (challenge_prompt a <> None <-> (40 <= s)%Z) /\
     (intervention_text a <> None <-> (20 <= s)%Z)) /\
  _rule_based_analysis [("voice_match_score", Py.Num (inject_Z (10 ^ 400)))]
  = Py.Raise Py.OverflowError /\
  risk_score worst_case = Py.Ok 140%Z.
Proof.
  assert (H := risk_score_range d).
  split; [|split; [|split; [|split]]].
  - intros Hn. unfold _rule_based_analysis, mbind, Result_bind.
    destruct (risk_score d) as [s|e]; [now destruct H as (_ & _ & Hd)|].
    now destruct H as [-> _].
  - intros a. unfold _rule_based_analysis, mbind, Result_bind.
    destruct (risk_score d) as [s|e]; [now destruct H as (_ & _ & Hd)|].
    discriminate.
  - intros Hn Hb.
    unfold _rule_based_analysis, mbind, mret, Result_bind, Result_ret.
    destruct (risk_score d) as [s|e]; [|now destruct H as [_ Hd]].
    destruct H as (Hr & _ & _).
    rewrite (bounded_fits _ (get_bounded d "voice_match_score" 1 Hb
                               ltac:(cbn; auto 7) ltac:(vm_compute; discriminate))).
    rewrite (bounded_fits _ (get_bounded d "backspace_ratio" 0.05 Hb
                               ltac:(cbn; auto 7) ltac:(vm_compute; discriminate))).
    cbn [orb].
    destruct (60 <=? s)%Z eqn:E60; [|destruct (40 <=? s)%Z eqn:E40;
                                      [|destruct (20 <=? s)%Z eqn:E20]];
      eexists _, s; (split; [reflexivity|]); (split; [reflexivity|]);
      (split; [exact Hr|]);
      rewrite ?E60, ?E40, ?E20;
      cbn [risk_level trust_adjustment challenge_prompt intervention_text];
      try apply Z.leb_le in E60; try apply Z.leb_gt in E60;
      try apply Z.leb_le in E40; try apply Z.leb_gt in E40;
      try apply Z.leb_le in E20; try apply Z.leb_gt in E20;
      (split; [reflexivity|]);
      (split; (split; [intros Hc; try lia; now contradiction Hc
                      |intros Hs Hc; try lia; discriminate Hc])).
  - vm_compute. reflexivity.
  - reflexivity.
Qed.

(** X30. The session data [_trigger_ai_analysis] hands over never makes the
    rule-based analysis fail, and scores 10 (the fixed code entropy), or 25
    when the triggering event type contains ["gaze"]: the keys
    ["tab_switches"] and ["voice_match"] it fills in are not the keys
    ["tab_switch_count"] and ["voice_match_score"] the rules read.  So for
    the camera events that trigger it, those of high or critical risk, the
    rule-based level is always low, with no adjustment; and without an API
    key that is what [analyze_session] returns. *)
Theorem trigger_analysis_level (trigger_event : string) :
  exists a,
    _rule_based_analysis (trigger_session_data trigger_event) = Py.Ok a /\
    (if Py.contains "gaze" trigger_event
     then risk_score (trigger_session_data trigger_event) = Py.Ok 25%Z /\
          risk_level a = "medium" /\ trust_adjustment a = (-5)%Z
     else risk_score (trigger_session_data trigger_event) = Py.Ok 10%Z /\
          risk_level a = "low" /\ trust_adjustment a = 0%Z) /\
    (In (Monitoring.risk
           (Monitoring.risk_get Monitoring.camera_risk_map trigger_event
              {| Monitoring.penalty := 1; Monitoring.risk := "low" |}))
        ["high"; "critical"] ->
     risk_level a = "low" /\ trust_adjustment a = 0%Z /\
     challenge_prompt a = None) /\
    (ANTHROPIC_API_KEY = "" ->
     analyze_session (trigger_session_data trigger_event)
     = Py.Ok (RuleBased a)).
Proof.
  assert (Hcam :
    In (Monitoring.risk
          (Monitoring.risk_get Monitoring.camera_risk_map trigger_event
             {| Monitoring.penalty := 1; Monitoring.risk := "low" |}))
       ["high"; "critical"] ->
    Py.contains "gaze" trigger_event = false).
  { unfold Monitoring.risk_get.
    destruct (find _ Monitoring.camera_risk_map) as [[k ri]|] eqn:F.
    - apply find_some in F as [Hin Hk]. cbn [fst] in Hk.
      apply String.eqb_eq in Hk. subst k. cbn [In Monitoring.camera_risk_map] in Hin.
      repeat (destruct Hin as [Hin|Hin];
              [injection Hin as <- <-; cbn;
               first [reflexivity | intros [?|[?|[]]]; discriminate]|]).
      destruct Hin.
    - cbn. intros [?|[?|[]]]; discriminate. }
  unfold analyze_session, _rule_based_analysis, risk_score, trigger_session_data.
  destruct (Py.contains "gaze" trigger_event) eqn:G.
  - eexists. split; [reflexivity|]. split; [repeat split|].
    split; [intros H; apply Hcam in H; discriminate|].
    intros ->. reflexivity.
  - eexists. split; [reflexivity|]. split; [repeat split|].
    split; [intros _; repeat split|].
    intros ->. reflexivity.
Qed.

End Service.

End AiTwin.
